(** * Verification of the wind-solar-storage capacity-expansion model

    Shallow embedding of [ZHANG_HWK_3_OPT.py]: the Pyomo model of the
    least-cost mix of wind, solar and energy storage.  The Python script
    declares sets, parameters, variables, one objective and five indexed
    constraint blocks; [create_instance] calls every rule once per index and
    collects the expression objects they return.  The embedding follows that
    structure: rules are functions returning expression trees, lookups of
    parameters and variables are partial and raise, and the instance is a
    record of the constructed components.  The time index is the one the
    three [data.load] calls store for [model.t]: the [t] column of the data
    file, in row order.

    Numbers are exact rationals: the literals [0.20], [0.95] and [0.9] stand
    for 1/5, 19/20 and 9/10; binary floating-point rounding of the script's
    literals is not modelled. *)

From Stdlib Require Import QArith ZArith List String Bool Lia Lqa FinFun.
Import ListNotations.

Open Scope string_scope.
Open Scope list_scope.
Open Scope Q_scope.

(** ** Constants and assumptions (lines 12-25 of the script) *)

Definition solar_cap_cost : Q := 800000000.
Definition wind_cap_cost : Q := 1200000000.
Definition ESS_p_cap_cost : Q := 200000000.
Definition ESS_e_cap_cost : Q := 150000000.

Definition ESS_min_level : Q := 0.20.
Definition ESS_eta_c : Q := 0.95.
Definition ESS_eta_d : Q := 0.9.
Definition ESS_p_var_cost : Q := 5000.

Definition curtailment_cost : Q := 1000.

(** ** Decision variables and expression objects *)

(** One constructor per [Var] component of the script; [cap] is indexed by
    [model.tech] (strings), the four others by [model.t] (integers). *)
Inductive var : Type :=
| cap (k : string)
| ESS_SOC (i : Z)
| ESS_c (i : Z)
| ESS_d (i : Z)
| curt (i : Z).

(** The arithmetic operators of Python applied to Pyomo variables build
    expression trees; parameter values and module constants enter them as
    numeric leaves. *)
Inductive expr : Type :=
| Const (q : Q)
| V (v : var)
| Add (a b : expr)
| Sub (a b : expr)
| Mul (a b : expr)
| Div (a b : expr).

Inductive relop : Type := EQ | LE | GE.

Record constraint : Type := Rel { c_lhs : expr; c_rel : relop; c_rhs : expr }.

Declare Scope expr_scope.
Delimit Scope expr_scope with E.
Bind Scope expr_scope with expr.
Notation "a + b" := (Add a b) : expr_scope.
Notation "a - b" := (Sub a b) : expr_scope.
Notation "a * b" := (Mul a b) : expr_scope.
Notation "a / b" := (Div a b) : expr_scope.
Notation "a '==' b" := (Rel a%E EQ b%E) : expr_scope.
Notation "a '<=' b" := (Rel a%E LE b%E) : expr_scope.
Notation "a '>=' b" := (Rel a%E GE b%E) : expr_scope.

(** Variable domains.  [Reals] is Pyomo's default; the script asks for
    [NonNegativeReals] on every [Var]. *)
Inductive domain : Type := Reals | NonNegativeReals.

Definition assignment : Type := var -> Q.

Fixpoint eval (s : assignment) (e : expr) : Q :=
  match e with
  | Const q => q
  | V v => s v
  | Add a b => eval s a + eval s b
  | Sub a b => eval s a - eval s b
  | Mul a b => eval s a * eval s b
  | Div a b => eval s a / eval s b
  end.

Definition holds (s : assignment) (c : constraint) : Prop :=
  match c_rel c with
  | EQ => eval s (c_lhs c) == eval s (c_rhs c)
  | LE => eval s (c_lhs c) <= eval s (c_rhs c)
  | GE => eval s (c_rhs c) <= eval s (c_lhs c)
  end.

Definition in_domain (d : domain) (q : Q) : Prop :=
  match d with
  | Reals => True
  | NonNegativeReals => 0 <= q
  end.

(** Variables occurring in an expression, left to right. *)
Fixpoint expr_vars (e : expr) : list var :=
  match e with
  | Const _ => []
  | V v => [v]
  | Add a b | Sub a b | Mul a b | Div a b => expr_vars a ++ expr_vars b
  end.

Definition constraint_vars (c : constraint) : list var :=
  expr_vars (c_lhs c) ++ expr_vars (c_rhs c).

(** Python's built-in [sum]: starts from 0 and adds the items left to right. *)
Definition pysum (items : list expr) : expr :=
  fold_left Add items (Const 0).

(** ** Exceptions and the result monad *)

Inductive key : Type := KInt (z : Z) | KStr (s : string).

(** Where the values of a [Param] come from: the data handed to
    [create_instance], or the [initialize] argument of its declaration. *)
Inductive source : Type := FromData | FromInitialize.

(** The ways instance construction can fail in this script: a [Param]
    given a value at an index outside its index set, a rule reading a
    component at an index outside its index set, and a rule reading a
    [Param] entry that has no value and no default. *)
Inductive exn : Type :=
| IndexInvalid (src : source) (component : string) (idx : key)
| LookupInvalid (component : string) (idx : key)
| ParamUndefined (param : string) (idx : key).

(** Python class of the exception Pyomo raises. *)
Definition exn_class (e : exn) : string :=
  match e with
  | IndexInvalid FromData _ _ => "RuntimeError"
  | IndexInvalid FromInitialize _ _ => "KeyError"
  | LookupInvalid _ _ => "KeyError"
  | ParamUndefined _ _ => "ValueError"
  end.

Inductive result (A : Type) : Type :=
| Ok (a : A)
| Raise (e : exn).
Arguments Ok {A} a.
Arguments Raise {A} e.

Definition bind {A B : Type} (r : result A) (f : A -> result B) : result B :=
  match r with
  | Ok a => f a
  | Raise e => Raise e
  end.

Notation "x <- r ;; k" := (bind r (fun x => k))
  (at level 61, r at next level, right associativity).

Fixpoint mapM {A B : Type} (f : A -> result B) (l : list A) : result (list B) :=
  match l with
  | [] => Ok []
  | a :: l' => b <- f a ;; bs <- mapM f l' ;; Ok (b :: bs)
  end.

Definition is_ok {A : Type} (r : result A) : bool :=
  match r with Ok _ => true | Raise _ => false end.

(** ** Sets and parameters

    The constant [demand = 1000] of line 27 is never read: the rules use
    the parameter [model.demand]. *)

(** [range(n)] of Python. *)
Definition range (n : nat) : list Z := map Z.of_nat (seq 0 n).

Definition mem {K : Type} (eqb : K -> K -> bool) (k : K) (s : list K) : bool :=
  existsb (eqb k) s.

(** Construction of an ordered [Set] from the values supplied for it: the
    values are added in order, and a value already in the set is skipped. *)
Definition Set_construct (values : list Z) : list Z :=
  fold_left (fun s x => if mem Z.eqb x s then s else s ++ [x]) values [].

(** [first()] and [last()] of an ordered set: its members at the first and
    at the last position.  The rules call them only while a constraint is
    built for a member of the set, so the set is not empty there; 0 stands
    for the case that is never reached. *)
Definition Set_first (s : list Z) : Z := hd 0%Z s.
Definition Set_last (s : list Z) : Z := last s 0%Z.

(** A constructed [Param]: a partial map from indices to values (no default
    value is declared anywhere in the script). *)
Definition Param (K : Type) : Type := K -> option Q.

(** A Python dict, in insertion order. *)
Definition dict (K : Type) : Type := list (K * Q).

Fixpoint dict_get {K : Type} (eqb : K -> K -> bool) (d : dict K) (k : K) : option Q :=
  match d with
  | [] => None
  | (k', q) :: d' => if eqb k' k then Some q else dict_get eqb d' k
  end.

(** [d[k] = q]: a key already present keeps its place and takes the new
    value. *)
Fixpoint dict_set {K : Type} (eqb : K -> K -> bool) (d : dict K) (k : K) (q : Q)
  : dict K :=
  match d with
  | [] => [(k, q)]
  | (k', q') :: d' =>
      if eqb k' k then (k', q) :: d' else (k', q') :: dict_set eqb d' k q
  end.

Definition dict_of {K : Type} (eqb : K -> K -> bool) (items : list (K * Q)) : dict K :=
  fold_left (fun d kq => dict_set eqb d (fst kq) (snd kq)) items [].

(** Construction of [Param(index)] from a table of values: every key of the
    table must belong to the index set. *)
Fixpoint Param_validate {K : Type} (eqb : K -> K -> bool) (tokey : K -> key)
    (src : source) (name : string) (index : list K) (init : dict K) : result unit :=
  match init with
  | [] => Ok tt
  | (k, _) :: init' =>
      if mem eqb k index
      then Param_validate eqb tokey src name index init'
      else Raise (IndexInvalid src name (tokey k))
  end.

Definition Param_construct {K : Type} (eqb : K -> K -> bool) (tokey : K -> key)
    (src : source) (name : string) (index : list K) (init : dict K) : result (Param K) :=
  _ <- Param_validate eqb tokey src name index init ;;
  Ok (dict_get eqb init).

(** Reading [model.<name>[i]] inside a rule: the value when there is one;
    otherwise a [KeyError] for an index outside the index set and a
    [ValueError] for an index without a value. *)
Definition param_get {K : Type} (eqb : K -> K -> bool) (tokey : K -> key)
    (name : string) (index : list K) (p : Param K) (i : K) : result Q :=
  match p i with
  | Some q => Ok q
  | None =>
      if mem eqb i index
      then Raise (ParamUndefined name (tokey i))
      else Raise (LookupInvalid name (tokey i))
  end.

(** A row of the data file: the columns the three [data.load] calls select
    (lines 44-46). *)
Record csv_row : Type := {
  row_t : Z;
  row_wind : Q;
  row_solar : Q;
  row_demand : Q
}.

(** What the [DataPortal] holds after the three [data.load] calls: the
    values of the index column, stored for [model.t] by [index = model.t],
    and one index-to-value table per time series. *)
Record DataPortal : Type := {
  data_t : list Z;
  data_wind : dict Z;
  data_solar : dict Z;
  data_demand : dict Z
}.

(** The three loads of one file (lines 43-46). *)
Definition load (rows : list csv_row) : DataPortal :=
  {| data_t := map row_t rows;
     data_wind := dict_of Z.eqb (map (fun r => (row_t r, row_wind r)) rows);
     data_solar := dict_of Z.eqb (map (fun r => (row_t r, row_solar r)) rows);
     data_demand := dict_of Z.eqb (map (fun r => (row_t r, row_demand r)) rows) |}.

(** ** The model *)

(** Sets, parameters and variable declarations: what a rule can read from its
    [model] argument.  Each [Var] is indexed by the set named in its
    declaration, so only its domain is recorded. *)
Record Model : Type := {
  model_t : list Z;
  model_tech : list string;
  model_wind : Param Z;
  model_solar : Param Z;
  model_demand : Param Z;
  model_costs : Param string;
  model_cap : domain;
  model_ESS_SOC : domain;
  model_ESS_c : domain;
  model_ESS_d : domain;
  model_curt : domain
}.

Definition var_name (v : var) : string :=
  match v with
  | cap _ => "cap"
  | ESS_SOC _ => "ESS_SOC"
  | ESS_c _ => "ESS_c"
  | ESS_d _ => "ESS_d"
  | curt _ => "curt"
  end.

Definition var_key (v : var) : key :=
  match v with
  | cap k => KStr k
  | ESS_SOC i | ESS_c i | ESS_d i | curt i => KInt i
  end.

(** The index of a variable belongs to the index set of its component. *)
Definition declaredb (model : Model) (v : var) : bool :=
  match v with
  | cap k => mem String.eqb k (model_tech model)
  | ESS_SOC i | ESS_c i | ESS_d i | curt i => mem Z.eqb i (model_t model)
  end.

(** Reading [model.<Var>[index]] inside a rule: a [KeyError] outside the
    index set. *)
Definition Var_get (model : Model) (v : var) : result expr :=
  if declaredb model v then Ok (V v)
  else Raise (LookupInvalid (var_name v) (var_key v)).

(** Objective rule (line 58).  Python evaluates the first [sum] completely
    before the second, and in each product the left operand first. *)
Definition obj_expression (model : Model) : result expr :=
  capital <- mapM (fun i =>
                     cap_i <- Var_get model (cap i) ;;
                     c <- param_get String.eqb KStr "costs" (model_tech model)
                            (model_costs model) i ;;
                     Ok (cap_i * Const c)%E)
                  (model_tech model) ;;
  operation <- mapM (fun t =>
                       d <- Var_get model (ESS_d t) ;;
                       k <- Var_get model (curt t) ;;
                       Ok (d * Const ESS_p_var_cost + k * Const curtailment_cost)%E)
                    (model_t model) ;;
  Ok (pysum capital + pysum operation)%E.

(** Supply/demand match rule (line 63). *)
Definition match_const (model : Model) (i : Z) : result constraint :=
  solar_i <- param_get Z.eqb KInt "solar" (model_t model) (model_solar model) i ;;
  cap_s <- Var_get model (cap "s_cap") ;;
  wind_i <- param_get Z.eqb KInt "wind" (model_t model) (model_wind model) i ;;
  cap_w <- Var_get model (cap "w_cap") ;;
  d <- Var_get model (ESS_d i) ;;
  c <- Var_get model (ESS_c i) ;;
  k <- Var_get model (curt i) ;;
  demand_i <- param_get Z.eqb KInt "demand" (model_t model) (model_demand model) i ;;
  Ok (Const solar_i * cap_s + Const wind_i * cap_w + d - c - k - Const demand_i
      == Const 0)%E.

(** Charge/discharge rate rule (line 68). *)
Definition ESS_charge_disc_const (model : Model) (i : Z) : result constraint :=
  c <- Var_get model (ESS_c i) ;;
  d <- Var_get model (ESS_d i) ;;
  cap_p <- Var_get model (cap "ESS_power_cap") ;;
  Ok (c + d <= cap_p)%E.

(** Maximum state of charge rule (line 73). *)
Definition ESS_max_const (model : Model) (i : Z) : result constraint :=
  soc <- Var_get model (ESS_SOC i) ;;
  cap_e <- Var_get model (cap "ESS_energy_cap") ;;
  Ok (soc <= cap_e)%E.

(** Minimum state of charge rule (line 78). *)
Definition ESS_min_const (model : Model) (i : Z) : result constraint :=
  soc <- Var_get model (ESS_SOC i) ;;
  cap_e <- Var_get model (cap "ESS_energy_cap") ;;
  Ok (soc >= Const ESS_min_level * cap_e)%E.

(** State of charge rule (line 83): the hour before the first one is the
    last member of the set; the hour before any other is [i - 1], whether
    or not the set has it. *)
Definition SOC_const (model : Model) (i : Z) : result constraint :=
  if (i =? Set_first (model_t model))%Z
  then soc <- Var_get model (ESS_SOC i) ;;
       before <- Var_get model (ESS_SOC (Set_last (model_t model))) ;;
       c <- Var_get model (ESS_c i) ;;
       d <- Var_get model (ESS_d i) ;;
       Ok (soc == before + (c * Const ESS_eta_c) - (d / Const ESS_eta_d))%E
  else soc <- Var_get model (ESS_SOC i) ;;
       before <- Var_get model (ESS_SOC (i - 1)) ;;
       c <- Var_get model (ESS_c i) ;;
       d <- Var_get model (ESS_d i) ;;
       Ok (soc == before + (c * Const ESS_eta_c) - (d / Const ESS_eta_d))%E.

(** [Constraint(index, rule = r)]: the rule is called for every member of the
    index set, in order; the first exception aborts the construction. *)
Definition Constraint (index : list Z) (rule : Z -> result constraint)
  : result (list (Z * constraint)) :=
  mapM (fun i => c <- rule i ;; Ok (i, c)) index.

(** A constructed instance: the model data together with the objective and
    the five constraint blocks. *)
Record Instance : Type := {
  inst_model : Model;
  OBJ : expr;
  match_ : list (Z * constraint);
  ESS_charge_disc_rate : list (Z * constraint);
  ESS_max : list (Z * constraint);
  ESS_min : list (Z * constraint);
  SOC_const_ : list (Z * constraint)
}.

(** The literal that initialises [model.costs] (line 40). *)
Definition costs_init : dict string :=
  [ ("s_cap", solar_cap_cost); ("w_cap", wind_cap_cost);
    ("ESS_power_cap", ESS_p_cap_cost); ("ESS_energy_cap", ESS_e_cap_cost) ].

(** The members of [model.tech] (line 34). *)
Definition tech_keys : list string :=
  ["w_cap"; "s_cap"; "ESS_power_cap"; "ESS_energy_cap"].

(** [model.create_instance(data)] with the cost initialiser as a parameter.
    Components are constructed in their order of declaration: sets,
    parameters, variables, the objective, then the constraint blocks.
    [model.t] is constructed from the values the loads stored for it, which
    take the place of the [range(8760)] of its declaration (line 33). *)
Definition create_instance_of (costs0 : dict string) (data : DataPortal)
  : result Instance :=
  let t := Set_construct (data_t data) in
  let tech := tech_keys in
  wind <- Param_construct Z.eqb KInt FromData "wind" t (data_wind data) ;;
  solar <- Param_construct Z.eqb KInt FromData "solar" t (data_solar data) ;;
  demand <- Param_construct Z.eqb KInt FromData "demand" t (data_demand data) ;;
  costs <- Param_construct String.eqb KStr FromInitialize "costs" tech costs0 ;;
  let model := {| model_t := t; model_tech := tech;
                  model_wind := wind; model_solar := solar;
                  model_demand := demand; model_costs := costs;
                  model_cap := NonNegativeReals;
                  model_ESS_SOC := NonNegativeReals;
                  model_ESS_c := NonNegativeReals;
                  model_ESS_d := NonNegativeReals;
                  model_curt := NonNegativeReals |} in
  obj <- obj_expression model ;;
  c_match <- Constraint t (match_const model) ;;
  c_rate <- Constraint t (ESS_charge_disc_const model) ;;
  c_max <- Constraint t (ESS_max_const model) ;;
  c_min <- Constraint t (ESS_min_const model) ;;
  c_soc <- Constraint t (SOC_const model) ;;
  Ok {| inst_model := model; OBJ := obj; match_ := c_match;
        ESS_charge_disc_rate := c_rate; ESS_max := c_max;
        ESS_min := c_min; SOC_const_ := c_soc |}.

(** The script's instance: the cost literal of line 40. *)
Definition create_instance (data : DataPortal) : result Instance :=
  create_instance_of costs_init data.

(** The hours of one year, the length of the index the script declares. *)
#[warnings="-abstract-large-number"] Definition hours_per_year : nat := 8760.

(** ** Feasible and optimal solutions *)

Definition domains_ok (m : Instance) (s : assignment) : Prop :=
  let model := inst_model m in
  Forall (fun k => in_domain (model_cap model) (s (cap k))) (model_tech model)
  /\ Forall (fun i => in_domain (model_ESS_SOC model) (s (ESS_SOC i))) (model_t model)
  /\ Forall (fun i => in_domain (model_ESS_c model) (s (ESS_c i))) (model_t model)
  /\ Forall (fun i => in_domain (model_ESS_d model) (s (ESS_d i))) (model_t model)
  /\ Forall (fun i => in_domain (model_curt model) (s (curt i))) (model_t model).

Definition block_ok (s : assignment) (b : list (Z * constraint)) : Prop :=
  Forall (fun ic => holds s (snd ic)) b.

Definition constraints_ok (m : Instance) (s : assignment) : Prop :=
  block_ok s (match_ m)
  /\ block_ok s (ESS_charge_disc_rate m)
  /\ block_ok s (ESS_max m)
  /\ block_ok s (ESS_min m)
  /\ block_ok s (SOC_const_ m).

Definition feasible (m : Instance) (s : assignment) : Prop :=
  domains_ok m s /\ constraints_ok m s.

Definition objective (m : Instance) (s : assignment) : Q := eval s (OBJ m).

Definition optimal (m : Instance) (s : assignment) : Prop :=
  feasible m s /\ forall s', feasible m s' -> objective m s <= objective m s'.


(** ** The rows of the linear program

    The value of a time series at an hour, 0 where the table has no entry;
    in a constructed instance every hour of the index has one. *)
Definition series (d : dict Z) (t : Z) : Q :=
  match dict_get Z.eqb d t with Some q => q | None => 0 end.

Definition cost_of (d : dict string) (k : string) : Q :=
  match dict_get String.eqb d k with Some q => q | None => 0 end.

(** The hour whose state of charge the rule of hour [t] reads, on the
    ordered set [T]. *)
Definition prev (T : list Z) (t : Z) : Z :=
  if (t =? Set_first T)%Z then Set_last T else (t - 1)%Z.

Definition match_row (data : DataPortal) (i : Z) : constraint :=
  (Const (series (data_solar data) i) * V (cap "s_cap")
   + Const (series (data_wind data) i) * V (cap "w_cap")
   + V (ESS_d i) - V (ESS_c i) - V (curt i) - Const (series (data_demand data) i)
   == Const 0)%E.

Definition rate_row (i : Z) : constraint :=
  (V (ESS_c i) + V (ESS_d i) <= V (cap "ESS_power_cap"))%E.

Definition max_row (i : Z) : constraint :=
  (V (ESS_SOC i) <= V (cap "ESS_energy_cap"))%E.

Definition min_row (i : Z) : constraint :=
  (V (ESS_SOC i) >= Const ESS_min_level * V (cap "ESS_energy_cap"))%E.

Definition soc_row (T : list Z) (i : Z) : constraint :=
  (V (ESS_SOC i)
   == V (ESS_SOC (prev T i))
      + (V (ESS_c i) * Const ESS_eta_c) - (V (ESS_d i) / Const ESS_eta_d))%E.

Definition capital_term (costs0 : dict string) (k : string) : expr :=
  (V (cap k) * Const (cost_of costs0 k))%E.

Definition operation_term (t : Z) : expr :=
  (V (ESS_d t) * Const ESS_p_var_cost + V (curt t) * Const curtailment_cost)%E.

(** [model.<block>[i]]: the constraint a block holds at an index. *)
Fixpoint block_at (b : list (Z * constraint)) (i : Z) : option constraint :=
  match b with
  | [] => None
  | (j, c) :: b' => if (j =? i)%Z then Some c else block_at b' i
  end.

Definition rows (index : list Z) (row : Z -> constraint) : list (Z * constraint) :=
  map (fun i => (i, row i)) index.

(** Finite sums of rationals. *)
Definition Qsum (l : list Q) : Q := fold_right Qplus 0 l.

(** The charge that reaches the store minus the energy drawn from it, at one
    hour. *)
Definition soc_increment (s : assignment) (t : Z) : Q :=
  s (ESS_c t) * ESS_eta_c - s (ESS_d t) / ESS_eta_d.

(** The recursion run from a starting state of charge through the hours
    [ts], in order. *)
Definition soc_unroll (s : assignment) (ts : list Z) (start : Q) : Q :=
  fold_left (fun soc t => soc + soc_increment s t) ts start.

(** The objective in the words of the specification: capital cost of the
    four installed capacities plus, over all hours, the cost of storage
    discharge and the penalty on curtailment. *)
Definition spec_total_cost (cost : string -> Q) (T : list Z) (s : assignment) : Q :=
  (s (cap "w_cap") * cost "w_cap" + s (cap "s_cap") * cost "s_cap"
   + s (cap "ESS_power_cap") * cost "ESS_power_cap"
   + s (cap "ESS_energy_cap") * cost "ESS_energy_cap")
  + Qsum (map (fun t => s (ESS_d t) * ESS_p_var_cost + s (curt t) * curtailment_cost) T).

(** The hours [a], [a + 1], ..., [a + n - 1] in ascending order: the index
    of a file whose rows follow the clock. *)
Definition hours_from (a : Z) (n : nat) : list Z :=
  map (fun k => (a + k)%Z) (range n).

(** What construction establishes: the shape of every component of the
    instance in terms of the inputs. *)
Record Built (costs0 : dict string) (data : DataPortal) (m : Instance)
  : Prop := {
  built_t : model_t (inst_model m) = Set_construct (data_t data);
  built_tech : model_tech (inst_model m) = tech_keys;
  built_wind_param : model_wind (inst_model m) = dict_get Z.eqb (data_wind data);
  built_solar_param : model_solar (inst_model m) = dict_get Z.eqb (data_solar data);
  built_demand_param : model_demand (inst_model m) = dict_get Z.eqb (data_demand data);
  built_costs_param : model_costs (inst_model m) = dict_get String.eqb costs0;
  built_cap : model_cap (inst_model m) = NonNegativeReals;
  built_ESS_SOC : model_ESS_SOC (inst_model m) = NonNegativeReals;
  built_ESS_c : model_ESS_c (inst_model m) = NonNegativeReals;
  built_ESS_d : model_ESS_d (inst_model m) = NonNegativeReals;
  built_curt : model_curt (inst_model m) = NonNegativeReals;
  built_wind : forall i, In i (model_t (inst_model m)) ->
                         dict_get Z.eqb (data_wind data) i <> None;
  built_solar : forall i, In i (model_t (inst_model m)) ->
                          dict_get Z.eqb (data_solar data) i <> None;
  built_demand : forall i, In i (model_t (inst_model m)) ->
                           dict_get Z.eqb (data_demand data) i <> None;
  built_costs : forall k, In k tech_keys -> dict_get String.eqb costs0 k <> None;
  built_prev : forall i, In i (model_t (inst_model m)) ->
                         In (prev (model_t (inst_model m)) i) (model_t (inst_model m));
  built_OBJ : OBJ m = (pysum (map (capital_term costs0) tech_keys)
                       + pysum (map operation_term (model_t (inst_model m))))%E;
  built_match : match_ m = rows (model_t (inst_model m)) (match_row data);
  built_rate : ESS_charge_disc_rate m = rows (model_t (inst_model m)) rate_row;
  built_max : ESS_max m = rows (model_t (inst_model m)) max_row;
  built_min : ESS_min m = rows (model_t (inst_model m)) min_row;
  built_soc : SOC_const_ m
              = rows (model_t (inst_model m)) (soc_row (model_t (inst_model m)))
}.

(** The linear program over the hours [T], written out. *)
Record lp_feasible (T : list Z) (data : DataPortal) (s : assignment) : Prop := {
  lp_cap : forall k, In k tech_keys -> 0 <= s (cap k);
  lp_ESS_SOC : forall t, In t T -> 0 <= s (ESS_SOC t);
  lp_ESS_c : forall t, In t T -> 0 <= s (ESS_c t);
  lp_ESS_d : forall t, In t T -> 0 <= s (ESS_d t);
  lp_curt : forall t, In t T -> 0 <= s (curt t);
  lp_match : forall t, In t T ->
    series (data_solar data) t * s (cap "s_cap")
    + series (data_wind data) t * s (cap "w_cap")
    + s (ESS_d t) - s (ESS_c t) - s (curt t) - series (data_demand data) t == 0;
  lp_rate : forall t, In t T ->
    s (ESS_c t) + s (ESS_d t) <= s (cap "ESS_power_cap");
  lp_max : forall t, In t T -> s (ESS_SOC t) <= s (cap "ESS_energy_cap");
  lp_min : forall t, In t T ->
    ESS_min_level * s (cap "ESS_energy_cap") <= s (ESS_SOC t);
  lp_soc : forall t, In t T ->
    s (ESS_SOC t) == s (ESS_SOC (prev T t)) + s (ESS_c t) * ESS_eta_c
                     - s (ESS_d t) / ESS_eta_d
}.

(** ** Conditions on the inputs *)

Definition keys_within {K : Type} (index : list K) (d : dict K) : Prop :=
  forall k, In k (map fst d) -> In k index.

Definition covered (d : dict Z) (i : Z) : bool :=
  match dict_get Z.eqb d i with Some _ => true | None => false end.

(** Every hour of the index [T] has a value in each of the three series. *)
Definition coversb (T : list Z) (data : DataPortal) : bool :=
  forallb (fun i => covered (data_solar data) i && covered (data_wind data) i
                    && covered (data_demand data) i)
          T.

(** The keys of the three series lie in the time index built from the
    data. *)
Definition data_within (data : DataPortal) : Prop :=
  keys_within (Set_construct (data_t data)) (data_wind data)
  /\ keys_within (Set_construct (data_t data)) (data_solar data)
  /\ keys_within (Set_construct (data_t data)) (data_demand data).

Definition costs_cover (costs0 : dict string) : Prop :=
  forall k, In k tech_keys -> dict_get String.eqb costs0 k <> None.

(** Every hour the state-of-charge rule reads belongs to the index. *)
Definition prev_closedb (T : list Z) : bool :=
  forallb (fun i => mem Z.eqb (prev T i) T) T.

(** The series a rule finds undefined first at hour [i]: the rule reads
    [solar], then [wind], then [demand]. *)
Definition first_undefined (data : DataPortal) (i : Z) : option string :=
  if negb (covered (data_solar data) i) then Some "solar"
  else if negb (covered (data_wind data) i) then Some "wind"
  else if negb (covered (data_demand data) i) then Some "demand"
  else None.

(** The data [data'] have the hours of [data] in the same order, keep its
    wind and solar factors and carry [k] times its demand. *)
Definition demand_scaled (k : Q) (data data' : DataPortal) : Prop :=
  data_t data' = data_t data
  /\ forall t, In t (data_t data) ->
       series (data_solar data') t == series (data_solar data) t
       /\ series (data_wind data') t == series (data_wind data) t
       /\ series (data_demand data') t == k * series (data_demand data) t.

(** ** Quantities derived from a solution *)

(** Renewable power generated at hour [t] with the installed capacities of
    a solution. *)
Definition generation (data : DataPortal) (s : assignment) (t : Z) : Q :=
  series (data_solar data) t * s (cap "s_cap")
  + series (data_wind data) t * s (cap "w_cap").

(** The sum of an hourly quantity over a time index. *)
Definition total (T : list Z) (f : Z -> Q) : Q := Qsum (map f T).

(** A solution with every value multiplied by [k]. *)
Definition scaled (k : Q) (s : assignment) : assignment := fun v => k * s v.

(** At hour [t0], charge [delta] less, discharge what [delta] would have
    given back (0.95 * 0.9 of it) less, and curtail the difference. *)
Definition unchurned (t0 : Z) (delta : Q) (s : assignment) : assignment :=
  fun v =>
    match v with
    | ESS_c i => if (i =? t0)%Z then s (ESS_c i) - delta else s (ESS_c i)
    | ESS_d i => if (i =? t0)%Z then s (ESS_d i) - 0.855 * delta else s (ESS_d i)
    | curt i => if (i =? t0)%Z then s (curt i) + 0.145 * delta else s (curt i)
    | _ => s v
    end.

(** Solar capacity alone, sized for every hour of [T], with the surplus
    curtailed and no storage. *)
Definition solar_only (T : list Z) (data : DataPortal) : assignment :=
  let size :=
    total T (fun t => series (data_demand data) t / series (data_solar data) t) in
  fun v =>
    match v with
    | cap k => if String.eqb k "s_cap" then size else 0
    | curt t => series (data_solar data) t * size - series (data_demand data) t
    | _ => 0
    end.

(** Solar capacity [D / a] and nothing else: what a flat demand [D] needs
    under a constant solar factor [a]. *)
Definition flat_solution (a D : Q) : assignment := fun v =>
  match v with
  | cap k => if String.eqb k "s_cap" then D / a else 0
  | _ => 0
  end.

(** A variable belongs to one of the five [Var] components of the model. *)
Definition declared (model : Model) (v : var) : Prop :=
  match v with
  | cap k => In k (model_tech model)
  | ESS_SOC i | ESS_c i | ESS_d i | curt i => In i (model_t model)
  end.

Definition blocks (m : Instance) : list (list (Z * constraint)) :=
  [match_ m; ESS_charge_disc_rate m; ESS_max m; ESS_min m; SOC_const_ m].

(** ** Sample data and sample solutions *)

(** A table giving the value [f i] to each hour [i] of [T]. *)
Definition tabulate (T : list Z) (f : Z -> Q) : dict Z :=
  map (fun i => (i, f i)) T.

(** A table giving the same value to each of the hours [0 .. n-1]. *)
Definition constant_series (n : nat) (q : Q) : dict Z :=
  map (fun i => (i, q)) (range n).

(** What the loads store for a file with the hours [T] in its [t] column
    and the values of [w], [s] and [d] in the three others. *)
Definition hourly_data (T : list Z) (w s d : Z -> Q) : DataPortal :=
  {| data_t := T;
     data_wind := tabulate T w;
     data_solar := tabulate T s;
     data_demand := tabulate T d |}.

(** A file of [n] rows, hours [0 .. n-1], with constant columns. *)
Definition constant_data (n : nat) (w s d : Q) : DataPortal :=
  {| data_t := range n;
     data_wind := constant_series n w;
     data_solar := constant_series n s;
     data_demand := constant_series n d |}.


(** A four-hour horizon: sun in the first two hours, wind in the last two,
    a flat demand of 10. *)
Definition toy_rows : list csv_row :=
  [ {| row_t := 0; row_wind := 0; row_solar := 1; row_demand := 10 |};
    {| row_t := 1; row_wind := 0; row_solar := 1; row_demand := 10 |};
    {| row_t := 2; row_wind := 1; row_solar := 0; row_demand := 10 |};
    {| row_t := 3; row_wind := 1; row_solar := 0; row_demand := 10 |} ].

Definition toy_data : DataPortal := load toy_rows.

(** The same rows numbered from 1. *)
Definition toy_rows_from_1 : list csv_row :=
  map (fun r => {| row_t := row_t r + 1; row_wind := row_wind r;
                   row_solar := row_solar r; row_demand := row_demand r |})
      toy_rows.

(** The same rows in the order 2, 0, 1, 3. *)
Definition toy_rows_shuffled : list csv_row :=
  [ {| row_t := 2; row_wind := 1; row_solar := 0; row_demand := 10 |};
    {| row_t := 0; row_wind := 0; row_solar := 1; row_demand := 10 |};
    {| row_t := 1; row_wind := 0; row_solar := 1; row_demand := 10 |};
    {| row_t := 3; row_wind := 1; row_solar := 0; row_demand := 10 |} ].

(** Ten units of solar and of wind capacity, no storage, no curtailment. *)
Definition toy_solution : assignment := fun v =>
  match v with
  | cap k => if String.eqb k "s_cap" || String.eqb k "w_cap" then 10 else 0
  | _ => 0
  end.


(** The hours [0 .. n+1] with the last two rows exchanged. *)
Definition swapped_hours (n : nat) : list Z :=
  range n ++ [(Z.of_nat n + 1)%Z; Z.of_nat n].

(** No wind, no sun, and a demand of 0.72 at hour [n + 1] only, on the
    hours of [swapped_hours n]. *)
Definition late_demand_data (n : nat) : DataPortal :=
  hourly_data (swapped_hours n) (fun _ => 0) (fun _ => 0)
              (fun t => if (t =? Z.of_nat n + 1)%Z then 0.72 else 0).

(** A store of capacity 1 that stays full until hour [n + 1], where it
    discharges down to its floor to serve the demand of that hour. *)
Definition late_discharge (n : nat) : assignment := fun v =>
  match v with
  | cap k =>
      if String.eqb k "ESS_power_cap" then 0.72
      else if String.eqb k "ESS_energy_cap" then 1
      else 0
  | ESS_SOC t => if (t =? Z.of_nat n + 1)%Z then 0.2 else 1
  | ESS_d t => if (t =? Z.of_nat n + 1)%Z then 0.72 else 0
  | _ => 0
  end.

(** A cost table without the storage power capacity. *)
Definition costs_no_power : dict string :=
  [ ("s_cap", solar_cap_cost); ("w_cap", wind_cap_cost);
    ("ESS_energy_cap", ESS_e_cap_cost) ].

(** A cost table in which solar capacity costs more. *)
Definition costs_dear_solar : dict string :=
  [ ("s_cap", 900000000); ("w_cap", wind_cap_cost);
    ("ESS_power_cap", ESS_p_cap_cost); ("ESS_energy_cap", ESS_e_cap_cost) ].

(** Nothing is built and nothing runs. *)
Definition zero_solution : assignment := fun _ => 0.

(** Storage charges on even hours and discharges on odd hours, under a sun
    that always shines ([solar = 1]) and a flat demand of 10. *)
Definition cycling_solution : assignment := fun v =>
  match v with
  | cap k =>
      if String.eqb k "s_cap" then 11
      else if String.eqb k "ESS_power_cap" then 1
      else if String.eqb k "ESS_energy_cap" then 2
      else 0
  | ESS_SOC t => if Z.even t then 1.95 else 1
  | ESS_c t => if Z.even t then 1 else 0
  | ESS_d t => if Z.even t then 0 else 0.855
  | curt t => if Z.even t then 0 else 1.855
  end.

(** Storage charges and discharges in the same hour, every hour. *)
Definition churning_solution : assignment := fun v =>
  match v with
  | cap k =>
      if String.eqb k "s_cap" then 10.145
      else if String.eqb k "ESS_power_cap" then 1.855
      else 0
  | ESS_SOC _ => 0
  | ESS_c _ => 1
  | ESS_d _ => 0.855
  | curt _ => 0
  end.

(** Charge and discharge in the same hour with nothing installed but
    storage power; curtailment takes whatever sign balances the hour. *)
Definition unbuilt_churning (data : DataPortal) : assignment := fun v =>
  match v with
  | cap k => if String.eqb k "ESS_power_cap" then 1.855 else 0
  | ESS_SOC _ => 0
  | ESS_c _ => 1
  | ESS_d _ => 0.855
  | curt t => - 0.145 - series (data_demand data) t
  end.

(** Negative charge and discharge that cancel in the store. *)
Definition negative_charging (data : DataPortal) : assignment := fun v =>
  match v with
  | cap _ => 0
  | ESS_SOC _ => 0
  | ESS_c _ => - 1
  | ESS_d _ => - 0.855
  | curt t => 0.145 - series (data_demand data) t
  end.

(** * Proofs *)

(** ** The result monad *)

Lemma bind_Ok_inv {A B : Type} (r : result A) (f : A -> result B) (b : B) :
  bind r f = Ok b -> exists a, r = Ok a /\ f a = Ok b.
Proof.
  destruct r as [a|e]; simpl; intros H; [exists a; auto | discriminate].
Qed.

Tactic Notation "inv_bind" hyp(H) :=
  let a := fresh "x" in
  let Ha := fresh "Hx" in
  apply bind_Ok_inv in H; destruct H as [a [Ha H]].

Tactic Notation "inv_bind" hyp(H) "as" ident(a) ident(Ha) :=
  apply bind_Ok_inv in H; destruct H as [a [Ha H]].

Lemma mapM_Ok_map {A B : Type} (f : A -> result B) (g : A -> B) (l : list A) :
  forall bs,
    (forall a b, In a l -> f a = Ok b -> b = g a) ->
    mapM f l = Ok bs -> bs = map g l.
Proof.
  induction l as [|a l IH]; simpl; intros bs Hg H.
  - now inversion H.
  - inv_bind H. inv_bind H. inversion H; subst.
    f_equal; [apply Hg; auto | apply IH; auto].
Qed.

Lemma mapM_Ok_each {A B : Type} (f : A -> result B) (l : list A) :
  forall bs, mapM f l = Ok bs -> forall a, In a l -> exists b, f a = Ok b.
Proof.
  induction l as [|a l IH]; simpl; intros bs H a' Hin; [contradiction|].
  inv_bind H. inv_bind H.
  destruct Hin as [<-|Hin]; eauto.
Qed.

Lemma mapM_map {A B : Type} (f : A -> result B) (g : A -> B) (l : list A) :
  (forall a, In a l -> f a = Ok (g a)) -> mapM f l = Ok (map g l).
Proof.
  induction l as [|a l IH]; simpl; intros H; [reflexivity|].
  rewrite H by auto. simpl. rewrite IH by auto. reflexivity.
Qed.

Lemma mapM_Raise {A B : Type} (f : A -> result B) (l : list A) :
  (exists a, In a l /\ is_ok (f a) = false) ->
  exists a e, In a l /\ f a = Raise e /\ mapM f l = Raise e.
Proof.
  induction l as [|a l IH]; intros [a' [Hin Hf]]; [destruct Hin|].
  simpl. destruct (f a) as [b|e] eqn:Ha.
  - destruct Hin as [->|Hin]; [rewrite Ha in Hf; discriminate|].
    destruct IH as [a2 [e [Hin2 [Hfa2 Hm]]]]; [eauto|].
    exists a2, e. rewrite Hm. auto.
  - exists a, e. auto.
Qed.

Lemma forallb_false {A : Type} (f : A -> bool) (l : list A) :
  forallb f l = false -> exists x, In x l /\ f x = false.
Proof.
  induction l as [|a l IH]; simpl; [discriminate|].
  destruct (f a) eqn:Ha; simpl; intros H.
  - destruct (IH H) as [x [Hx Hf]]. eauto.
  - eauto.
Qed.

(** ** Ranges and ordered sets *)

Lemma In_range (n : nat) (i : Z) :
  In i (range n) <-> (0 <= i < Z.of_nat n)%Z.
Proof.
  unfold range. rewrite in_map_iff. split.
  - intros [k [<- Hk]]. apply in_seq in Hk. lia.
  - intros H. exists (Z.to_nat i). split; [lia|]. apply in_seq. lia.
Qed.

Lemma range_S (n : nat) : range (S n) = range n ++ [Z.of_nat n].
Proof. unfold range. rewrite seq_S, map_app. reflexivity. Qed.

Lemma length_range (n : nat) : List.length (range n) = n.
Proof. unfold range. now rewrite length_map, length_seq. Qed.

Lemma NoDup_range (n : nat) : NoDup (range n).
Proof.
  unfold range. apply Injective_map_NoDup; [|apply seq_NoDup].
  intros a b. apply Nat2Z.inj.
Qed.

Lemma hours_from_0 (n : nat) : hours_from 0 n = range n.
Proof. unfold hours_from. apply map_id. Qed.

Lemma In_hours_from (a : Z) (n : nat) (i : Z) :
  In i (hours_from a n) <-> (a <= i < a + Z.of_nat n)%Z.
Proof.
  unfold hours_from. rewrite in_map_iff. split.
  - intros [k [<- Hk]]. apply In_range in Hk. lia.
  - intros H. exists (i - a)%Z. split; [lia|]. apply In_range. lia.
Qed.

Lemma hours_from_S (a : Z) (n : nat) :
  hours_from a (S n) = hours_from a n ++ [(a + Z.of_nat n)%Z].
Proof. unfold hours_from. rewrite range_S, map_app. reflexivity. Qed.

Lemma NoDup_hours_from (a : Z) (n : nat) : NoDup (hours_from a n).
Proof.
  unfold hours_from. apply Injective_map_NoDup; [|apply NoDup_range].
  intros x y. lia.
Qed.

Lemma length_hours_from (a : Z) (n : nat) : List.length (hours_from a n) = n.
Proof. unfold hours_from. now rewrite length_map, length_range. Qed.

Lemma Set_first_hours_from (a : Z) (n : nat) : Set_first (hours_from a (S n)) = a.
Proof. unfold Set_first, hours_from. simpl. lia. Qed.

Lemma Set_last_hours_from (a : Z) (n : nat) :
  Set_last (hours_from a (S n)) = (a + Z.of_nat n)%Z.
Proof. unfold Set_last. rewrite hours_from_S. apply last_last. Qed.

Lemma Set_first_range (n : nat) : Set_first (range (S n)) = 0%Z.
Proof. reflexivity. Qed.

Lemma Set_last_range (n : nat) : Set_last (range (S n)) = Z.of_nat n.
Proof. unfold Set_last. rewrite range_S. apply last_last. Qed.

Lemma Set_first_In (T : list Z) : T <> [] -> In (Set_first T) T.
Proof. destruct T; [congruence | intros _; now left]. Qed.

Lemma Set_last_In (T : list Z) : T <> [] -> In (Set_last T) T.
Proof.
  intros H. unfold Set_last.
  destruct (exists_last H) as [front [x ->]].
  rewrite last_last. apply in_or_app. right. now left.
Qed.

Lemma mem_In {K : Type} (eqb : K -> K -> bool) (k : K) (s : list K) :
  (forall a b, eqb a b = true <-> a = b) ->
  mem eqb k s = true <-> In k s.
Proof.
  intros Heq. unfold mem. rewrite existsb_exists. split.
  - intros [x [Hx Hk]]. apply Heq in Hk. now subst.
  - intros H. exists k. split; [assumption | now apply Heq].
Qed.

Lemma mem_Z (k : Z) (s : list Z) : mem Z.eqb k s = true <-> In k s.
Proof. apply mem_In, Z.eqb_eq. Qed.

Lemma mem_Z_false (k : Z) (s : list Z) : mem Z.eqb k s = false <-> ~ In k s.
Proof.
  rewrite <- mem_Z. destruct (mem Z.eqb k s); split; congruence.
Qed.

Lemma Set_add_all_spec (values : list Z) :
  forall s, NoDup s ->
    NoDup (fold_left (fun s x => if mem Z.eqb x s then s else s ++ [x]) values s)
    /\ (forall x,
          In x (fold_left (fun s x => if mem Z.eqb x s then s else s ++ [x]) values s)
          <-> In x s \/ In x values)
    /\ (NoDup (s ++ values) ->
        fold_left (fun s x => if mem Z.eqb x s then s else s ++ [x]) values s
        = s ++ values).
Proof.
  induction values as [|v values IH]; intros s Hs; cbn [fold_left].
  - split; [exact Hs|]. split; [intros x; simpl; tauto|].
    intros _. now rewrite app_nil_r.
  - destruct (mem Z.eqb v s) eqn:Hm.
    + destruct (IH s Hs) as [H1 [H2 H3]]. split; [exact H1|]. split.
      * intros x. rewrite H2. apply mem_Z in Hm. simpl. split; [tauto|].
        intros [H|[<-|H]]; auto.
      * intros Hnd. exfalso. apply mem_Z in Hm.
        apply NoDup_remove_2 in Hnd. apply Hnd, in_or_app. now left.
    + assert (Hs' : NoDup (s ++ [v])).
      { apply mem_Z_false in Hm. apply NoDup_app; [exact Hs | | ].
        - constructor; [intros [] | constructor].
        - intros x Hx [<-|[]]. contradiction. }
      destruct (IH (s ++ [v]) Hs') as [H1 [H2 H3]]. split; [exact H1|]. split.
      * intros x. rewrite H2, in_app_iff. simpl. tauto.
      * intros Hnd. rewrite H3; rewrite <- app_assoc; [reflexivity | exact Hnd].
Qed.

Lemma NoDup_Set_construct (values : list Z) : NoDup (Set_construct values).
Proof. apply (Set_add_all_spec values [] (NoDup_nil Z)). Qed.

Lemma In_Set_construct (values : list Z) (x : Z) :
  In x (Set_construct values) <-> In x values.
Proof.
  destruct (Set_add_all_spec values [] (NoDup_nil Z)) as [_ [H _]].
  unfold Set_construct. rewrite H. simpl. tauto.
Qed.

Lemma Set_construct_NoDup (values : list Z) :
  NoDup values -> Set_construct values = values.
Proof.
  intros H. destruct (Set_add_all_spec values [] (NoDup_nil Z)) as [_ [_ H3]].
  apply H3. exact H.
Qed.

Lemma hours_per_year_Z : Z.of_nat hours_per_year = 8760%Z.
Proof. vm_compute. reflexivity. Qed.

Lemma hours_per_year_S : hours_per_year = S (Nat.pred hours_per_year).
Proof. vm_compute. reflexivity. Qed.

Lemma In_model_hours (i : Z) :
  In i (range hours_per_year) <-> (0 <= i < 8760)%Z.
Proof. rewrite In_range, hours_per_year_Z. reflexivity. Qed.

(** A dict filled from items with distinct keys holds the items, in order. *)
Lemma dict_set_fresh {K : Type} (eqb : K -> K -> bool) (d : dict K) (k : K) (q : Q) :
  (forall a b, eqb a b = true -> a = b) ->
  ~ In k (map fst d) -> dict_set eqb d k q = d ++ [(k, q)].
Proof.
  intros Heq. induction d as [|[k' q'] d IH]; simpl; intros H; [reflexivity|].
  destruct (eqb k' k) eqn:E.
  - exfalso. apply H. left. now apply Heq.
  - rewrite IH; [reflexivity | tauto].
Qed.

Lemma dict_of_NoDup {K : Type} (eqb : K -> K -> bool) (items : list (K * Q)) :
  (forall a b, eqb a b = true -> a = b) ->
  NoDup (map fst items) -> dict_of eqb items = items.
Proof.
  intros Heq. unfold dict_of.
  assert (H : forall d, NoDup (map fst (d ++ items)) ->
            fold_left (fun d kq => dict_set eqb d (fst kq) (snd kq)) items d
            = d ++ items).
  { induction items as [|[k q] items IH]; intros d Hnd; cbn [fold_left].
    - now rewrite app_nil_r.
    - cbn [fst snd]. rewrite dict_set_fresh; [|exact Heq|].
      + rewrite IH; rewrite <- app_assoc; [reflexivity | exact Hnd].
      + rewrite map_app in Hnd. simpl in Hnd. apply NoDup_remove_2 in Hnd.
        intros Hin. apply Hnd, in_or_app. now left. }
  intros Hnd. apply (H [] Hnd).
Qed.

(** ** Lookups *)

Lemma Param_construct_Ok {K : Type} (eqb : K -> K -> bool) (tokey : K -> key)
    (src : source) (name : string) (index : list K) (init : dict K) (p : Param K) :
  Param_construct eqb tokey src name index init = Ok p ->
  Param_validate eqb tokey src name index init = Ok tt /\ p = dict_get eqb init.
Proof.
  unfold Param_construct. intros H. inv_bind H. destruct x.
  inversion H. auto.
Qed.

Lemma param_get_Ok {K : Type} (eqb : K -> K -> bool) (tokey : K -> key)
    (name : string) (index : list K) (p : Param K) (i : K) (q : Q) :
  param_get eqb tokey name index p i = Ok q <-> p i = Some q.
Proof.
  unfold param_get. destruct (p i); [|destruct (mem eqb i index)];
    split; intros H; inversion H; reflexivity.
Qed.

Lemma param_get_Some {K : Type} (eqb : K -> K -> bool) (tokey : K -> key)
    (name : string) (index : list K) (p : Param K) (i : K) (q : Q) :
  p i = Some q -> param_get eqb tokey name index p i = Ok q.
Proof. apply param_get_Ok. Qed.

Lemma Var_get_Ok (model : Model) (v : var) (e : expr) :
  Var_get model v = Ok e -> e = V v /\ declaredb model v = true.
Proof.
  unfold Var_get. destruct (declaredb model v); intros H; inversion H; auto.
Qed.

Lemma Var_get_declared (model : Model) (v : var) :
  declaredb model v = true -> Var_get model v = Ok (V v).
Proof. unfold Var_get. now intros ->. Qed.

Lemma Param_validate_Ok {K : Type} (eqb : K -> K -> bool) (tokey : K -> key)
    (src : source) (name : string) (index : list K) (init : dict K) :
  (forall a b, eqb a b = true <-> a = b) ->
  keys_within index init ->
  Param_validate eqb tokey src name index init = Ok tt.
Proof.
  intros Heq. induction init as [|[k q] init IH]; intros H; simpl; [reflexivity|].
  assert (Hk : mem eqb k index = true).
  { apply mem_In; [assumption|]. apply H. now left. }
  rewrite Hk. apply IH. intros k' Hk'. apply H. now right.
Qed.


Lemma Param_validate_Raise {K : Type} (eqb : K -> K -> bool) (tokey : K -> key)
    (src : source) (name : string) (index : list K) (init : dict K) :
  (forall a b, eqb a b = true <-> a = b) ->
  ~ keys_within index init ->
  exists k, ~ In k index
            /\ Param_validate eqb tokey src name index init
               = Raise (IndexInvalid src name (tokey k)).
Proof.
  intros Heq. induction init as [|[k q] init IH]; intros H; simpl.
  - exfalso. apply H. intros k [].
  - destruct (mem eqb k index) eqn:Hk.
    + apply IH. intros Hin. apply H. intros k' [<-|Hk'].
      * now apply (mem_In eqb k index Heq).
      * now apply Hin.
    + exists k. split; [|reflexivity].
      intros Hin. apply (mem_In eqb k index Heq) in Hin. congruence.
Qed.

Lemma Param_construct_within {K : Type} (eqb : K -> K -> bool) (tokey : K -> key)
    (src : source) (name : string) (index : list K) (init : dict K) :
  (forall a b, eqb a b = true <-> a = b) ->
  keys_within index init ->
  Param_construct eqb tokey src name index init = Ok (dict_get eqb init).
Proof.
  intros Heq H. unfold Param_construct.
  rewrite Param_validate_Ok by assumption. reflexivity.
Qed.

Lemma rows_Constraint (index : list Z) (rule : Z -> result constraint)
    (row : Z -> constraint) (b : list (Z * constraint)) :
  (forall i c, In i index -> rule i = Ok c -> c = row i) ->
  Constraint index rule = Ok b -> b = rows index row.
Proof.
  intros Hrow H. unfold Constraint in H. unfold rows.
  apply mapM_Ok_map with (g := fun i => (i, row i)) in H; [exact H|].
  intros i [j c] Hin Hb. inv_bind Hb. inversion Hb; subst.
  f_equal. apply Hrow; assumption.
Qed.

Lemma Constraint_rows (index : list Z) (rule : Z -> result constraint)
    (row : Z -> constraint) :
  (forall i, In i index -> rule i = Ok (row i)) ->
  Constraint index rule = Ok (rows index row).
Proof.
  intros H. unfold Constraint, rows. apply mapM_map.
  intros i Hi. rewrite H by assumption. reflexivity.
Qed.

Lemma Constraint_each (index : list Z) (rule : Z -> result constraint)
    (b : list (Z * constraint)) :
  Constraint index rule = Ok b ->
  forall i, In i index -> exists c, rule i = Ok c.
Proof.
  intros H i Hi. unfold Constraint in H.
  destruct (mapM_Ok_each _ _ _ H i Hi) as [[j c] Hb].
  inv_bind Hb. eauto.
Qed.

Lemma Constraint_Raise (index : list Z) (rule : Z -> result constraint) :
  (exists i, In i index /\ is_ok (rule i) = false) ->
  exists i e, In i index /\ rule i = Raise e /\ Constraint index rule = Raise e.
Proof.
  intros [i0 [Hi0 Hf0]].
  destruct (mapM_Raise (fun i => c <- rule i ;; Ok (i, c)) index)
    as [i [e [Hi [Hfi Hm]]]].
  { exists i0. split; [exact Hi0|]. destruct (rule i0); [discriminate|reflexivity]. }
  exists i, e. split; [exact Hi|]. split; [|exact Hm].
  destruct (rule i); [discriminate | simpl in Hfi; congruence].
Qed.

(** ** Construction of the instance *)

Lemma declaredb_declared (model : Model) (v : var) :
  declaredb model v = true <-> declared model v.
Proof.
  destruct v; simpl;
    first [apply mem_In, String.eqb_eq | apply mem_In, Z.eqb_eq].
Qed.

Lemma Var_get_In (model : Model) (v : var) :
  declared model v -> Var_get model v = Ok (V v).
Proof. intros H. apply Var_get_declared, declaredb_declared, H. Qed.

Ltac inv_lookups :=
  repeat match goal with
  | H : Var_get _ _ = Ok _ |- _ =>
      apply Var_get_Ok in H; destruct H as [-> H]; apply declaredb_declared in H
  | H : param_get _ _ _ _ _ _ = Ok _ |- _ => apply param_get_Ok in H
  end.

Ltac inv_rule H :=
  repeat (let a := fresh "x" in
          let Ha := fresh "Hx" in
          apply bind_Ok_inv in H; destruct H as [a [Ha H]]);
  inv_lookups.

Lemma In_tech_keys (k : string) :
  In k tech_keys
  <-> k = "w_cap" \/ k = "s_cap" \/ k = "ESS_power_cap" \/ k = "ESS_energy_cap".
Proof. unfold tech_keys. simpl. intuition congruence. Qed.

Ltac in_tech := apply In_tech_keys; tauto.

Lemma prev_In (T : list Z) (i : Z) :
  In i T -> In (prev T i) T <-> (i = Set_first T \/ In (i - 1)%Z T).
Proof.
  intros Hi. unfold prev. destruct (Z.eqb_spec i (Set_first T)) as [E|E].
  - split; [auto|]. intros _. apply Set_last_In. intros ->. destruct Hi.
  - tauto.
Qed.

Lemma prev_closedb_true (T : list Z) :
  prev_closedb T = true <-> forall i, In i T -> In (prev T i) T.
Proof.
  unfold prev_closedb. rewrite forallb_forall.
  split; intros H i Hi; apply mem_Z, H, Hi.
Qed.

Lemma coversb_true (T : list Z) (data : DataPortal) :
  coversb T data = true <->
  forall i, In i T ->
            dict_get Z.eqb (data_solar data) i <> None
            /\ dict_get Z.eqb (data_wind data) i <> None
            /\ dict_get Z.eqb (data_demand data) i <> None.
Proof.
  unfold coversb, covered. rewrite forallb_forall. split; intros H i Hi.
  - specialize (H i Hi).
    destruct (dict_get Z.eqb (data_solar data) i),
             (dict_get Z.eqb (data_wind data) i),
             (dict_get Z.eqb (data_demand data) i); simpl in H;
      try discriminate; repeat split; discriminate.
  - destruct (H i Hi) as [H1 [H2 H3]].
    destruct (dict_get Z.eqb (data_solar data) i); [|congruence].
    destruct (dict_get Z.eqb (data_wind data) i); [|congruence].
    destruct (dict_get Z.eqb (data_demand data) i); [|congruence].
    reflexivity.
Qed.

Section Rules.

Variable data : DataPortal.
Variable model : Model.

Hypothesis Htech : model_tech model = tech_keys.
Hypothesis Hwind : model_wind model = dict_get Z.eqb (data_wind data).
Hypothesis Hsolar : model_solar model = dict_get Z.eqb (data_solar data).
Hypothesis Hdemand : model_demand model = dict_get Z.eqb (data_demand data).

Lemma Var_get_cap (k : string) :
  In k tech_keys -> Var_get model (cap k) = Ok (V (cap k)).
Proof. intros H. apply Var_get_In. simpl. now rewrite Htech. Qed.

Lemma match_const_Ok (i : Z) (c : constraint) :
  match_const model i = Ok c ->
  c = match_row data i
  /\ dict_get Z.eqb (data_solar data) i <> None
  /\ dict_get Z.eqb (data_wind data) i <> None
  /\ dict_get Z.eqb (data_demand data) i <> None.
Proof.
  unfold match_const, match_row, series. intros H. inv_rule H.
  rewrite Hsolar in Hx. rewrite Hwind in Hx1. rewrite Hdemand in Hx6.
  rewrite Hx, Hx1, Hx6. inversion H. repeat split; discriminate.
Qed.

Lemma match_const_defined (i : Z) :
  In i (model_t model) ->
  dict_get Z.eqb (data_solar data) i <> None ->
  dict_get Z.eqb (data_wind data) i <> None ->
  dict_get Z.eqb (data_demand data) i <> None ->
  match_const model i = Ok (match_row data i).
Proof.
  intros Hi H1 H2 H3. unfold match_const, match_row, series, param_get.
  rewrite Hsolar, Hwind, Hdemand.
  destruct (dict_get Z.eqb (data_solar data) i); [|congruence].
  destruct (dict_get Z.eqb (data_wind data) i); [|congruence].
  destruct (dict_get Z.eqb (data_demand data) i); [|congruence].
  rewrite !Var_get_cap by in_tech.
  rewrite (Var_get_In model (ESS_d i)), (Var_get_In model (ESS_c i)),
    (Var_get_In model (curt i)) by exact Hi.
  reflexivity.
Qed.

Lemma match_const_Raise (i : Z) (e : exn) :
  In i (model_t model) ->
  match_const model i = Raise e ->
  exists name, first_undefined data i = Some name
               /\ e = ParamUndefined name (KInt i).
Proof.
  intros Hi. unfold match_const, param_get, first_undefined, covered.
  rewrite Hwind, Hsolar, Hdemand.
  rewrite !Var_get_cap by in_tech.
  rewrite (Var_get_In model (ESS_d i)), (Var_get_In model (ESS_c i)),
    (Var_get_In model (curt i)) by exact Hi.
  apply mem_Z in Hi. rewrite Hi.
  destruct (dict_get Z.eqb (data_solar data) i); simpl;
    [|intros H; inversion H; eauto].
  destruct (dict_get Z.eqb (data_wind data) i); simpl;
    [|intros H; inversion H; eauto].
  destruct (dict_get Z.eqb (data_demand data) i); simpl;
    [|intros H; inversion H; eauto].
  discriminate.
Qed.

Lemma ESS_charge_disc_const_Ok (i : Z) (c : constraint) :
  ESS_charge_disc_const model i = Ok c -> c = rate_row i.
Proof. unfold ESS_charge_disc_const. intros H. inv_rule H. now inversion H. Qed.

Lemma ESS_charge_disc_const_defined (i : Z) :
  In i (model_t model) -> ESS_charge_disc_const model i = Ok (rate_row i).
Proof.
  intros Hi. unfold ESS_charge_disc_const.
  rewrite !Var_get_cap by in_tech.
  rewrite (Var_get_In model (ESS_d i)), (Var_get_In model (ESS_c i)) by exact Hi.
  reflexivity.
Qed.

Lemma ESS_max_const_Ok (i : Z) (c : constraint) :
  ESS_max_const model i = Ok c -> c = max_row i.
Proof. unfold ESS_max_const. intros H. inv_rule H. now inversion H. Qed.

Lemma ESS_max_const_defined (i : Z) :
  In i (model_t model) -> ESS_max_const model i = Ok (max_row i).
Proof.
  intros Hi. unfold ESS_max_const.
  rewrite !Var_get_cap by in_tech.
  rewrite (Var_get_In model (ESS_SOC i)) by exact Hi.
  reflexivity.
Qed.

Lemma ESS_min_const_Ok (i : Z) (c : constraint) :
  ESS_min_const model i = Ok c -> c = min_row i.
Proof. unfold ESS_min_const. intros H. inv_rule H. now inversion H. Qed.

Lemma ESS_min_const_defined (i : Z) :
  In i (model_t model) -> ESS_min_const model i = Ok (min_row i).
Proof.
  intros Hi. unfold ESS_min_const.
  rewrite !Var_get_cap by in_tech.
  rewrite (Var_get_In model (ESS_SOC i)) by exact Hi.
  reflexivity.
Qed.

Lemma SOC_const_Ok (i : Z) (c : constraint) :
  SOC_const model i = Ok c ->
  c = soc_row (model_t model) i /\ In (prev (model_t model) i) (model_t model).
Proof.
  unfold SOC_const, soc_row, prev.
  destruct (i =? Set_first (model_t model))%Z; intros H; inv_rule H;
    inversion H; split; [reflexivity | assumption | reflexivity | assumption].
Qed.

Lemma SOC_const_defined (i : Z) :
  In i (model_t model) -> In (prev (model_t model) i) (model_t model) ->
  SOC_const model i = Ok (soc_row (model_t model) i).
Proof.
  intros Hi Hp. unfold SOC_const, soc_row.
  rewrite (Var_get_In model (ESS_SOC i)), (Var_get_In model (ESS_d i)),
    (Var_get_In model (ESS_c i)) by exact Hi.
  unfold prev in *.
  destruct (i =? Set_first (model_t model))%Z;
    rewrite (Var_get_In model (ESS_SOC _)) by exact Hp; reflexivity.
Qed.


End Rules.

Lemma obj_expression_Ok (costs0 : dict string) (model : Model) (e : expr) :
  model_costs model = dict_get String.eqb costs0 ->
  obj_expression model = Ok e ->
  e = (pysum (map (capital_term costs0) (model_tech model))
       + pysum (map operation_term (model_t model)))%E
  /\ forall k, In k (model_tech model) -> dict_get String.eqb costs0 k <> None.
Proof.
  intros Hc H. unfold obj_expression in H.
  inv_bind H as capital Hcap. inv_bind H as operation Hop.
  inversion H; subst. split.
  - f_equal; f_equal.
    + apply mapM_Ok_map with (g := capital_term costs0) in Hcap; [exact Hcap|].
      intros k b _ Hb. inv_rule Hb.
      inversion Hb. unfold capital_term, cost_of. rewrite <- Hc, Hx0. reflexivity.
    + apply mapM_Ok_map with (g := operation_term) in Hop; [exact Hop|].
      intros t b _ Hb. inv_rule Hb. now inversion Hb.
  - intros k Hk. destruct (mapM_Ok_each _ _ _ Hcap k Hk) as [b Hb].
    inv_rule Hb. rewrite <- Hc, Hx0. discriminate.
Qed.

Lemma obj_expression_defined (costs0 : dict string) (model : Model) :
  model_costs model = dict_get String.eqb costs0 ->
  (forall k, In k (model_tech model) -> dict_get String.eqb costs0 k <> None) ->
  obj_expression model
  = Ok (pysum (map (capital_term costs0) (model_tech model))
        + pysum (map operation_term (model_t model)))%E.
Proof.
  intros Hc Hk. unfold obj_expression.
  rewrite mapM_map with (g := capital_term costs0).
  2:{ intros k Hin. rewrite (Var_get_In model (cap k)) by exact Hin.
      unfold param_get, capital_term, cost_of. rewrite Hc.
      specialize (Hk k Hin).
      destruct (dict_get String.eqb costs0 k); [reflexivity|congruence]. }
  cbn [bind].
  rewrite mapM_map with (g := operation_term); [reflexivity|].
  intros t Hin.
  rewrite (Var_get_In model (ESS_d t)), (Var_get_In model (curt t)) by exact Hin.
  reflexivity.
Qed.

Lemma create_instance_of_Built (costs0 : dict string) (data : DataPortal)
    (m : Instance) :
  create_instance_of costs0 data = Ok m -> Built costs0 data m.
Proof.
  unfold create_instance_of. intros H.
  inv_bind H as wind Hwind. inv_bind H as solar Hsolar.
  inv_bind H as demand Hdemand. inv_bind H as costs Hcosts.
  apply Param_construct_Ok in Hwind, Hsolar, Hdemand, Hcosts.
  destruct Hwind as [_ ->], Hsolar as [_ ->], Hdemand as [_ ->], Hcosts as [_ ->].
  inv_bind H as obj Hobj. inv_bind H as c_match Hmatch.
  inv_bind H as c_rate Hrate. inv_bind H as c_max Hmax.
  inv_bind H as c_min Hmin. inv_bind H as c_soc Hsoc.
  inversion H; subst; clear H.
  apply obj_expression_Ok with (costs0 := costs0) in Hobj; [|reflexivity].
  destruct Hobj as [-> Hcosts]. cbn [model_tech model_t] in Hcosts |- *.
  pose proof (Constraint_each _ _ _ Hmatch) as Hdef.
  pose proof (Constraint_each _ _ _ Hsoc) as Hdefsoc.
  assert (Hrows : forall i, In i (Set_construct (data_t data)) ->
            dict_get Z.eqb (data_solar data) i <> None
            /\ dict_get Z.eqb (data_wind data) i <> None
            /\ dict_get Z.eqb (data_demand data) i <> None).
  { intros i Hi. destruct (Hdef i Hi) as [c Hc].
    apply match_const_Ok with (data := data) in Hc; try reflexivity. tauto. }
  constructor; cbn [inst_model OBJ match_ ESS_charge_disc_rate ESS_max ESS_min
                    SOC_const_ model_t model_tech model_wind model_solar
                    model_demand model_costs model_cap model_ESS_SOC model_ESS_c
                    model_ESS_d model_curt];
    try reflexivity; try (intros i Hi; apply Hrows; exact Hi).
  - exact Hcosts.
  - intros i Hi. destruct (Hdefsoc i Hi) as [c Hc].
    apply SOC_const_Ok in Hc. exact (proj2 Hc).
  - apply rows_Constraint with (row := match_row data) in Hmatch; [exact Hmatch|].
    intros i c _ Hc. apply match_const_Ok with (data := data) in Hc; try reflexivity.
    tauto.
  - apply rows_Constraint with (row := rate_row) in Hrate; [exact Hrate|].
    intros i c _ Hc. now apply ESS_charge_disc_const_Ok in Hc.
  - apply rows_Constraint with (row := max_row) in Hmax; [exact Hmax|].
    intros i c _ Hc. now apply ESS_max_const_Ok in Hc.
  - apply rows_Constraint with (row := min_row) in Hmin; [exact Hmin|].
    intros i c _ Hc. now apply ESS_min_const_Ok in Hc.
  - apply rows_Constraint with (row := soc_row (Set_construct (data_t data))) in Hsoc;
      [exact Hsoc|].
    intros i c Hi Hc. apply SOC_const_Ok in Hc. exact (proj1 Hc).
Qed.

(** ** When construction succeeds and when it raises *)

Ltac params_within :=
  rewrite !Param_construct_within
    by (assumption || apply Z.eqb_eq || apply String.eqb_eq);
  repeat (simpl bind at 1; cbv beta).

Lemma create_instance_of_complete (costs0 : dict string) (data : DataPortal) :
  data_within data -> keys_within tech_keys costs0 -> costs_cover costs0 ->
  coversb (Set_construct (data_t data)) data = true ->
  prev_closedb (Set_construct (data_t data)) = true ->
  exists m, create_instance_of costs0 data = Ok m.
Proof.
  intros [Hw [Hs Hd]] Hk Hc Hcov Hprev.
  rewrite coversb_true in Hcov. rewrite prev_closedb_true in Hprev.
  unfold create_instance_of. params_within.
  rewrite obj_expression_defined with (costs0 := costs0); [|reflexivity|exact Hc].
  simpl bind at 1. cbv beta.
  rewrite Constraint_rows with (row := match_row data).
  2:{ intros i Hi. destruct (Hcov i Hi) as [H1 [H2 H3]].
      apply match_const_defined; auto. }
  rewrite Constraint_rows with (row := rate_row)
    by (intros i Hi; apply ESS_charge_disc_const_defined; auto).
  rewrite Constraint_rows with (row := max_row)
    by (intros i Hi; apply ESS_max_const_defined; auto).
  rewrite Constraint_rows with (row := min_row)
    by (intros i Hi; apply ESS_min_const_defined; auto).
  rewrite Constraint_rows with (row := soc_row (Set_construct (data_t data))).
  2:{ intros i Hi. apply SOC_const_defined; [exact Hi|]. apply Hprev, Hi. }
  cbn [bind]. eexists. reflexivity.
Qed.

Lemma create_instance_of_undefined (costs0 : dict string) (data : DataPortal) :
  data_within data -> keys_within tech_keys costs0 -> costs_cover costs0 ->
  coversb (Set_construct (data_t data)) data = false ->
  exists i name,
    In i (Set_construct (data_t data)) /\ first_undefined data i = Some name
    /\ create_instance_of costs0 data = Raise (ParamUndefined name (KInt i)).
Proof.
  intros [Hw [Hs Hd]] Hk Hc Hcov.
  unfold create_instance_of. params_within.
  rewrite obj_expression_defined with (costs0 := costs0); [|reflexivity|exact Hc].
  simpl bind at 1. cbv beta.
  match goal with
  | |- context [Constraint _ (match_const ?M)] => set (model := M)
  end.
  destruct (Constraint_Raise (Set_construct (data_t data)) (match_const model))
    as [i [e [Hi [Hfi Hm]]]].
  { destruct (forallb (fun i => is_ok (match_const model i))
                (Set_construct (data_t data))) eqn:Hall.
    - exfalso. rewrite forallb_forall in Hall.
      assert (Htrue : coversb (Set_construct (data_t data)) data = true);
        [|congruence].
      apply coversb_true. intros i Hi. specialize (Hall i Hi).
      destruct (match_const model i) as [c|e] eqn:Hc'; [|discriminate].
      apply match_const_Ok with (data := data) in Hc'; try reflexivity. tauto.
    - apply forallb_false in Hall. exact Hall. }
  apply match_const_Raise with (data := data) in Hfi; try reflexivity;
    [|exact Hi].
  destruct Hfi as [name [Hname ->]].
  exists i, name. repeat split; try assumption.
  rewrite Hm. reflexivity.
Qed.


Lemma create_instance_of_cost_undefined (costs0 : dict string) (data : DataPortal) :
  data_within data -> keys_within tech_keys costs0 -> ~ costs_cover costs0 ->
  exists k,
    In k tech_keys /\ dict_get String.eqb costs0 k = None
    /\ create_instance_of costs0 data = Raise (ParamUndefined "costs" (KStr k)).
Proof.
  intros [Hw [Hs Hd]] Hk Hc.
  unfold create_instance_of. params_within.
  unfold obj_expression. cbn [model_tech model_costs].
  match goal with
  | |- context [mapM ?F tech_keys] =>
      destruct (mapM_Raise F tech_keys) as [k [e [Hin [Hf Hm]]]]
  end.
  { cbn [model_tech model_costs].
    destruct (forallb (fun k => match dict_get String.eqb costs0 k with
                                | Some _ => true | None => false end) tech_keys)
      eqn:Hall.
    - exfalso. apply Hc. intros k Hin. rewrite forallb_forall in Hall.
      specialize (Hall k Hin). destruct (dict_get String.eqb costs0 k);
        [discriminate | discriminate].
    - apply forallb_false in Hall. destruct Hall as [k [Hin Hnone]].
      exists k. split; [exact Hin|].
      rewrite Var_get_In by exact Hin. unfold param_get.
      destruct (dict_get String.eqb costs0 k); [discriminate|].
      destruct (mem String.eqb k tech_keys); reflexivity. }
  cbn [model_tech model_costs] in Hin, Hf, Hm |- *.
  rewrite Var_get_In in Hf by exact Hin.
  unfold param_get in Hf. cbn [bind] in Hf.
  destruct (dict_get String.eqb costs0 k) eqn:Hget; [discriminate|].
  assert (Hmem : mem String.eqb k tech_keys = true).
  { apply mem_In; [apply String.eqb_eq | exact Hin]. }
  rewrite Hmem in Hf. inversion Hf; subst e.
  exists k. repeat split; try assumption.
  rewrite Hm. reflexivity.
Qed.

Lemma create_instance_of_index_invalid (costs0 : dict string) (data : DataPortal) :
  data_within data -> ~ keys_within tech_keys costs0 ->
  exists k,
    ~ In k tech_keys
    /\ create_instance_of costs0 data = Raise (IndexInvalid FromInitialize "costs" (KStr k)).
Proof.
  intros [Hw [Hs Hd]] Hk.
  unfold create_instance_of.
  rewrite !Param_construct_within by (assumption || apply Z.eqb_eq).
  repeat (simpl bind at 1; cbv beta).
  destruct (Param_validate_Raise String.eqb KStr FromInitialize "costs" tech_keys costs0
              String.eqb_eq Hk) as [k [Hnin Hv]].
  exists k. split; [exact Hnin|].
  unfold Param_construct. rewrite Hv. reflexivity.
Qed.


Lemma exn_class_known (e : exn) :
  exn_class e = "RuntimeError" \/ exn_class e = "KeyError"
  \/ exn_class e = "ValueError".
Proof. destruct e as [[|] ? ?|? ?|? ?]; simpl; auto. Qed.

(** ** Loaded files *)






Lemma costs_init_within : keys_within tech_keys costs_init.
Proof. intros k Hk. simpl in Hk. unfold tech_keys. simpl. tauto. Qed.

Lemma costs_init_cover : costs_cover costs_init.
Proof.
  intros k Hk. apply In_tech_keys in Hk.
  destruct Hk as [->|[->|[->| ->]]]; discriminate.
Qed.

(** ** Tabulated series *)

Lemma dict_get_tabulate_in (T : list Z) (f : Z -> Q) (i : Z) :
  In i T -> dict_get Z.eqb (tabulate T f) i = Some (f i).
Proof.
  unfold tabulate. induction T as [|j l IH]; simpl; intros H; [destruct H|].
  destruct (Z.eqb_spec j i) as [->|Hne]; [reflexivity|].
  destruct H; [contradiction | auto].
Qed.

Lemma dict_get_tabulate_out (T : list Z) (f : Z -> Q) (i : Z) :
  ~ In i T -> dict_get Z.eqb (tabulate T f) i = None.
Proof.
  unfold tabulate. induction T as [|j l IH]; simpl; intros H; [reflexivity|].
  destruct (Z.eqb_spec j i); [exfalso; auto|]. apply IH. tauto.
Qed.

Lemma series_tabulate (T : list Z) (f : Z -> Q) (i : Z) :
  In i T -> series (tabulate T f) i = f i.
Proof. intros H. unfold series. now rewrite dict_get_tabulate_in. Qed.

Lemma series_constant (n : nat) (q : Q) (i : Z) :
  In i (range n) -> series (constant_series n q) i = q.
Proof. intros H. apply (series_tabulate (range n) (fun _ => q) i H). Qed.

Lemma dict_get_constant_in (n : nat) (q : Q) (i : Z) :
  In i (range n) -> dict_get Z.eqb (constant_series n q) i = Some q.
Proof. apply (dict_get_tabulate_in (range n) (fun _ => q)). Qed.

Lemma keys_tabulate (T : list Z) (f : Z -> Q) : map fst (tabulate T f) = T.
Proof. unfold tabulate. rewrite map_map. apply map_id. Qed.


Lemma constant_data_hourly (n : nat) (w s d : Q) :
  constant_data n w s d
  = hourly_data (range n) (fun _ => w) (fun _ => s) (fun _ => d).
Proof. reflexivity. Qed.

Lemma hourly_data_within (T : list Z) (w s d : Z -> Q) :
  data_within (hourly_data T w s d).
Proof.
  unfold data_within, hourly_data, keys_within.
  cbn [data_t data_wind data_solar data_demand].
  repeat split; intros k Hk; rewrite keys_tabulate in Hk;
    apply In_Set_construct; exact Hk.
Qed.

Lemma hourly_data_covers (T : list Z) (w s d : Z -> Q) :
  coversb (Set_construct (data_t (hourly_data T w s d))) (hourly_data T w s d) = true.
Proof.
  apply coversb_true. intros i Hi. rewrite In_Set_construct in Hi.
  unfold hourly_data in *. cbn [data_t data_wind data_solar data_demand] in *.
  rewrite !dict_get_tabulate_in by exact Hi. repeat split; discriminate.
Qed.

Lemma constant_data_within (n : nat) (w s d : Q) :
  data_within (constant_data n w s d).
Proof. rewrite constant_data_hourly. apply hourly_data_within. Qed.

(** ** Indices in clock order *)

Lemma prev_hours_from (a : Z) (n : nat) (t : Z) :
  prev (hours_from a (S n)) t
  = if (t =? a)%Z then (a + Z.of_nat n)%Z else (t - 1)%Z.
Proof. unfold prev. now rewrite Set_first_hours_from, Set_last_hours_from. Qed.

Lemma prev_range (n : nat) (t : Z) :
  prev (range (S n)) t = if (t =? 0)%Z then Z.of_nat n else (t - 1)%Z.
Proof. unfold prev. now rewrite Set_first_range, Set_last_range. Qed.

Lemma prev_closed_hours_from (a : Z) (n : nat) (t : Z) :
  In t (hours_from a n) -> In (prev (hours_from a n) t) (hours_from a n).
Proof.
  destruct n as [|k]; [intros []|].
  rewrite prev_hours_from, !In_hours_from.
  destruct (Z.eqb_spec t a); lia.
Qed.

Lemma prev_closed_range (n : nat) (t : Z) :
  In t (range n) -> In (prev (range n) t) (range n).
Proof. rewrite <- hours_from_0. apply prev_closed_hours_from. Qed.

Lemma prev_mod (n : nat) (t : Z) :
  In t (range n) -> prev (range n) t = ((t - 1 + Z.of_nat n) mod Z.of_nat n)%Z.
Proof.
  destruct n as [|k]; [intros []|].
  rewrite In_range, prev_range. intros H. destruct (Z.eqb_spec t 0) as [->|Hne].
  - rewrite Z.mod_small; lia.
  - replace (t - 1 + Z.of_nat (S k))%Z with (t - 1 + 1 * Z.of_nat (S k))%Z by lia.
    rewrite Z.mod_add by lia. rewrite Z.mod_small; lia.
Qed.

Lemma pred_hours_Z : Z.of_nat (Nat.pred hours_per_year) = 8759%Z.
Proof. vm_compute. reflexivity. Qed.


Lemma prev_hours (t : Z) :
  prev (range hours_per_year) t = if (t =? 0)%Z then 8759%Z else (t - 1)%Z.
Proof. rewrite hours_per_year_S, prev_range, pred_hours_Z. reflexivity. Qed.

Lemma create_instance_of_hours_from (costs0 : dict string) (a : Z) (n : nat)
    (w s d : Z -> Q) :
  keys_within tech_keys costs0 -> costs_cover costs0 ->
  exists m, create_instance_of costs0 (hourly_data (hours_from a n) w s d) = Ok m.
Proof.
  intros Hk Hc. apply create_instance_of_complete; try assumption.
  - apply hourly_data_within.
  - apply hourly_data_covers.
  - cbn [hourly_data data_t].
    rewrite (Set_construct_NoDup _ (NoDup_hours_from a n)).
    apply prev_closedb_true. intros i. apply prev_closed_hours_from.
Qed.

Lemma create_instance_of_constant (costs0 : dict string) (n : nat) (w s d : Q) :
  keys_within tech_keys costs0 -> costs_cover costs0 ->
  exists m, create_instance_of costs0 (constant_data n w s d) = Ok m.
Proof.
  intros Hk Hc. rewrite constant_data_hourly, <- hours_from_0.
  now apply create_instance_of_hours_from.
Qed.

Lemma create_instance_constant (n : nat) (w s d : Q) :
  exists m, create_instance (constant_data n w s d) = Ok m.
Proof.
  apply create_instance_of_constant;
    [exact costs_init_within | exact costs_init_cover].
Qed.

Lemma model_t_constant (costs0 : dict string) (n : nat) (w s d : Q) (m : Instance) :
  Built costs0 (constant_data n w s d) m -> model_t (inst_model m) = range n.
Proof.
  intros B. rewrite (built_t _ _ _ B). cbn [constant_data data_t].
  apply Set_construct_NoDup, NoDup_range.
Qed.

(** ** Feasible solutions in plain arithmetic *)

Lemma block_ok_rows (s : assignment) (index : list Z) (row : Z -> constraint) :
  block_ok s (rows index row) <-> forall i, In i index -> holds s (row i).
Proof.
  unfold block_ok, rows. rewrite Forall_map, Forall_forall. reflexivity.
Qed.

Lemma block_at_rows (index : list Z) (row : Z -> constraint) (i : Z) :
  In i index -> block_at (rows index row) i = Some (row i).
Proof.
  induction index as [|j l IH]; simpl; intros H; [destruct H|].
  destruct (Z.eqb_spec j i) as [->|Hne]; [reflexivity|].
  destruct H; [contradiction | auto].
Qed.

Lemma constraints_ok_Built (costs0 : dict string) (data : DataPortal)
    (m : Instance) (s : assignment) :
  Built costs0 data m ->
  constraints_ok m s <->
  (forall t, In t (model_t (inst_model m)) -> holds s (match_row data t))
  /\ (forall t, In t (model_t (inst_model m)) -> holds s (rate_row t))
  /\ (forall t, In t (model_t (inst_model m)) -> holds s (max_row t))
  /\ (forall t, In t (model_t (inst_model m)) -> holds s (min_row t))
  /\ (forall t, In t (model_t (inst_model m)) ->
        holds s (soc_row (model_t (inst_model m)) t)).
Proof.
  intros B. unfold constraints_ok.
  rewrite (built_match _ _ _ B), (built_rate _ _ _ B), (built_max _ _ _ B),
    (built_min _ _ _ B), (built_soc _ _ _ B).
  rewrite !block_ok_rows. reflexivity.
Qed.

Lemma domains_ok_Built (costs0 : dict string) (data : DataPortal)
    (m : Instance) (s : assignment) :
  Built costs0 data m ->
  domains_ok m s <->
  (forall k, In k tech_keys -> 0 <= s (cap k))
  /\ (forall t, In t (model_t (inst_model m)) -> 0 <= s (ESS_SOC t))
  /\ (forall t, In t (model_t (inst_model m)) -> 0 <= s (ESS_c t))
  /\ (forall t, In t (model_t (inst_model m)) -> 0 <= s (ESS_d t))
  /\ (forall t, In t (model_t (inst_model m)) -> 0 <= s (curt t)).
Proof.
  intros B. unfold domains_ok. cbv zeta.
  rewrite (built_tech _ _ _ B), (built_cap _ _ _ B),
    (built_ESS_SOC _ _ _ B), (built_ESS_c _ _ _ B), (built_ESS_d _ _ _ B),
    (built_curt _ _ _ B).
  rewrite !Forall_forall. reflexivity.
Qed.

Lemma feasible_lp (costs0 : dict string) (data : DataPortal)
    (m : Instance) (s : assignment) :
  Built costs0 data m ->
  feasible m s <-> lp_feasible (model_t (inst_model m)) data s.
Proof.
  intros B. unfold feasible.
  rewrite (domains_ok_Built _ _ _ s B), (constraints_ok_Built _ _ _ s B).
  split.
  - intros [[H1 [H2 [H3 [H4 H5]]]] [H6 [H7 [H8 [H9 H10]]]]].
    constructor; auto.
  - intros L. destruct L. repeat split; auto.
Qed.

Lemma create_instance_costs_init (data : DataPortal) :
  create_instance data = create_instance_of costs_init data.
Proof. reflexivity. Qed.

Lemma create_instance_Built (data : DataPortal) (m : Instance) :
  create_instance data = Ok m -> Built costs_init data m.
Proof. apply create_instance_of_Built. Qed.

Lemma feasible_constant (costs0 : dict string) (n : nat) (w a D : Q)
    (m : Instance) (s : assignment) :
  Built costs0 (constant_data n w a D) m ->
  feasible m s <-> lp_feasible (range n) (constant_data n w a D) s.
Proof.
  intros B. rewrite (feasible_lp _ _ _ s B), (model_t_constant _ _ _ _ _ _ B).
  reflexivity.
Qed.

Lemma model_hours (w a D : Q) (m : Instance) (t : Z) :
  create_instance (constant_data hours_per_year w a D) = Ok m ->
  In t (model_t (inst_model m)) <-> (0 <= t < 8760)%Z.
Proof.
  intros H. apply create_instance_Built in H.
  rewrite (model_t_constant _ _ _ _ _ _ H). apply In_model_hours.
Qed.

Lemma dict_get_Some_series (d : dict Z) (i : Z) :
  dict_get Z.eqb d i <> None -> dict_get Z.eqb d i = Some (series d i).
Proof. unfold series. destruct (dict_get Z.eqb d i); congruence. Qed.

(** ** Sample solutions are feasible *)

Lemma Qdiv_eta_d (q : Q) : q / ESS_eta_d == q * (10 # 9).
Proof. unfold ESS_eta_d. field. Qed.

Ltac Qconst :=
  first [ reflexivity
        | let H := fresh in unfold Qle, Qlt; simpl; intro H; discriminate H ].

Lemma zero_solution_lp (n : nat) (w s : Q) :
  lp_feasible (range n) (constant_data n w s 0) zero_solution.
Proof.
  constructor; unfold zero_solution; intros t Ht.
  - apply Qle_refl.
  - apply Qle_refl.
  - apply Qle_refl.
  - apply Qle_refl.
  - apply Qle_refl.
  - simpl. rewrite !series_constant by assumption. ring.
  - lra.
  - apply Qle_refl.
  - lra.
  - rewrite Qdiv_eta_d. ring.
Qed.

Lemma cycling_solution_lp :
  lp_feasible (range hours_per_year) (constant_data hours_per_year 0 1 10)
    cycling_solution.
Proof.
  constructor; intros t Ht.
  - unfold tech_keys in Ht. simpl in Ht.
    destruct Ht as [<-|[<-|[<-|[<-|[]]]]]; simpl; discriminate.
  - simpl. destruct (Z.even t); discriminate.
  - simpl. destruct (Z.even t); discriminate.
  - simpl. destruct (Z.even t); discriminate.
  - simpl. destruct (Z.even t); discriminate.
  - cbn [constant_data data_solar data_wind data_demand].
    rewrite !series_constant by assumption.
    simpl. destruct (Z.even t); reflexivity.
  - simpl. destruct (Z.even t); discriminate.
  - simpl. destruct (Z.even t); discriminate.
  - simpl. destruct (Z.even t); discriminate.
  - assert (Hp : Z.even (prev (range hours_per_year) t) = negb (Z.even t)).
    { rewrite prev_hours. destruct (Z.eqb_spec t 0) as [->|Hne].
      - reflexivity.
      - replace (t - 1)%Z with (Z.pred t) by lia. rewrite Z.even_pred.
        rewrite <- Z.negb_even. reflexivity. }
    rewrite Qdiv_eta_d. cbn [cycling_solution]. rewrite Hp.
    destruct (Z.even t); reflexivity.
Qed.

Lemma churning_solution_lp (n : nat) :
  lp_feasible (range n) (constant_data n 0 1 10) churning_solution.
Proof.
  constructor; intros t Ht; try (cbn [churning_solution]; Qconst).
  - unfold tech_keys in Ht. simpl in Ht.
    destruct Ht as [<-|[<-|[<-|[<-|[]]]]]; simpl; discriminate.
  - cbn [constant_data data_solar data_wind data_demand].
    rewrite !series_constant by assumption. reflexivity.
Qed.

Lemma sample_cycling :
  exists m, create_instance (constant_data hours_per_year 0 1 10) = Ok m
            /\ feasible m cycling_solution.
Proof.
  destruct (create_instance_constant hours_per_year 0 1 10) as [m E]. exists m.
  split; [exact E|].
  apply (feasible_constant _ _ _ _ _ _ _ (create_instance_Built _ _ E)).
  exact cycling_solution_lp.
Qed.

Lemma sample_churning :
  exists m, create_instance (constant_data hours_per_year 0 1 10) = Ok m
            /\ feasible m churning_solution.
Proof.
  destruct (create_instance_constant hours_per_year 0 1 10) as [m E]. exists m.
  split; [exact E|].
  apply (feasible_constant _ _ _ _ _ _ _ (create_instance_Built _ _ E)).
  apply churning_solution_lp.
Qed.

(** ** Sums over the hours *)

Lemma Qsum_app (l1 l2 : list Q) : Qsum (l1 ++ l2) == Qsum l1 + Qsum l2.
Proof.
  induction l1 as [|q l1 IH]; simpl.
  - ring.
  - rewrite IH. ring.
Qed.

Lemma Qsum_le {A : Type} (f g : A -> Q) (l : list A) :
  (forall x, In x l -> f x <= g x) -> Qsum (map f l) <= Qsum (map g l).
Proof.
  induction l as [|a l IH]; intros H; simpl.
  - apply Qle_refl.
  - apply Qplus_le_compat; [apply H; now left | apply IH; intros; apply H; now right].
Qed.

Lemma Qsum_nonneg {A : Type} (f : A -> Q) (l : list A) :
  (forall x, In x l -> 0 <= f x) -> 0 <= Qsum (map f l).
Proof.
  induction l as [|a l IH]; intros H; simpl.
  - apply Qle_refl.
  - assert (H1 : 0 <= f a) by (apply H; now left).
    assert (H2 : 0 <= Qsum (map f l)) by (apply IH; intros; apply H; now right).
    lra.
Qed.

Lemma Qsum_zero {A : Type} (f : A -> Q) (l : list A) :
  (forall x, In x l -> f x == 0) -> Qsum (map f l) == 0.
Proof.
  induction l as [|a l IH]; intros H; simpl.
  - reflexivity.
  - rewrite (H a) by now left. rewrite IH by (intros; apply H; now right). ring.
Qed.

Lemma Qsum_ext {A : Type} (f g : A -> Q) (l : list A) :
  (forall x, In x l -> f x == g x) -> Qsum (map f l) == Qsum (map g l).
Proof.
  induction l as [|a l IH]; intros H; simpl; [reflexivity|].
  rewrite (H a) by now left. rewrite IH by (intros; apply H; now right).
  reflexivity.
Qed.

Lemma Qsum_plus {A : Type} (f g : A -> Q) (l : list A) :
  Qsum (map (fun x => f x + g x) l) == Qsum (map f l) + Qsum (map g l).
Proof.
  induction l as [|a l IH]; simpl; [ring|]. rewrite IH. ring.
Qed.

Lemma Qsum_scale {A : Type} (k : Q) (f : A -> Q) (l : list A) :
  Qsum (map (fun x => k * f x) l) == k * Qsum (map f l).
Proof.
  induction l as [|a l IH]; simpl; [ring|]. rewrite IH. ring.
Qed.

Lemma Qsum_nonneg_zero {A : Type} (f : A -> Q) (l : list A) :
  (forall x, In x l -> 0 <= f x) -> Qsum (map f l) == 0 ->
  forall x, In x l -> f x == 0.
Proof.
  induction l as [|a l IH]; intros Hpos Hsum x Hx; [destruct Hx|].
  simpl in Hsum.
  assert (Ha : 0 <= f a) by (apply Hpos; now left).
  assert (Hl : 0 <= Qsum (map f l)).
  { apply Qsum_nonneg. intros y Hy. apply Hpos. now right. }
  destruct Hx as [<-|Hx].
  - lra.
  - apply IH; [intros y Hy; apply Hpos; now right | lra | exact Hx].
Qed.

Lemma Qsum_pos {A : Type} (f : A -> Q) (l : list A) (a : A) :
  (forall x, In x l -> 0 <= f x) -> In a l -> 0 < f a -> 0 < Qsum (map f l).
Proof.
  induction l as [|b l IH]; intros Hpos Ha Hfa; [destruct Ha|].
  simpl.
  assert (Hb : 0 <= f b) by (apply Hpos; now left).
  assert (Hl : 0 <= Qsum (map f l)).
  { apply Qsum_nonneg. intros y Hy. apply Hpos. now right. }
  destruct Ha as [->|Ha].
  - lra.
  - assert (0 < Qsum (map f l)); [|lra].
    apply IH; [intros y Hy; apply Hpos; now right | exact Ha | exact Hfa].
Qed.

Lemma Qsum_ge_term {A : Type} (f : A -> Q) (l : list A) (a : A) :
  (forall x, In x l -> 0 <= f x) -> In a l -> f a <= Qsum (map f l).
Proof.
  induction l as [|b l IH]; intros Hpos Ha; [destruct Ha|].
  simpl.
  assert (Hb : 0 <= f b) by (apply Hpos; now left).
  assert (Hl : 0 <= Qsum (map f l)).
  { apply Qsum_nonneg. intros y Hy. apply Hpos. now right. }
  destruct Ha as [->|Ha].
  - lra.
  - assert (f a <= Qsum (map f l)); [|lra].
    apply IH; [intros y Hy; apply Hpos; now right | exact Ha].
Qed.

Lemma Qsum_same (f g : Z -> Q) (l : list Z) (t0 : Z) :
  ~ In t0 l -> (forall t, t <> t0 -> g t == f t) ->
  Qsum (map g l) == Qsum (map f l).
Proof.
  intros Hout Heq. apply Qsum_ext. intros t Ht. apply Heq.
  intros ->. contradiction.
Qed.

Lemma Qsum_update (f g : Z -> Q) (l : list Z) (t0 : Z) (e : Q) :
  NoDup l -> In t0 l ->
  (forall t, t <> t0 -> g t == f t) -> g t0 == f t0 + e ->
  Qsum (map g l) == Qsum (map f l) + e.
Proof.
  intros Hnd. induction Hnd as [|a l Ha Hnd IH]; intros Hin Heq H0;
    [destruct Hin|].
  simpl. destruct (Z.eq_dec a t0) as [->|Hne].
  - rewrite H0, (Qsum_same f g l t0 Ha Heq). ring.
  - destruct Hin as [Hin|Hin]; [contradiction|].
    rewrite (Heq a Hne), (IH Hin Heq H0). ring.
Qed.

Lemma Qsum_const {A : Type} (x : Q) (l : list A) :
  Qsum (map (fun _ => x) l) == inject_Z (Z.of_nat (List.length l)) * x.
Proof.
  induction l as [|a l IH]; [simpl; ring|].
  cbn [map Qsum fold_right List.length]. fold (Qsum (map (fun _ : A => x) l)).
  rewrite IH, Nat2Z.inj_succ, <- Z.add_1_r, inject_Z_plus. simpl (inject_Z 1). ring.
Qed.

Lemma Qsum_const_le {A : Type} (x y : Q) (l : list A) :
  l <> [] ->
  Qsum (map (fun _ => x) l) <= Qsum (map (fun _ => y) l) -> x <= y.
Proof.
  intros Hne H. rewrite !Qsum_const in H.
  assert (HL : 0 < inject_Z (Z.of_nat (List.length l))).
  { destruct l; [congruence|]. rewrite <- (Zlt_Qlt 0). simpl List.length. lia. }
  apply Qmult_le_l in H; assumption.
Qed.

Lemma Qmult_le_l_nonneg (x y k : Q) : x <= y -> 0 <= k -> k * x <= k * y.
Proof.
  intros H Hk. rewrite !(Qmult_comm k). now apply Qmult_le_compat_r.
Qed.

(** ** The objective in plain arithmetic *)

Lemma eval_fold_Add (s : assignment) (l : list expr) :
  forall a, eval s (fold_left Add l a) == eval s a + Qsum (map (eval s) l).
Proof.
  induction l as [|x l IH]; intros a; simpl.
  - ring.
  - rewrite IH. simpl. ring.
Qed.

Lemma eval_pysum (s : assignment) (l : list expr) :
  eval s (pysum l) == Qsum (map (eval s) l).
Proof. unfold pysum. rewrite eval_fold_Add. simpl. ring. Qed.

Lemma expr_vars_fold_Add (l : list expr) :
  forall a, expr_vars (fold_left Add l a) = expr_vars a ++ flat_map expr_vars l.
Proof.
  induction l as [|x l IH]; intros a; simpl.
  - now rewrite app_nil_r.
  - rewrite IH. simpl. now rewrite <- app_assoc.
Qed.

Lemma objective_Built (costs0 : dict string) (data : DataPortal)
    (m : Instance) (s : assignment) :
  Built costs0 data m ->
  objective m s
  == Qsum (map (fun k => s (cap k) * cost_of costs0 k) tech_keys)
     + Qsum (map (fun t => s (ESS_d t) * ESS_p_var_cost
                           + s (curt t) * curtailment_cost)
                 (model_t (inst_model m))).
Proof.
  intros B. unfold objective. rewrite (built_OBJ _ _ _ B). cbn [eval].
  rewrite !eval_pysum, !map_map. reflexivity.
Qed.

Lemma capital_sum (costs0 : dict string) (s : assignment) :
  Qsum (map (fun k => s (cap k) * cost_of costs0 k) tech_keys)
  == s (cap "w_cap") * cost_of costs0 "w_cap"
     + s (cap "s_cap") * cost_of costs0 "s_cap"
     + s (cap "ESS_power_cap") * cost_of costs0 "ESS_power_cap"
     + s (cap "ESS_energy_cap") * cost_of costs0 "ESS_energy_cap".
Proof. unfold tech_keys. simpl. ring. Qed.

Lemma flat_map_expr_vars_operation (l : list Z) :
  flat_map expr_vars (map operation_term l)
  = flat_map (fun t => [ESS_d t; curt t]) l.
Proof.
  induction l as [|t l IH]; simpl; [reflexivity|]. now rewrite IH.
Qed.

Lemma expr_vars_OBJ (costs0 : dict string) (data : DataPortal) (m : Instance) :
  Built costs0 data m ->
  expr_vars (OBJ m)
  = map cap tech_keys
    ++ flat_map (fun t => [ESS_d t; curt t]) (model_t (inst_model m)).
Proof.
  intros B. rewrite (built_OBJ _ _ _ B). cbn [expr_vars]. unfold pysum.
  rewrite !expr_vars_fold_Add, flat_map_expr_vars_operation. reflexivity.
Qed.

Lemma model_t_year (costs0 : dict string) (data : DataPortal) (m : Instance) :
  Built costs0 data m -> data_t data = range hours_per_year ->
  model_t (inst_model m) = range hours_per_year.
Proof.
  intros B Hd. rewrite (built_t _ _ _ B), Hd.
  apply Set_construct_NoDup, NoDup_range.
Qed.

(** ** Power balance *)

(** C1: at every hour of the time index of a built instance, the [match]
    block holds the equality
    [solar[t]*cap[s_cap] + wind[t]*cap[w_cap] + ESS_d[t] - ESS_c[t] - curt[t]
     - demand[t] == 0]; its only variables are the two capacities, discharge,
    charge and curtailment of that hour (no slack, no unserved demand), and
    every feasible solution satisfies it exactly.  The index is the [t]
    column of the data file: the 8760 hours [0 .. 8759] when the file lists
    them. *)
Theorem power_balance_exact (data : DataPortal) (m : Instance) :
  create_instance data = Ok m ->
  model_t (inst_model m) = Set_construct (data_t data)
  /\ (data_t data = range hours_per_year ->
      List.length (model_t (inst_model m)) = hours_per_year
      /\ forall t, In t (model_t (inst_model m)) <-> (0 <= t < 8760)%Z)
  /\ forall t, In t (model_t (inst_model m)) ->
       exists solar_t wind_t demand_t c,
         model_solar (inst_model m) t = Some solar_t
         /\ model_wind (inst_model m) t = Some wind_t
         /\ model_demand (inst_model m) t = Some demand_t
         /\ block_at (match_ m) t = Some c
         /\ c = (Const solar_t * V (cap "s_cap") + Const wind_t * V (cap "w_cap")
                 + V (ESS_d t) - V (ESS_c t) - V (curt t) - Const demand_t
                 == Const 0)%E
         /\ constraint_vars c
            = [cap "s_cap"; cap "w_cap"; ESS_d t; ESS_c t; curt t]
         /\ forall s, feasible m s ->
              solar_t * s (cap "s_cap") + wind_t * s (cap "w_cap")
              + s (ESS_d t) - s (ESS_c t) - s (curt t) - demand_t == 0.
Proof.
  intros H. pose proof (create_instance_Built _ _ H) as B.
  split; [exact (built_t _ _ _ B)|]. split.
  - intros Hd. rewrite (model_t_year _ _ _ B Hd). split.
    + apply length_range.
    + intros t. apply In_model_hours.
  - intros t Ht.
    exists (series (data_solar data) t), (series (data_wind data) t),
      (series (data_demand data) t), (match_row data t).
    rewrite (built_solar_param _ _ _ B), (built_wind_param _ _ _ B),
      (built_demand_param _ _ _ B), (built_match _ _ _ B).
    repeat split.
    + apply dict_get_Some_series, (built_solar _ _ _ B), Ht.
    + apply dict_get_Some_series, (built_wind _ _ _ B), Ht.
    + apply dict_get_Some_series, (built_demand _ _ _ B), Ht.
    + now apply block_at_rows.
    + intros s Hs. apply (feasible_lp _ _ _ s B) in Hs.
      apply (lp_match _ _ _ Hs t Ht).
Qed.

Lemma power_balance_exact_witness :
  exists m,
    create_instance (constant_data hours_per_year 0 1 10) = Ok m
    /\ In 17%Z (model_t (inst_model m))
    /\ block_at (match_ m) 17
       = Some (Const 1 * V (cap "s_cap") + Const 0 * V (cap "w_cap")
               + V (ESS_d 17) - V (ESS_c 17) - V (curt 17) - Const 10
               == Const 0)%E.
Proof.
  destruct (create_instance_constant hours_per_year 0 1 10) as [m E].
  exists m. split; [exact E|].
  assert (Hin : In 17%Z (model_t (inst_model m))).
  { apply (model_hours _ _ _ m 17%Z E). lia. }
  split; [exact Hin|].
  destruct (power_balance_exact _ m E) as [_ [_ Hall]].
  destruct (Hall 17%Z Hin) as [s [w [d [c [Hs [Hw [Hd [Hat [Hc _]]]]]]]]].
  pose proof (create_instance_Built _ _ E) as B.
  rewrite (built_solar_param _ _ _ B) in Hs.
  rewrite (built_wind_param _ _ _ B) in Hw.
  rewrite (built_demand_param _ _ _ B) in Hd.
  assert (Hr : In 17%Z (range hours_per_year)) by (apply In_model_hours; lia).
  cbn [constant_data data_solar data_wind data_demand] in Hs, Hw, Hd.
  rewrite (dict_get_constant_in _ 1 _ Hr) in Hs.
  rewrite (dict_get_constant_in _ 0 _ Hr) in Hw.
  rewrite (dict_get_constant_in _ 10 _ Hr) in Hd.
  inversion Hs; inversion Hw; inversion Hd; subst.
  exact Hat.
Defined.

(** ** State of charge *)

(** C2: at every hour [t] of the index the [SOC_const] block holds
    [soc[t] == soc[p] + charge[t]*0.95 - discharge[t]/0.9], where [p] is
    [t - 1] for every hour but the first of the index and the last hour of
    the index for the first one (cyclic boundary); [p] belongs to the index
    and every feasible solution satisfies the equation.  First and last are
    the first and the last row of the file: hours 0 and 8759, and [p] the
    hour before [t] modulo 8760, when the file lists the hours
    [0 .. 8759]. *)
Theorem soc_recursion_cyclic (data : DataPortal) (m : Instance) :
  create_instance data = Ok m ->
  (forall a rest, model_t (inst_model m) = a :: rest ->
                  Set_first (model_t (inst_model m)) = a)
  /\ (forall front z, model_t (inst_model m) = front ++ [z] ->
                      Set_last (model_t (inst_model m)) = z)
  /\ (data_t data = range hours_per_year ->
      Set_first (model_t (inst_model m)) = 0%Z
      /\ Set_last (model_t (inst_model m)) = 8759%Z
      /\ forall t, In t (model_t (inst_model m)) ->
           (if (t =? Set_first (model_t (inst_model m)))%Z
            then Set_last (model_t (inst_model m)) else (t - 1)%Z)
           = ((t - 1 + 8760) mod 8760)%Z)
  /\ forall t, In t (model_t (inst_model m)) ->
       let p := if (t =? Set_first (model_t (inst_model m)))%Z
                then Set_last (model_t (inst_model m)) else (t - 1)%Z in
       In p (model_t (inst_model m))
       /\ block_at (SOC_const_ m) t
          = Some (V (ESS_SOC t)
                  == V (ESS_SOC p) + V (ESS_c t) * Const 0.95
                     - V (ESS_d t) / Const 0.9)%E
       /\ forall s, feasible m s ->
            s (ESS_SOC t) == s (ESS_SOC p) + s (ESS_c t) * 0.95 - s (ESS_d t) / 0.9.
Proof.
  intros H. pose proof (create_instance_Built _ _ H) as B.
  split; [|split; [|split]].
  - intros a rest ->. reflexivity.
  - intros front z ->. apply last_last.
  - intros Hd. rewrite (model_t_year _ _ _ B Hd).
    assert (Hf : Set_first (range hours_per_year) = 0%Z).
    { rewrite hours_per_year_S. apply Set_first_range. }
    assert (Hl : Set_last (range hours_per_year) = 8759%Z).
    { rewrite hours_per_year_S, Set_last_range. apply pred_hours_Z. }
    split; [exact Hf|]. split; [exact Hl|].
    intros t Ht. fold (prev (range hours_per_year) t).
    rewrite (prev_mod _ _ Ht), hours_per_year_Z. reflexivity.
  - intros t Ht. cbv zeta. fold (prev (model_t (inst_model m)) t).
    split; [apply (built_prev _ _ _ B t Ht)|]. split.
    + rewrite (built_soc _ _ _ B). now apply block_at_rows.
    + intros s Hs. apply (feasible_lp _ _ _ s B) in Hs.
      apply (lp_soc _ _ _ Hs t Ht).
Qed.

Lemma soc_recursion_cyclic_witness :
  exists m,
    create_instance (constant_data hours_per_year 0 1 10) = Ok m
    /\ In 0%Z (model_t (inst_model m))
    /\ block_at (SOC_const_ m) 0
       = Some (V (ESS_SOC 0)
               == V (ESS_SOC 8759) + V (ESS_c 0) * Const 0.95
                  - V (ESS_d 0) / Const 0.9)%E
    /\ cycling_solution (ESS_SOC 0)
       == cycling_solution (ESS_SOC 8759) + cycling_solution (ESS_c 0) * 0.95
          - cycling_solution (ESS_d 0) / 0.9.
Proof.
  destruct sample_cycling as [m [E Hfeas]].
  exists m. split; [exact E|].
  assert (Hin : In 0%Z (model_t (inst_model m))).
  { apply (model_hours _ _ _ m 0%Z E). lia. }
  split; [exact Hin|].
  destruct (soc_recursion_cyclic _ m E) as [_ [_ [Hyear Hall]]].
  destruct (Hyear eq_refl) as [Hf [Hl _]].
  specialize (Hall 0%Z Hin). cbv zeta in Hall. rewrite Hf, Hl in Hall.
  destruct Hall as [_ [Hat Hs]].
  split; [exact Hat|].
  apply Hs. exact Hfeas.
Defined.

(** ** Objective *)

(** C3: the objective of a built instance equals installed capacity times
    capital cost summed over the four technologies, plus discharge times 5000
    and curtailment times 1000 summed over the hours of the index; the
    capital costs are the constants of the script, used as given, and no
    other variable occurs in the objective.  The hours are those of the
    data file: the 8760 hours [0 .. 8759] when the file lists them. *)
Theorem objective_terms (data : DataPortal) (m : Instance) :
  create_instance data = Ok m ->
  model_t (inst_model m) = Set_construct (data_t data)
  /\ (data_t data = range hours_per_year ->
      model_t (inst_model m) = range hours_per_year)
  /\ model_tech (inst_model m) = ["w_cap"; "s_cap"; "ESS_power_cap"; "ESS_energy_cap"]
  /\ model_costs (inst_model m) "w_cap" = Some 1200000000
  /\ model_costs (inst_model m) "s_cap" = Some 800000000
  /\ model_costs (inst_model m) "ESS_power_cap" = Some 200000000
  /\ model_costs (inst_model m) "ESS_energy_cap" = Some 150000000
  /\ expr_vars (OBJ m)
     = map cap (model_tech (inst_model m))
       ++ flat_map (fun t => [ESS_d t; curt t]) (model_t (inst_model m))
  /\ forall s,
       objective m s
       == (s (cap "w_cap") * 1200000000 + s (cap "s_cap") * 800000000
           + s (cap "ESS_power_cap") * 200000000
           + s (cap "ESS_energy_cap") * 150000000)
          + Qsum (map (fun t => s (ESS_d t) * 5000 + s (curt t) * 1000)
                      (model_t (inst_model m)))
       /\ objective m s
          == spec_total_cost (cost_of costs_init) (model_t (inst_model m)) s.
Proof.
  intros H. pose proof (create_instance_Built _ _ H) as B.
  split; [exact (built_t _ _ _ B)|].
  split; [exact (model_t_year _ _ _ B)|].
  rewrite (built_tech _ _ _ B), (built_costs_param _ _ _ B).
  split; [reflexivity|]. split; [reflexivity|]. split; [reflexivity|].
  split; [reflexivity|]. split; [reflexivity|].
  split; [exact (expr_vars_OBJ _ _ _ B)|].
  intros s. rewrite (objective_Built _ _ _ s B), capital_sum.
  unfold spec_total_cost.
  change (cost_of costs_init "w_cap") with 1200000000.
  change (cost_of costs_init "s_cap") with 800000000.
  change (cost_of costs_init "ESS_power_cap") with 200000000.
  change (cost_of costs_init "ESS_energy_cap") with 150000000.
  change ESS_p_var_cost with 5000. change curtailment_cost with 1000.
  split; reflexivity.
Qed.

Lemma objective_terms_witness :
  exists m,
    create_instance (constant_data hours_per_year 0 1 10) = Ok m
    /\ model_t (inst_model m) = range hours_per_year
    /\ objective m cycling_solution
       == (0 * 1200000000 + 11 * 800000000 + 1 * 200000000 + 2 * 150000000)
          + Qsum (map (fun t => cycling_solution (ESS_d t) * 5000
                                + cycling_solution (curt t) * 1000)
                      (model_t (inst_model m))).
Proof.
  destruct (create_instance_constant hours_per_year 0 1 10) as [m E].
  exists m. split; [exact E|].
  destruct (objective_terms _ m E) as [_ [Hyear [_ [_ [_ [_ [_ [_ Hobj]]]]]]]].
  split; [exact (Hyear eq_refl)|].
  exact (proj1 (Hobj cycling_solution)).
Defined.

(** ** Closure of the state-of-charge cycle *)

Lemma soc_unroll_sum (s : assignment) (ts : list Z) :
  forall start, soc_unroll s ts start == start + Qsum (map (soc_increment s) ts).
Proof.
  unfold soc_unroll. induction ts as [|t ts IH]; intros start; simpl.
  - ring.
  - rewrite IH. ring.
Qed.

Lemma prev_hours_from_pos (a : Z) (n : nat) (t : Z) :
  (0 < n)%nat ->
  prev (hours_from a n) t
  = if (t =? a)%Z then (a + Z.of_nat n - 1)%Z else (t - 1)%Z.
Proof.
  destruct n as [|k]; [lia|]. intros _. rewrite prev_hours_from.
  replace (a + Z.of_nat (S k) - 1)%Z with (a + Z.of_nat k)%Z by lia. reflexivity.
Qed.

Section Telescope.

Variable a : Z.
Variable n : nat.
Variable s : assignment.
Hypothesis Hsoc : forall t, In t (hours_from a n) ->
  s (ESS_SOC t) == s (ESS_SOC (prev (hours_from a n) t)) + soc_increment s t.

(** The increments of the first [k] hours add up to the change of the
    state of charge since the end of the previous cycle. *)
Lemma soc_telescope (k : nat) :
  (k <= n)%nat ->
  s (ESS_SOC (a + Z.of_nat n - 1)) + Qsum (map (soc_increment s) (hours_from a k))
  == s (ESS_SOC (if Nat.eqb k 0 then a + Z.of_nat n - 1 else a + Z.of_nat k - 1)%Z).
Proof.
  induction k as [|k IH]; intros Hk.
  - simpl. ring.
  - rewrite hours_from_S, map_app, Qsum_app. simpl Qsum.
    assert (Hin : In (a + Z.of_nat k)%Z (hours_from a n)).
    { apply In_hours_from. lia. }
    specialize (Hsoc _ Hin).
    change (if Nat.eqb (S k) 0 then a + Z.of_nat n - 1 else a + Z.of_nat (S k) - 1)%Z
      with (a + Z.of_nat (S k) - 1)%Z.
    replace (a + Z.of_nat (S k) - 1)%Z with (a + Z.of_nat k)%Z by lia.
    rewrite Hsoc.
    replace (prev (hours_from a n) (a + Z.of_nat k))
      with (if Nat.eqb k 0 then a + Z.of_nat n - 1 else a + Z.of_nat k - 1)%Z.
    + rewrite <- IH by lia. ring.
    + rewrite prev_hours_from_pos by lia. destruct k.
      * replace (a + Z.of_nat 0)%Z with a by lia.
        now rewrite Z.eqb_refl.
      * change (Nat.eqb (S k) 0) with false. cbv iota.
        destruct (Z.eqb_spec (a + Z.of_nat (S k)) a); [lia|reflexivity].
Qed.

Lemma soc_cycle_sum : Qsum (map (soc_increment s) (hours_from a n)) == 0.
Proof.
  pose proof (soc_telescope n (Nat.le_refl n)) as H.
  destruct (Nat.eqb n 0) eqn:En.
  - apply Nat.eqb_eq in En. rewrite En. reflexivity.
  - set (x := s (ESS_SOC (a + Z.of_nat n - 1))) in *.
    set (y := Qsum (map (soc_increment s) (hours_from a n))) in *.
    lra.
Qed.

End Telescope.

Lemma block_ok_soc_increment (costs0 : dict string) (data : DataPortal)
    (m : Instance) (s : assignment) :
  Built costs0 data m -> block_ok s (SOC_const_ m) ->
  forall t, In t (model_t (inst_model m)) ->
    s (ESS_SOC t)
    == s (ESS_SOC (prev (model_t (inst_model m)) t)) + soc_increment s t.
Proof.
  intros B Hb t Ht. rewrite (built_soc _ _ _ B), block_ok_rows in Hb.
  specialize (Hb t Ht). unfold holds, soc_row in Hb. simpl in Hb.
  unfold soc_increment. rewrite Hb. ring.
Qed.

(** ** Files with the last two rows exchanged *)

Lemma In_swapped_hours (n : nat) (t : Z) :
  In t (swapped_hours n) <-> (0 <= t < Z.of_nat n + 2)%Z.
Proof.
  unfold swapped_hours. rewrite in_app_iff, In_range. simpl. lia.
Qed.

Lemma NoDup_swapped_hours (n : nat) : NoDup (swapped_hours n).
Proof.
  unfold swapped_hours. apply NoDup_app; [apply NoDup_range | |].
  - constructor; [simpl; lia|]. constructor; [intros []|constructor].
  - intros x Hx. apply In_range in Hx. simpl. lia.
Qed.

Lemma length_swapped_hours (n : nat) :
  List.length (swapped_hours n) = (n + 2)%nat.
Proof. unfold swapped_hours. rewrite length_app, length_range. reflexivity. Qed.

Lemma Set_first_swapped (k : nat) : Set_first (swapped_hours (S k)) = 0%Z.
Proof. reflexivity. Qed.

Lemma Set_last_swapped (n : nat) : Set_last (swapped_hours n) = Z.of_nat n.
Proof.
  unfold swapped_hours, Set_last.
  replace (range n ++ [(Z.of_nat n + 1)%Z; Z.of_nat n])
    with ((range n ++ [(Z.of_nat n + 1)%Z]) ++ [Z.of_nat n])
    by (rewrite <- app_assoc; reflexivity).
  apply last_last.
Qed.

Lemma prev_swapped (k : nat) (t : Z) :
  prev (swapped_hours (S k)) t
  = if (t =? 0)%Z then Z.of_nat (S k) else (t - 1)%Z.
Proof. unfold prev. now rewrite Set_first_swapped, Set_last_swapped. Qed.

Lemma prev_closed_swapped (k : nat) (t : Z) :
  In t (swapped_hours (S k)) ->
  In (prev (swapped_hours (S k)) t) (swapped_hours (S k)).
Proof.
  rewrite prev_swapped, !In_swapped_hours. destruct (Z.eqb_spec t 0); lia.
Qed.

Lemma create_instance_late_demand (k : nat) :
  exists m, create_instance (late_demand_data (S k)) = Ok m.
Proof.
  apply create_instance_of_complete.
  - apply hourly_data_within.
  - exact costs_init_within.
  - exact costs_init_cover.
  - apply hourly_data_covers.
  - cbn [late_demand_data hourly_data data_t].
    rewrite (Set_construct_NoDup _ (NoDup_swapped_hours (S k))).
    apply prev_closedb_true. intros i. apply prev_closed_swapped.
Qed.

Lemma model_t_late_demand (n : nat) (m : Instance) :
  create_instance (late_demand_data n) = Ok m ->
  model_t (inst_model m) = swapped_hours n.
Proof.
  intros E. rewrite (built_t _ _ _ (create_instance_Built _ _ E)).
  cbn [late_demand_data hourly_data data_t].
  apply Set_construct_NoDup, NoDup_swapped_hours.
Qed.

Lemma late_discharge_lp (k : nat) :
  lp_feasible (swapped_hours (S k)) (late_demand_data (S k)) (late_discharge (S k)).
Proof.
  constructor; intros t Ht.
  - apply In_tech_keys in Ht.
    destruct Ht as [->|[->|[->| ->]]]; Qconst.
  - cbn [late_discharge]. destruct (t =? Z.of_nat (S k) + 1)%Z; Qconst.
  - cbn [late_discharge]. Qconst.
  - cbn [late_discharge]. destruct (t =? Z.of_nat (S k) + 1)%Z; Qconst.
  - cbn [late_discharge]. Qconst.
  - cbn [late_demand_data hourly_data data_solar data_wind data_demand].
    rewrite !series_tabulate by exact Ht.
    change (late_discharge (S k) (cap "s_cap")) with 0.
    change (late_discharge (S k) (cap "w_cap")) with 0.
    cbn [late_discharge]. destruct (t =? Z.of_nat (S k) + 1)%Z; reflexivity.
  - change (late_discharge (S k) (cap "ESS_power_cap")) with 0.72.
    cbn [late_discharge]. destruct (t =? Z.of_nat (S k) + 1)%Z; Qconst.
  - change (late_discharge (S k) (cap "ESS_energy_cap")) with 1.
    cbn [late_discharge]. destruct (t =? Z.of_nat (S k) + 1)%Z; Qconst.
  - change (late_discharge (S k) (cap "ESS_energy_cap")) with 1.
    cbn [late_discharge]. destruct (t =? Z.of_nat (S k) + 1)%Z; Qconst.
  - rewrite Qdiv_eta_d, prev_swapped. apply In_swapped_hours in Ht.
    cbn [late_discharge].
    destruct (Z.eqb_spec t (Z.of_nat (S k) + 1)) as [->|Hne].
    + destruct (Z.eqb_spec (Z.of_nat (S k) + 1) 0) as [E0|_]; [lia|].
      destruct (Z.eqb_spec (Z.of_nat (S k) + 1 - 1) (Z.of_nat (S k) + 1));
        [lia | reflexivity].
    + destruct (Z.eqb_spec t 0) as [->|Hne0].
      * destruct (Z.eqb_spec (Z.of_nat (S k)) (Z.of_nat (S k) + 1));
          [lia | reflexivity].
      * destruct (Z.eqb_spec (t - 1) (Z.of_nat (S k) + 1)); [lia | reflexivity].
Qed.

Lemma late_discharge_increments (n : nat) :
  Qsum (map (fun t => late_discharge n (ESS_c t) * 0.95
                      - late_discharge n (ESS_d t) / 0.9)
            (swapped_hours n)) == - (8 # 10).
Proof.
  unfold swapped_hours. rewrite map_app, Qsum_app.
  rewrite Qsum_zero.
  - cbn [map Qsum fold_right late_discharge]. rewrite Z.eqb_refl.
    destruct (Z.eqb_spec (Z.of_nat n) (Z.of_nat n + 1)); [lia | reflexivity].
  - intros t Ht. apply In_range in Ht. cbn [late_discharge].
    destruct (Z.eqb_spec t (Z.of_nat n + 1)); [lia | reflexivity].
Qed.

Lemma year_less_two : (hours_per_year - 2)%nat = S (hours_per_year - 3).
Proof. vm_compute. reflexivity. Qed.

Lemma year_less_two_Z : Z.of_nat (hours_per_year - 2) = 8758%Z.
Proof. vm_compute. reflexivity. Qed.

Lemma year_less_two_length : (hours_per_year - 2 + 2)%nat = hours_per_year.
Proof. vm_compute. reflexivity. Qed.

(** C5, as the script behaves: when the rows of the file are consecutive
    hours in ascending order, every assignment satisfying the
    state-of-charge constraints of all hours has increments
    [charge[t]*0.95 - discharge[t]/0.9] that add up to zero over the index,
    so that running the recursion once around the cycle gives back the
    state of charge it started from, both from the end of the last hour and
    from the first hour.  The script does not check the order of the
    rows. *)
Theorem soc_cycle_closure (data : DataPortal) (m : Instance) (s : assignment)
    (a : Z) (n : nat) :
  create_instance data = Ok m ->
  model_t (inst_model m) = hours_from a n ->
  block_ok s (SOC_const_ m) ->
  Qsum (map (fun t => s (ESS_c t) * 0.95 - s (ESS_d t) / 0.9)
            (model_t (inst_model m))) == 0
  /\ soc_unroll s (model_t (inst_model m))
       (s (ESS_SOC (Set_last (model_t (inst_model m)))))
     == s (ESS_SOC (Set_last (model_t (inst_model m))))
  /\ (model_t (inst_model m) <> [] ->
      soc_unroll s (tl (model_t (inst_model m))
                    ++ [Set_first (model_t (inst_model m))])
        (s (ESS_SOC (Set_first (model_t (inst_model m)))))
      == s (ESS_SOC (Set_first (model_t (inst_model m))))).
Proof.
  intros H HT Hb. pose proof (create_instance_Built _ _ H) as B.
  pose proof (block_ok_soc_increment _ _ _ s B Hb) as Hinc.
  rewrite HT in Hinc |- *.
  assert (Hsum : Qsum (map (soc_increment s) (hours_from a n)) == 0).
  { apply soc_cycle_sum. exact Hinc. }
  split; [exact Hsum|]. split.
  - rewrite soc_unroll_sum, Hsum. ring.
  - intros Hne. destruct n as [|k]; [exfalso; apply Hne; reflexivity|].
    rewrite soc_unroll_sum, map_app, Qsum_app.
    rewrite Set_first_hours_from.
    assert (Hcons : Qsum (map (soc_increment s) (hours_from a (S k)))
                    == soc_increment s a
                       + Qsum (map (soc_increment s) (tl (hours_from a (S k))))).
    { unfold hours_from. simpl. replace (a + 0)%Z with a by lia. reflexivity. }
    rewrite Hcons in Hsum. simpl Qsum at 2.
    set (x := Qsum (map (soc_increment s) (tl (hours_from a (S k))))) in *.
    set (y := soc_increment s a) in *.
    lra.
Qed.

Lemma soc_cycle_closure_witness :
  exists m,
    create_instance (constant_data hours_per_year 0 1 10) = Ok m
    /\ model_t (inst_model m) = hours_from 0 hours_per_year
    /\ block_ok cycling_solution (SOC_const_ m)
    /\ Qsum (map (fun t => cycling_solution (ESS_c t) * 0.95
                           - cycling_solution (ESS_d t) / 0.9)
                 (model_t (inst_model m))) == 0.
Proof.
  destruct sample_cycling as [m [E Hf]].
  exists m. split; [exact E|].
  assert (HT : model_t (inst_model m) = hours_from 0 hours_per_year).
  { rewrite hours_from_0.
    apply (model_t_constant _ _ _ _ _ _ (create_instance_Built _ _ E)). }
  split; [exact HT|].
  assert (Hb : block_ok cycling_solution (SOC_const_ m)).
  { destruct Hf as [_ [_ [_ [_ [_ Hsoc]]]]]. exact Hsoc. }
  split; [exact Hb|].
  exact (proj1 (soc_cycle_closure _ m cycling_solution 0 hours_per_year E HT Hb)).
Defined.

(** C5 as stated fails: a file with the 8760 hours [0 .. 8759] whose last
    two rows are exchanged builds an instance with 8760 state-of-charge
    constraints in which hour 8759 hangs off the cycle
    [0, 8758, 8757, .., 1]; an assignment that discharges at hour 8759 only
    satisfies every constraint and every domain, and its increments add up
    to -0.8. *)
Lemma swapped_rows_soc_not_closed :
  exists m,
    create_instance (late_demand_data (hours_per_year - 2)) = Ok m
    /\ model_t (inst_model m) = range (hours_per_year - 2) ++ [8759; 8758]%Z
    /\ List.length (model_t (inst_model m)) = hours_per_year
    /\ List.length (SOC_const_ m) = hours_per_year
    /\ (forall t, In t (model_t (inst_model m)) <-> (0 <= t < 8760)%Z)
    /\ feasible m (late_discharge (hours_per_year - 2))
    /\ block_ok (late_discharge (hours_per_year - 2)) (SOC_const_ m)
    /\ Qsum (map (fun t => late_discharge (hours_per_year - 2) (ESS_c t) * 0.95
                           - late_discharge (hours_per_year - 2) (ESS_d t) / 0.9)
                 (model_t (inst_model m))) == - (8 # 10)
    /\ ~ Qsum (map (fun t => late_discharge (hours_per_year - 2) (ESS_c t) * 0.95
                             - late_discharge (hours_per_year - 2) (ESS_d t) / 0.9)
                   (model_t (inst_model m))) == 0.
Proof.
  assert (Hex : exists m,
            create_instance (late_demand_data (hours_per_year - 2)) = Ok m).
  { rewrite year_less_two. apply create_instance_late_demand. }
  destruct Hex as [m E]. exists m. split; [exact E|].
  pose proof (model_t_late_demand _ _ E) as HT.
  pose proof (create_instance_Built _ _ E) as B.
  assert (Hf : feasible m (late_discharge (hours_per_year - 2))).
  { apply (feasible_lp _ _ _ _ B). rewrite HT, year_less_two.
    apply late_discharge_lp. }
  assert (Hsum : Qsum (map (fun t => late_discharge (hours_per_year - 2) (ESS_c t) * 0.95
                           - late_discharge (hours_per_year - 2) (ESS_d t) / 0.9)
                 (model_t (inst_model m))) == - (8 # 10)).
  { rewrite HT. apply late_discharge_increments. }
  split.
  { rewrite HT. unfold swapped_hours. rewrite year_less_two_Z. reflexivity. }
  split.
  { rewrite HT, length_swapped_hours. exact year_less_two_length. }
  split.
  { rewrite (built_soc _ _ _ B). unfold rows. rewrite length_map, HT,
      length_swapped_hours. exact year_less_two_length. }
  split.
  { intros t. rewrite HT, In_swapped_hours, year_less_two_Z. lia. }
  split; [exact Hf|]. split.
  { destruct Hf as [_ [_ [_ [_ [_ Hsoc]]]]]. exact Hsoc. }
  split; [exact Hsum|].
  intros H0. rewrite Hsum in H0. discriminate H0.
Qed.

(** ** Storage bounds *)

(** C6: in every feasible solution the state of charge of every hour is at
    most the installed energy capacity and at least 0.20 of it. *)
Theorem soc_bounds (data : DataPortal) (m : Instance) (s : assignment) :
  create_instance data = Ok m ->
  feasible m s ->
  ESS_min_level = 0.20
  /\ forall t, In t (model_t (inst_model m)) ->
       block_at (ESS_max m) t = Some (V (ESS_SOC t) <= V (cap "ESS_energy_cap"))%E
       /\ block_at (ESS_min m) t
          = Some (V (ESS_SOC t) >= Const 0.20 * V (cap "ESS_energy_cap"))%E
       /\ s (ESS_SOC t) <= s (cap "ESS_energy_cap")
       /\ 0.20 * s (cap "ESS_energy_cap") <= s (ESS_SOC t).
Proof.
  intros H Hs. pose proof (create_instance_Built _ _ H) as B.
  apply (feasible_lp _ _ _ s B) in Hs.
  split; [reflexivity|]. intros t Ht.
  rewrite (built_max _ _ _ B), (built_min _ _ _ B).
  split; [now apply block_at_rows|]. split; [now apply block_at_rows|].
  split; [apply (lp_max _ _ _ Hs t Ht) | apply (lp_min _ _ _ Hs t Ht)].
Qed.

Lemma soc_bounds_witness :
  exists m,
    create_instance (constant_data hours_per_year 0 1 10) = Ok m
    /\ feasible m cycling_solution
    /\ cycling_solution (ESS_SOC 4) <= cycling_solution (cap "ESS_energy_cap")
    /\ 0.20 * cycling_solution (cap "ESS_energy_cap") <= cycling_solution (ESS_SOC 4).
Proof.
  destruct sample_cycling as [m [E Hf]].
  exists m. split; [exact E|]. split; [exact Hf|].
  destruct (soc_bounds _ m cycling_solution E Hf) as [_ Hall].
  assert (Hin : In 4%Z (model_t (inst_model m))).
  { apply (model_hours _ _ _ m 4%Z E). lia. }
  destruct (Hall 4%Z Hin) as [_ [_ Hb]]. exact Hb.
Defined.

(** ** Storage power limit *)

Lemma unbuilt_churning_constraints (costs0 : dict string)
    (data : DataPortal) (m : Instance) :
  Built costs0 data m -> constraints_ok m (unbuilt_churning data).
Proof.
  intros B. apply (constraints_ok_Built _ _ _ _ B).
  repeat split; intros t Ht; unfold holds; simpl;
    try discriminate; try ring; try (rewrite Qdiv_eta_d; reflexivity).
Qed.

(** C7: in every feasible solution charge plus discharge of an hour is at
    most the installed storage power capacity; no constraint of the instance
    excludes charging and discharging in the same hour, and with a constant
    sun and a flat demand a feasible solution does both at every hour. *)
Theorem charge_discharge_limit (data : DataPortal) (m : Instance) :
  create_instance data = Ok m ->
  (forall t, In t (model_t (inst_model m)) ->
     block_at (ESS_charge_disc_rate m) t
     = Some (V (ESS_c t) + V (ESS_d t) <= V (cap "ESS_power_cap"))%E)
  /\ (forall s, feasible m s ->
      forall t, In t (model_t (inst_model m)) ->
        s (ESS_c t) + s (ESS_d t) <= s (cap "ESS_power_cap"))
  /\ (exists s, constraints_ok m s
                /\ forall t, In t (model_t (inst_model m)) ->
                     0 < s (ESS_c t) /\ 0 < s (ESS_d t))
  /\ (exists m' s',
        create_instance (constant_data hours_per_year 0 1 10) = Ok m'
        /\ feasible m' s'
        /\ forall t, In t (model_t (inst_model m')) ->
             0 < s' (ESS_c t) /\ 0 < s' (ESS_d t)).
Proof.
  intros H. pose proof (create_instance_Built _ _ H) as B.
  split; [|split; [|split]].
  - intros t Ht. rewrite (built_rate _ _ _ B). now apply block_at_rows.
  - intros s Hs t Ht.
    apply (feasible_lp _ _ _ s B) in Hs. apply (lp_rate _ _ _ Hs t Ht).
  - exists (unbuilt_churning data). split.
    + apply (unbuilt_churning_constraints _ _ _ B).
    + intros t _. split; reflexivity.
  - destruct sample_churning as [m' [E' Hf']].
    exists m', churning_solution. split; [exact E'|]. split; [exact Hf'|].
    intros t _. split; reflexivity.
Qed.

Lemma charge_discharge_limit_witness :
  exists m,
    create_instance (constant_data hours_per_year 0 1 10) = Ok m
    /\ feasible m churning_solution
    /\ churning_solution (ESS_c 100) + churning_solution (ESS_d 100)
       <= churning_solution (cap "ESS_power_cap").
Proof.
  destruct sample_churning as [m [E Hf]].
  exists m. split; [exact E|]. split; [exact Hf|].
  destruct (charge_discharge_limit _ m E) as [_ [Hall _]].
  apply (Hall churning_solution Hf 100%Z).
  apply (model_hours _ _ _ m 100%Z E). lia.
Defined.

(** ** Variable domains *)

Lemma negative_charging_constraints (costs0 : dict string)
    (data : DataPortal) (m : Instance) :
  Built costs0 data m -> constraints_ok m (negative_charging data).
Proof.
  intros B. apply (constraints_ok_Built _ _ _ _ B).
  repeat split; intros t Ht; unfold holds; simpl;
    try discriminate; try ring; try (rewrite Qdiv_eta_d; reflexivity).
Qed.

(** C4: every [Var] of a built instance is declared over the non-negative
    reals, so every feasible solution gives a non-negative value to each
    capacity and to state of charge, charge, discharge and curtailment of
    each hour; the restriction lives in the domains only: the constraint
    blocks alone admit an assignment with negative charge at every hour. *)
Theorem nonnegative_domains (data : DataPortal) (m : Instance) :
  create_instance data = Ok m ->
  (model_cap (inst_model m) = NonNegativeReals
   /\ model_ESS_SOC (inst_model m) = NonNegativeReals
   /\ model_ESS_c (inst_model m) = NonNegativeReals
   /\ model_ESS_d (inst_model m) = NonNegativeReals
   /\ model_curt (inst_model m) = NonNegativeReals)
  /\ (forall s, feasible m s ->
        (forall k, In k (model_tech (inst_model m)) -> 0 <= s (cap k))
        /\ (forall t, In t (model_t (inst_model m)) ->
              0 <= s (ESS_SOC t) /\ 0 <= s (ESS_c t)
              /\ 0 <= s (ESS_d t) /\ 0 <= s (curt t)))
  /\ (exists s, constraints_ok m s
                /\ forall t, In t (model_t (inst_model m)) -> s (ESS_c t) < 0).
Proof.
  intros H. pose proof (create_instance_Built _ _ H) as B.
  split; [|split].
  - destruct B; auto.
  - intros s Hs. apply (feasible_lp _ _ _ s B) in Hs.
    rewrite (built_tech _ _ _ B). destruct Hs.
    split; [assumption|]. intros t Ht. auto.
  - exists (negative_charging data). split.
    + apply (negative_charging_constraints _ _ _ B).
    + intros t _. reflexivity.
Qed.

Lemma nonnegative_domains_witness :
  exists m,
    create_instance (constant_data hours_per_year 0 1 10) = Ok m
    /\ model_curt (inst_model m) = NonNegativeReals
    /\ 0 <= cycling_solution (cap "s_cap")
    /\ 0 <= cycling_solution (curt 3).
Proof.
  destruct sample_cycling as [m [E Hf]].
  exists m. split; [exact E|].
  destruct (nonnegative_domains _ m E) as [[_ [_ [_ [_ Hd]]]] [Hall _]].
  split; [exact Hd|].
  destruct (Hall cycling_solution Hf) as [Hcap Ht].
  pose proof (create_instance_Built _ _ E) as B.
  split.
  - apply Hcap. rewrite (built_tech _ _ _ B). unfold tech_keys. simpl. tauto.
  - assert (Hin : In 3%Z (model_t (inst_model m))).
    { apply (model_hours _ _ _ m 3%Z E). lia. }
    destruct (Ht 3%Z Hin) as [_ [_ [_ Hc]]]. exact Hc.
Defined.

(** ** Files of any length *)












(** ** Cost table *)

(** C9, as the script behaves: the cost table is the four-key literal of
    the script, and construction knows no [ConfigError].  A table whose keys
    are technologies but which lacks one makes the objective rule fail, at
    construction, with the [ValueError] of the undefined [costs] entry; a
    table with a key outside the technology set is refused when the [Param]
    is constructed; no instance is returned in either case. *)
Theorem cost_table_unchecked (costs0 : dict string) (data : DataPortal) :
  data_within data ->
  (keys_within tech_keys costs_init /\ costs_cover costs_init)
  /\ (keys_within tech_keys costs0 -> ~ costs_cover costs0 ->
      exists k,
        In k tech_keys /\ dict_get String.eqb costs0 k = None
        /\ create_instance_of costs0 data = Raise (ParamUndefined "costs" (KStr k))
        /\ exn_class (ParamUndefined "costs" (KStr k)) = "ValueError")
  /\ (~ keys_within tech_keys costs0 ->
      exists k,
        ~ In k tech_keys
        /\ create_instance_of costs0 data = Raise (IndexInvalid FromInitialize "costs" (KStr k)))
  /\ (forall e, create_instance_of costs0 data = Raise e ->
                exn_class e <> "ConfigError").
Proof.
  intros Hin. split; [|split; [|split]].
  - split; [exact costs_init_within | exact costs_init_cover].
  - intros Hk Hc.
    destruct (create_instance_of_cost_undefined costs0 data Hin Hk Hc)
      as [k [Hkin [Hnone E]]].
    exists k. repeat split; assumption.
  - intros Hk. apply (create_instance_of_index_invalid costs0 data Hin Hk).
  - intros e _. destruct (exn_class_known e) as [-> | [-> | ->]]; discriminate.
Qed.

Lemma costs_no_power_within : keys_within tech_keys costs_no_power.
Proof. intros k Hk. simpl in Hk. unfold tech_keys. simpl. tauto. Qed.

Lemma costs_no_power_uncovered : ~ costs_cover costs_no_power.
Proof.
  intros H. apply (H "ESS_power_cap"); [|reflexivity].
  unfold tech_keys. simpl. tauto.
Qed.

Lemma create_instance_costs_no_power (data : DataPortal) :
  data_within data ->
  create_instance_of costs_no_power data
  = Raise (ParamUndefined "costs" (KStr "ESS_power_cap")).
Proof.
  intros Hin.
  destruct (create_instance_of_cost_undefined costs_no_power data Hin
              costs_no_power_within costs_no_power_uncovered)
    as [k [Hk [Hnone E]]].
  unfold tech_keys in Hk. simpl in Hk.
  destruct Hk as [<-|[<-|[<-|[<-|[]]]]]; try discriminate Hnone.
  exact E.
Qed.

Lemma cost_table_unchecked_witness :
  data_within (constant_data hours_per_year 0 1 10)
  /\ keys_within tech_keys costs_no_power
  /\ ~ costs_cover costs_no_power
  /\ exists k,
       create_instance_of costs_no_power (constant_data hours_per_year 0 1 10)
       = Raise (ParamUndefined "costs" (KStr k))
       /\ exn_class (ParamUndefined "costs" (KStr k)) = "ValueError".
Proof.
  assert (Hin : data_within (constant_data hours_per_year 0 1 10)).
  { apply constant_data_within. }
  split; [exact Hin|]. split; [exact costs_no_power_within|].
  split; [exact costs_no_power_uncovered|].
  destruct (cost_table_unchecked costs_no_power _ Hin) as [_ [Hmiss _]].
  destruct (Hmiss costs_no_power_within costs_no_power_uncovered)
    as [k [_ [_ [E C]]]].
  exists k. split; [exact E | exact C].
Defined.

(** C9 as stated fails: with the storage power capacity left out of the
    cost table, construction raises the [ValueError] of the undefined
    [costs[ESS_power_cap]], not a [ConfigError]. *)
Lemma missing_cost_no_ConfigError :
  dict_get String.eqb costs_no_power "ESS_power_cap" = None
  /\ create_instance_of costs_no_power (constant_data hours_per_year 0 1 10)
     = Raise (ParamUndefined "costs" (KStr "ESS_power_cap"))
  /\ exn_class (ParamUndefined "costs" (KStr "ESS_power_cap")) = "ValueError"
  /\ ~ (exists e, create_instance_of costs_no_power
                    (constant_data hours_per_year 0 1 10) = Raise e
                  /\ exn_class e = "ConfigError").
Proof.
  assert (E := create_instance_costs_no_power
                 (constant_data hours_per_year 0 1 10)
                 (constant_data_within _ 0 1 10)).
  split; [reflexivity|]. split; [exact E|]. split; [reflexivity|].
  intros [e [He Hc]]. rewrite E in He. inversion He; subst e. discriminate.
Qed.

(** ** Examples on a four-hour horizon *)

Example toy_blocks :
  exists m,
    create_instance toy_data = Ok m
    /\ model_t (inst_model m) = [0; 1; 2; 3]%Z
    /\ block_at (match_ m) 2
       = Some (Const 0 * V (cap "s_cap") + Const 1 * V (cap "w_cap")
               + V (ESS_d 2) - V (ESS_c 2) - V (curt 2) - Const 10
               == Const 0)%E
    /\ block_at (SOC_const_ m) 0
       = Some (V (ESS_SOC 0)
               == V (ESS_SOC 3) + V (ESS_c 0) * Const 0.95
                  - V (ESS_d 0) / Const 0.9)%E
    /\ block_at (SOC_const_ m) 3
       = Some (V (ESS_SOC 3)
               == V (ESS_SOC 2) + V (ESS_c 3) * Const 0.95
                  - V (ESS_d 3) / Const 0.9)%E
    /\ block_at (ESS_min m) 1
       = Some (V (ESS_SOC 1) >= Const 0.20 * V (cap "ESS_energy_cap"))%E
    /\ block_at (match_ m) 4 = None.
Proof.
  eexists. split; [vm_compute; reflexivity|].
  repeat split; reflexivity.
Qed.

Example toy_objective :
  exists m,
    create_instance (constant_data 2 0 1 10) = Ok m
    /\ OBJ m
       = (Const 0 + V (cap "w_cap") * Const 1200000000
          + V (cap "s_cap") * Const 800000000
          + V (cap "ESS_power_cap") * Const 200000000
          + V (cap "ESS_energy_cap") * Const 150000000
          + (Const 0
             + (V (ESS_d 0) * Const 5000 + V (curt 0) * Const 1000)
             + (V (ESS_d 1) * Const 5000 + V (curt 1) * Const 1000)))%E.
Proof.
  eexists. split; [vm_compute; reflexivity|]. reflexivity.
Qed.

(** Hours numbered from 1: the first hour is 1, the last 4, and the rule of
    hour 1 reads the state of charge of hour 4. *)
Example toy_from_1 :
  exists m,
    create_instance (load toy_rows_from_1) = Ok m
    /\ model_t (inst_model m) = [1; 2; 3; 4]%Z
    /\ Set_first (model_t (inst_model m)) = 1%Z
    /\ Set_last (model_t (inst_model m)) = 4%Z
    /\ block_at (SOC_const_ m) 1
       = Some (V (ESS_SOC 1)
               == V (ESS_SOC 4) + V (ESS_c 1) * Const 0.95
                  - V (ESS_d 1) / Const 0.9)%E
    /\ block_at (SOC_const_ m) 0 = None.
Proof.
  eexists. split; [vm_compute; reflexivity|].
  repeat split; reflexivity.
Qed.

(** Rows in the order 2, 0, 1, 3: the rule of hour 0 reads [ESS_SOC[-1]]. *)
Example toy_shuffled_raises :
  create_instance (load toy_rows_shuffled)
  = Raise (LookupInvalid "ESS_SOC" (KInt (-1)))
  /\ exn_class (LookupInvalid "ESS_SOC" (KInt (-1))) = "KeyError".
Proof. split; [vm_compute; reflexivity | reflexivity]. Qed.

(** Rows in the order 0, 1, 3, 2: hours 0 and 3 both read the state of
    charge of hour 2, and discharging at hour 3 without any generation
    satisfies every constraint and every domain. *)
Example toy_swapped_rows :
  exists m,
    create_instance (late_demand_data 2) = Ok m
    /\ model_t (inst_model m) = [0; 1; 3; 2]%Z
    /\ block_at (SOC_const_ m) 0
       = Some (V (ESS_SOC 0)
               == V (ESS_SOC 2) + V (ESS_c 0) * Const 0.95
                  - V (ESS_d 0) / Const 0.9)%E
    /\ block_at (SOC_const_ m) 3
       = Some (V (ESS_SOC 3)
               == V (ESS_SOC 2) + V (ESS_c 3) * Const 0.95
                  - V (ESS_d 3) / Const 0.9)%E
    /\ feasible m (late_discharge 2)
    /\ late_discharge 2 (cap "s_cap") == 0
    /\ late_discharge 2 (cap "w_cap") == 0
    /\ late_discharge 2 (ESS_d 3) == 0.72.
Proof.
  destruct (create_instance_late_demand 1) as [m E]. exists m.
  split; [exact E|].
  pose proof (create_instance_Built _ _ E) as B.
  pose proof (model_t_late_demand _ _ E) as HT.
  split; [exact HT|].
  rewrite (built_soc _ _ _ B), HT.
  split; [reflexivity|]. split; [reflexivity|].
  split; [|repeat split; reflexivity].
  apply (feasible_lp _ _ _ _ B). rewrite HT. apply late_discharge_lp.
Qed.

Example toy_missing_cost_raises :
  create_instance_of costs_no_power toy_data
  = Raise (ParamUndefined "costs" (KStr "ESS_power_cap")).
Proof. vm_compute. reflexivity. Qed.

Example toy_solution_feasible :
  exists m,
    create_instance toy_data = Ok m
    /\ feasible m toy_solution
    /\ objective m toy_solution == 20000000000.
Proof.
  assert (Hex : exists m, create_instance toy_data = Ok m).
  { eexists. vm_compute. reflexivity. }
  destruct Hex as [m E]. exists m. split; [exact E|].
  pose proof (create_instance_Built _ _ E) as B.
  assert (HT : model_t (inst_model m) = [0; 1; 2; 3]%Z).
  { rewrite (built_t _ _ _ B). reflexivity. }
  split.
  - apply (feasible_lp _ _ _ _ B). rewrite HT.
    constructor; intros t Ht; simpl in Ht;
      try (destruct Ht as [<-|[<-|[<-|[<-|[]]]]]; simpl;
           first [discriminate | reflexivity]).
  - rewrite (objective_Built _ _ _ _ B), HT. reflexivity.
Qed.

(** * Further properties of the model *)

(** ** Energy accounting over the cycle *)

Lemma NoDup_model_t (costs0 : dict string) (data : DataPortal) (m : Instance) :
  Built costs0 data m -> NoDup (model_t (inst_model m)).
Proof. intros B. rewrite (built_t _ _ _ B). apply NoDup_Set_construct. Qed.

Section Accounting.

Variable T : list Z.
Variable data : DataPortal.
Variable s : assignment.
Hypothesis Hlp : lp_feasible T data s.

Lemma lp_soc_increment (t : Z) :
  In t T ->
  s (ESS_SOC t) == s (ESS_SOC (prev T t)) + soc_increment s t.
Proof.
  intros Ht. rewrite (lp_soc _ _ _ Hlp t Ht). unfold soc_increment. ring.
Qed.

Lemma charge_total_nonneg : 0 <= total T (fun t => s (ESS_c t)).
Proof.
  apply Qsum_nonneg. intros t Ht. apply (lp_ESS_c _ _ _ Hlp t Ht).
Qed.

Lemma net_load_bound (t : Z) :
  In t T ->
  series (data_demand data) t - generation data s t <= s (cap "ESS_power_cap")
  /\ series (data_demand data) t - generation data s t <= s (ESS_d t).
Proof.
  intros Ht. pose proof (lp_match _ _ _ Hlp t Ht) as H.
  pose proof (lp_rate _ _ _ Hlp t Ht). pose proof (lp_ESS_c _ _ _ Hlp t Ht).
  pose proof (lp_curt _ _ _ Hlp t Ht). unfold generation. split; lra.
Qed.

Lemma soc_swing_bound (t : Z) :
  In t T -> In (prev T t) T ->
  - (0.8 * s (cap "ESS_energy_cap")) <= soc_increment s t
  /\ soc_increment s t <= 0.8 * s (cap "ESS_energy_cap")
  /\ s (ESS_d t) <= 0.72 * s (cap "ESS_energy_cap") + 0.855 * s (ESS_c t).
Proof.
  intros Ht Hp. pose proof (lp_soc_increment t Ht) as H.
  pose proof (lp_max _ _ _ Hlp t Ht). pose proof (lp_min _ _ _ Hlp t Ht).
  pose proof (lp_max _ _ _ Hlp _ Hp). pose proof (lp_min _ _ _ Hlp _ Hp).
  unfold ESS_min_level in *.
  assert (Hi : soc_increment s t
               == 0.95 * s (ESS_c t) - (10 # 9) * s (ESS_d t)).
  { unfold soc_increment. rewrite Qdiv_eta_d. unfold ESS_eta_c. ring. }
  repeat split; lra.
Qed.

(** The three lemmas below need the increments to add up to zero, which
    holds on an index in clock order. *)
Hypothesis Hclosed : Qsum (map (soc_increment s) T) == 0.

Lemma discharge_total :
  total T (fun t => s (ESS_d t)) == 0.855 * total T (fun t => s (ESS_c t)).
Proof.
  unfold total. pose proof Hclosed as H.
  rewrite (Qsum_ext (soc_increment s)
             (fun t => 0.95 * s (ESS_c t) + (- (10 # 9)) * s (ESS_d t))) in H.
  - rewrite Qsum_plus, !Qsum_scale in H.
    set (C := Qsum (map (fun t => s (ESS_c t)) T)) in *.
    set (D := Qsum (map (fun t => s (ESS_d t)) T)) in *.
    lra.
  - intros t _. unfold soc_increment. rewrite Qdiv_eta_d.
    unfold ESS_eta_c. ring.
Qed.

Lemma generation_total :
  total T (generation data s)
  == total T (series (data_demand data))
     + total T (fun t => s (curt t))
     + 0.145 * total T (fun t => s (ESS_c t)).
Proof.
  pose proof discharge_total as HD. unfold total in *.
  rewrite (Qsum_ext (generation data s)
             (fun t => series (data_demand data) t
                       + (s (curt t) + (s (ESS_c t) + (- (1)) * s (ESS_d t))))).
  - rewrite !Qsum_plus, Qsum_scale, HD. ring.
  - intros t Ht. pose proof (lp_match _ _ _ Hlp t Ht) as H.
    unfold generation. lra.
Qed.

Lemma generation_covers_demand :
  total T (series (data_demand data)) <= total T (generation data s).
Proof.
  rewrite generation_total.
  pose proof charge_total_nonneg as HC.
  assert (HK : 0 <= total T (fun t => s (curt t))).
  { apply Qsum_nonneg. intros t Ht. apply (lp_curt _ _ _ Hlp t Ht). }
  lra.
Qed.

End Accounting.

Lemma feasible_lp_built (data : DataPortal) (m : Instance) (s : assignment) :
  create_instance data = Ok m ->
  feasible m s <-> lp_feasible (model_t (inst_model m)) data s.
Proof. intros H. apply (feasible_lp _ _ _ s (create_instance_Built _ _ H)). Qed.

Lemma clock_order_closed (T : list Z) (data : DataPortal) (s : assignment)
    (a : Z) (n : nat) :
  T = hours_from a n -> lp_feasible T data s ->
  Qsum (map (soc_increment s) T) == 0.
Proof.
  intros -> Hlp. apply soc_cycle_sum. intros t Ht.
  apply (lp_soc_increment _ _ _ Hlp t Ht).
Qed.

Lemma model_t_clock_order (w a D : Q) (m : Instance) :
  create_instance (constant_data hours_per_year w a D) = Ok m ->
  model_t (inst_model m) = hours_from 0 hours_per_year.
Proof.
  intros E. rewrite hours_from_0.
  apply (model_t_constant _ _ _ _ _ _ (create_instance_Built _ _ E)).
Qed.

(** X1: when the rows of the file are consecutive hours in ascending
    order, storage delivers over the index exactly 0.855 (charging
    efficiency times discharging efficiency) of the energy it was charged
    with, in every feasible solution; it never returns more than it took. *)
Theorem storage_round_trip (data : DataPortal) (m : Instance) (s : assignment)
    (a : Z) (n : nat) :
  create_instance data = Ok m ->
  model_t (inst_model m) = hours_from a n ->
  feasible m s ->
  total (model_t (inst_model m)) (fun t => s (ESS_d t))
  == 0.855 * total (model_t (inst_model m)) (fun t => s (ESS_c t))
  /\ total (model_t (inst_model m)) (fun t => s (ESS_d t))
     <= total (model_t (inst_model m)) (fun t => s (ESS_c t)).
Proof.
  intros H HT Hs. apply (feasible_lp_built _ _ _ H) in Hs.
  pose proof (clock_order_closed _ _ _ _ _ HT Hs) as Hcl.
  pose proof (discharge_total _ _ Hcl) as HD.
  pose proof (charge_total_nonneg _ _ _ Hs) as HC.
  split; [exact HD|]. lra.
Qed.

Lemma storage_round_trip_witness :
  exists m,
    create_instance (constant_data hours_per_year 0 1 10) = Ok m
    /\ model_t (inst_model m) = hours_from 0 hours_per_year
    /\ feasible m cycling_solution
    /\ total (model_t (inst_model m)) (fun t => cycling_solution (ESS_d t))
       == 0.855 * total (model_t (inst_model m))
                    (fun t => cycling_solution (ESS_c t)).
Proof.
  destruct sample_cycling as [m [E Hf]]. exists m.
  pose proof (model_t_clock_order _ _ _ _ E) as HT.
  split; [exact E|]. split; [exact HT|]. split; [exact Hf|].
  exact (proj1 (storage_round_trip _ m cycling_solution _ _ E HT Hf)).
Defined.

(** X2: when the rows of the file are consecutive hours in ascending
    order, in every feasible solution the renewable energy generated over
    the index equals the energy demanded plus the energy curtailed plus the
    storage losses, 0.145 of the energy charged; so generation is at least
    demand over the index. *)
Theorem annual_energy_balance (data : DataPortal) (m : Instance) (s : assignment)
    (a : Z) (n : nat) :
  create_instance data = Ok m ->
  model_t (inst_model m) = hours_from a n ->
  feasible m s ->
  total (model_t (inst_model m)) (generation data s)
  == total (model_t (inst_model m)) (series (data_demand data))
     + total (model_t (inst_model m)) (fun t => s (curt t))
     + 0.145 * total (model_t (inst_model m)) (fun t => s (ESS_c t))
  /\ total (model_t (inst_model m)) (series (data_demand data))
     <= total (model_t (inst_model m)) (generation data s).
Proof.
  intros H HT Hs. apply (feasible_lp_built _ _ _ H) in Hs.
  pose proof (clock_order_closed _ _ _ _ _ HT Hs) as Hcl.
  split; [apply (generation_total _ _ _ Hs Hcl)
         | apply (generation_covers_demand _ _ _ Hs Hcl)].
Qed.

Lemma annual_energy_balance_witness :
  exists m,
    create_instance (constant_data hours_per_year 0 1 10) = Ok m
    /\ model_t (inst_model m) = hours_from 0 hours_per_year
    /\ feasible m cycling_solution
    /\ total (model_t (inst_model m))
         (series (data_demand (constant_data hours_per_year 0 1 10)))
       <= total (model_t (inst_model m))
            (generation (constant_data hours_per_year 0 1 10) cycling_solution).
Proof.
  destruct sample_cycling as [m [E Hf]]. exists m.
  pose proof (model_t_clock_order _ _ _ _ E) as HT.
  split; [exact E|]. split; [exact HT|]. split; [exact Hf|].
  exact (proj2 (annual_energy_balance _ m cycling_solution _ _ E HT Hf)).
Defined.

Lemma no_generation_no_solution (T : list Z) (data : DataPortal) (s : assignment) :
  Qsum (map (soc_increment s) T) == 0 ->
  (forall t, In t T ->
     series (data_solar data) t == 0 /\ series (data_wind data) t == 0
     /\ 0 <= series (data_demand data) t) ->
  (exists t, In t T /\ 0 < series (data_demand data) t) ->
  ~ lp_feasible T data s.
Proof.
  intros Hcl Hzero [t0 [Ht0 Hpos]] Hs.
  pose proof (generation_covers_demand _ _ _ Hs Hcl) as Hcov.
  assert (Hgen : total T (generation data s) == 0).
  { apply Qsum_zero. intros t Ht. destruct (Hzero t Ht) as [H1 [H2 _]].
    unfold generation. rewrite H1, H2. ring. }
  assert (Hdem : 0 < total T (series (data_demand data))).
  { apply Qsum_pos with (a := t0); [|exact Ht0|exact Hpos].
    intros t Ht. apply (Hzero t Ht). }
  lra.
Qed.

(** X3: storage creates no energy on a file in clock order: when the rows
    are consecutive hours in ascending order, wind and solar factors are
    zero at every hour and demand is never negative and positive at some
    hour, the instance has no feasible solution, whatever capacities are
    installed.  With the last two rows exchanged such an instance has a
    feasible solution. *)
Theorem no_generation_infeasible (data : DataPortal) (m : Instance)
    (a : Z) (n : nat) :
  create_instance data = Ok m ->
  model_t (inst_model m) = hours_from a n ->
  (forall t, In t (model_t (inst_model m)) ->
     series (data_solar data) t == 0 /\ series (data_wind data) t == 0
     /\ 0 <= series (data_demand data) t) ->
  (exists t, In t (model_t (inst_model m)) /\ 0 < series (data_demand data) t) ->
  (forall s, ~ feasible m s)
  /\ exists m' s',
       create_instance (late_demand_data (hours_per_year - 2)) = Ok m'
       /\ (forall t, In t (model_t (inst_model m')) ->
             series (data_solar (late_demand_data (hours_per_year - 2))) t == 0
             /\ series (data_wind (late_demand_data (hours_per_year - 2))) t == 0)
       /\ 0 < series (data_demand (late_demand_data (hours_per_year - 2))) 8759
       /\ feasible m' s'.
Proof.
  intros H HT Hzero Hpos. split.
  - intros s Hs. apply (feasible_lp_built _ _ _ H) in Hs.
    pose proof (clock_order_closed _ _ _ _ _ HT Hs) as Hcl.
    exact (no_generation_no_solution _ _ s Hcl Hzero Hpos Hs).
  - assert (Hex : exists m',
              create_instance (late_demand_data (hours_per_year - 2)) = Ok m').
    { rewrite year_less_two. apply create_instance_late_demand. }
    destruct Hex as [m' E']. exists m', (late_discharge (hours_per_year - 2)).
    pose proof (model_t_late_demand _ _ E') as HT'.
    split; [exact E'|]. split; [|split].
    + intros t Ht. rewrite HT' in Ht.
      cbn [late_demand_data hourly_data data_solar data_wind].
      rewrite !series_tabulate by exact Ht. split; reflexivity.
    + cbn [late_demand_data hourly_data data_demand].
      rewrite series_tabulate
        by (apply In_swapped_hours; rewrite year_less_two_Z; lia).
      rewrite year_less_two_Z. reflexivity.
    + apply (feasible_lp_built _ _ _ E'). rewrite HT', year_less_two.
      apply late_discharge_lp.
Qed.

Lemma no_generation_infeasible_witness :
  exists m,
    create_instance (constant_data hours_per_year 0 0 10) = Ok m
    /\ model_t (inst_model m) = hours_from 0 hours_per_year
    /\ ~ feasible m churning_solution.
Proof.
  destruct (create_instance_constant hours_per_year 0 0 10) as [m E]. exists m.
  pose proof (model_t_clock_order _ _ _ _ E) as HT.
  split; [exact E|]. split; [exact HT|].
  apply (no_generation_infeasible _ m _ _ E HT).
  - intros t Ht. rewrite HT, hours_from_0 in Ht.
    unfold constant_data. cbn [data_solar data_wind data_demand].
    rewrite !series_constant by exact Ht. repeat split; discriminate.
  - exists 0%Z. split.
    + apply (model_hours _ _ _ m 0%Z E). lia.
    + unfold constant_data. cbn [data_demand].
      rewrite series_constant by (apply In_model_hours; lia). reflexivity.
Defined.

(** X4: in every feasible solution and at every hour, the demand that
    renewable generation does not cover is within the installed storage
    power capacity, and is met by discharge of that hour. *)
Theorem storage_power_covers_net_load (data : DataPortal) (m : Instance)
    (s : assignment) :
  create_instance data = Ok m ->
  feasible m s ->
  forall t, In t (model_t (inst_model m)) ->
    series (data_demand data) t - generation data s t <= s (cap "ESS_power_cap")
    /\ series (data_demand data) t - generation data s t <= s (ESS_d t).
Proof.
  intros H Hs t Ht.
  apply (feasible_lp_built _ _ _ H) in Hs.
  apply (net_load_bound _ _ _ Hs t Ht).
Qed.

Lemma storage_power_covers_net_load_witness :
  exists m,
    create_instance (constant_data hours_per_year 0 1 10) = Ok m
    /\ feasible m cycling_solution
    /\ series (data_demand (constant_data hours_per_year 0 1 10)) 7
       - generation (constant_data hours_per_year 0 1 10) cycling_solution 7
       <= cycling_solution (cap "ESS_power_cap").
Proof.
  destruct sample_cycling as [m [E Hf]]. exists m.
  split; [exact E|]. split; [exact Hf|].
  apply (storage_power_covers_net_load _ m cycling_solution E Hf 7%Z).
  apply (model_hours _ _ _ m 7%Z E). lia.
Defined.

(** X5: in every feasible solution the state of charge moves by at most 0.8
    of the installed energy capacity from one hour to the next (the part
    above the 0.20 floor), and the discharge of an hour is at most 0.72 of
    the energy capacity plus 0.855 of the charge of that hour. *)
Theorem usable_energy_bound (data : DataPortal) (m : Instance) (s : assignment) :
  create_instance data = Ok m ->
  feasible m s ->
  forall t, In t (model_t (inst_model m)) ->
    - (0.8 * s (cap "ESS_energy_cap"))
    <= s (ESS_c t) * 0.95 - s (ESS_d t) / 0.9
    /\ s (ESS_c t) * 0.95 - s (ESS_d t) / 0.9 <= 0.8 * s (cap "ESS_energy_cap")
    /\ s (ESS_d t) <= 0.72 * s (cap "ESS_energy_cap") + 0.855 * s (ESS_c t).
Proof.
  intros H Hs t Ht.
  pose proof (built_prev _ _ _ (create_instance_Built _ _ H) t Ht) as Hp.
  apply (feasible_lp_built _ _ _ H) in Hs.
  apply (soc_swing_bound _ _ _ Hs t Ht Hp).
Qed.

Lemma usable_energy_bound_witness :
  exists m,
    create_instance (constant_data hours_per_year 0 1 10) = Ok m
    /\ feasible m cycling_solution
    /\ cycling_solution (ESS_d 9)
       <= 0.72 * cycling_solution (cap "ESS_energy_cap")
          + 0.855 * cycling_solution (ESS_c 9).
Proof.
  destruct sample_cycling as [m [E Hf]]. exists m.
  split; [exact E|]. split; [exact Hf|].
  assert (Hin : In 9%Z (model_t (inst_model m))).
  { apply (model_hours _ _ _ m 9%Z E). lia. }
  exact (proj2 (proj2 (usable_energy_bound _ m cycling_solution E Hf 9%Z Hin))).
Defined.

(** ** Cost of a solution *)

Lemma costs_init_positive (k : string) :
  In k tech_keys -> 0 < cost_of costs_init k.
Proof.
  unfold tech_keys. simpl. intros [<-|[<-|[<-|[<-|[]]]]]; reflexivity.
Qed.

Lemma objective_built (data : DataPortal) (m : Instance) (s : assignment) :
  create_instance data = Ok m ->
  objective m s
  == Qsum (map (fun k => s (cap k) * cost_of costs_init k) tech_keys)
     + Qsum (map (fun t => s (ESS_d t) * ESS_p_var_cost
                           + s (curt t) * curtailment_cost)
                 (model_t (inst_model m))).
Proof. intros H. apply (objective_Built _ _ _ s (create_instance_Built _ _ H)). Qed.

Lemma capital_nonneg (costs0 : dict string) (T : list Z) (data : DataPortal)
    (s : assignment) :
  (forall k, In k tech_keys -> 0 <= cost_of costs0 k) ->
  lp_feasible T data s ->
  0 <= Qsum (map (fun k => s (cap k) * cost_of costs0 k) tech_keys).
Proof.
  intros Hc Hs. apply Qsum_nonneg. intros k Hk.
  apply Qmult_le_0_compat; [apply (lp_cap _ _ _ Hs k Hk) | apply Hc, Hk].
Qed.

Lemma costs_init_nonneg (k : string) : In k tech_keys -> 0 <= cost_of costs_init k.
Proof. intros Hk. apply Qlt_le_weak, costs_init_positive, Hk. Qed.

Lemma operation_nonneg (T : list Z) (data : DataPortal) (s : assignment) :
  lp_feasible T data s ->
  0 <= Qsum (map (fun t => s (ESS_d t) * ESS_p_var_cost
                           + s (curt t) * curtailment_cost) T).
Proof.
  intros Hs. apply Qsum_nonneg. intros t Ht.
  pose proof (lp_ESS_d _ _ _ Hs t Ht). pose proof (lp_curt _ _ _ Hs t Ht).
  unfold ESS_p_var_cost, curtailment_cost. lra.
Qed.

(** X6: the cost of a feasible solution is never below the capital cost of
    its capacities, which is never negative: the minimisation is bounded
    below by zero for every data set. *)
Theorem objective_bounded_below (data : DataPortal) (m : Instance) (s : assignment) :
  create_instance data = Ok m ->
  feasible m s ->
  0 <= s (cap "w_cap") * 1200000000 + s (cap "s_cap") * 800000000
       + s (cap "ESS_power_cap") * 200000000
       + s (cap "ESS_energy_cap") * 150000000
  /\ s (cap "w_cap") * 1200000000 + s (cap "s_cap") * 800000000
     + s (cap "ESS_power_cap") * 200000000
     + s (cap "ESS_energy_cap") * 150000000
     <= objective m s.
Proof.
  intros H Hs. apply (feasible_lp_built _ _ _ H) in Hs.
  pose proof (capital_nonneg _ _ _ _ costs_init_nonneg Hs) as Hc.
  pose proof (operation_nonneg _ _ _ Hs) as Ho.
  rewrite (objective_built _ _ s H). rewrite capital_sum in *.
  change (cost_of costs_init "w_cap") with 1200000000 in *.
  change (cost_of costs_init "s_cap") with 800000000 in *.
  change (cost_of costs_init "ESS_power_cap") with 200000000 in *.
  change (cost_of costs_init "ESS_energy_cap") with 150000000 in *.
  split; lra.
Qed.

Lemma objective_bounded_below_witness :
  exists m,
    create_instance (constant_data hours_per_year 0 1 10) = Ok m
    /\ feasible m cycling_solution
    /\ 0 * 1200000000 + 11 * 800000000 + 1 * 200000000 + 2 * 150000000
       <= objective m cycling_solution.
Proof.
  destruct sample_cycling as [m [E Hf]]. exists m.
  split; [exact E|]. split; [exact Hf|].
  exact (proj2 (objective_bounded_below _ m cycling_solution E Hf)).
Defined.

(** ** No demand *)

Lemma objective_nonneg (costs0 : dict string) (data : DataPortal)
    (m : Instance) (s : assignment) :
  Built costs0 data m ->
  (forall k, In k tech_keys -> 0 <= cost_of costs0 k) ->
  feasible m s -> 0 <= objective m s.
Proof.
  intros B Hc Hs. rewrite (objective_Built _ _ _ s B).
  apply (feasible_lp _ _ _ s B) in Hs.
  pose proof (capital_nonneg _ _ _ _ Hc Hs) as H1.
  pose proof (operation_nonneg _ _ _ Hs) as H2.
  lra.
Qed.

Lemma objective_zero_solution (costs0 : dict string) (data : DataPortal)
    (m : Instance) :
  Built costs0 data m -> objective m zero_solution == 0.
Proof.
  intros B. rewrite (objective_Built _ _ _ _ B).
  rewrite !Qsum_zero; [reflexivity | |]; intros x _; unfold zero_solution; ring.
Qed.

Lemma zero_solution_lp_no_demand (T : list Z) (data : DataPortal) :
  (forall t, In t T -> series (data_demand data) t == 0) ->
  lp_feasible T data zero_solution.
Proof.
  intros Hd. constructor; unfold zero_solution; intros t Ht;
    try apply Qle_refl.
  - rewrite (Hd t Ht). ring.
  - lra.
  - rewrite Qdiv_eta_d. ring.
Qed.

Lemma zero_cost_zero_solution (T : list Z) (data : DataPortal) (s : assignment) :
  lp_feasible T data s ->
  Qsum (map (fun k => s (cap k) * cost_of costs_init k) tech_keys)
  + Qsum (map (fun t => s (ESS_d t) * ESS_p_var_cost
                        + s (curt t) * curtailment_cost) T) <= 0 ->
  (forall k, In k tech_keys -> s (cap k) == 0)
  /\ (forall t, In t T ->
        s (ESS_SOC t) == 0 /\ s (ESS_c t) == 0
        /\ s (ESS_d t) == 0 /\ s (curt t) == 0).
Proof.
  intros Hs Hle.
  pose proof (capital_nonneg _ _ _ _ costs_init_nonneg Hs) as Hc.
  pose proof (operation_nonneg _ _ _ Hs) as Ho.
  assert (Hcap : forall k, In k tech_keys -> s (cap k) == 0).
  { intros k Hk.
    assert (Hz : s (cap k) * cost_of costs_init k == 0).
    { apply (Qsum_nonneg_zero (fun k => s (cap k) * cost_of costs_init k) tech_keys);
        [|lra|exact Hk].
      intros x Hx. apply Qmult_le_0_compat; [apply (lp_cap _ _ _ Hs x Hx)|].
      apply costs_init_nonneg, Hx. }
    pose proof (costs_init_positive k Hk) as Hpos.
    pose proof (lp_cap _ _ _ Hs k Hk) as Hnn.
    destruct (Qlt_le_dec 0 (s (cap k))) as [Hlt|Hge]; [|lra].
    assert (0 < s (cap k) * cost_of costs_init k)
      by (apply Qmult_lt_0_compat; assumption).
    lra. }
  split; [exact Hcap|]. intros t Ht.
  assert (Hop : s (ESS_d t) * ESS_p_var_cost + s (curt t) * curtailment_cost == 0).
  { apply (Qsum_nonneg_zero
             (fun t => s (ESS_d t) * ESS_p_var_cost + s (curt t) * curtailment_cost)
             T); [|lra|exact Ht].
    intros x Hx. pose proof (lp_ESS_d _ _ _ Hs x Hx).
    pose proof (lp_curt _ _ _ Hs x Hx).
    unfold ESS_p_var_cost, curtailment_cost. lra. }
  unfold ESS_p_var_cost, curtailment_cost in Hop.
  pose proof (lp_ESS_d _ _ _ Hs t Ht). pose proof (lp_curt _ _ _ Hs t Ht).
  pose proof (lp_ESS_c _ _ _ Hs t Ht). pose proof (lp_ESS_SOC _ _ _ Hs t Ht).
  pose proof (lp_rate _ _ _ Hs t Ht). pose proof (lp_max _ _ _ Hs t Ht).
  assert (HP : s (cap "ESS_power_cap") == 0).
  { apply Hcap. unfold tech_keys. simpl. tauto. }
  assert (HE : s (cap "ESS_energy_cap") == 0).
  { apply Hcap. unfold tech_keys. simpl. tauto. }
  repeat split; lra.
Qed.

(** X7: when demand is zero at every hour, building and running nothing is
    optimal at cost zero, and it is the only optimum: every optimal solution
    has all four capacities and all hourly variables equal to zero. *)
Theorem no_demand_unique_optimum (data : DataPortal) (m : Instance) :
  create_instance data = Ok m ->
  (forall t, In t (model_t (inst_model m)) -> series (data_demand data) t == 0) ->
  optimal m zero_solution
  /\ objective m zero_solution == 0
  /\ forall s, optimal m s ->
       objective m s == 0
       /\ (forall k, In k (model_tech (inst_model m)) -> s (cap k) == 0)
       /\ (forall t, In t (model_t (inst_model m)) ->
             s (ESS_SOC t) == 0 /\ s (ESS_c t) == 0
             /\ s (ESS_d t) == 0 /\ s (curt t) == 0).
Proof.
  intros H Hd. pose proof (create_instance_Built _ _ H) as B.
  rewrite (built_tech _ _ _ B).
  assert (Hz : feasible m zero_solution).
  { apply (feasible_lp_built _ _ _ H). now apply zero_solution_lp_no_demand. }
  assert (Hz0 : objective m zero_solution == 0)
    by apply (objective_zero_solution _ _ _ B).
  assert (Hnn : forall s, feasible m s -> 0 <= objective m s).
  { intros s Hs. apply (objective_nonneg _ _ _ s B); [|exact Hs].
    exact costs_init_nonneg. }
  split; [|split; [exact Hz0|]].
  - split; [exact Hz|]. intros s' Hs'. rewrite Hz0. now apply Hnn.
  - intros s [Hs Hopt].
    pose proof (Hopt _ Hz) as Hle. rewrite Hz0 in Hle.
    pose proof (Hnn s Hs) as Hge.
    split; [lra|].
    apply (feasible_lp_built _ _ _ H) in Hs.
    apply (zero_cost_zero_solution _ _ _ Hs).
    rewrite <- (objective_built _ _ s H). exact Hle.
Qed.

Lemma no_demand_unique_optimum_witness :
  exists m,
    create_instance (constant_data hours_per_year 1 1 0) = Ok m
    /\ optimal m zero_solution
    /\ objective m zero_solution == 0.
Proof.
  destruct (create_instance_constant hours_per_year 1 1 0) as [m E]. exists m.
  split; [exact E|].
  destruct (no_demand_unique_optimum _ m E) as [Ho [Hv _]].
  - intros t Ht.
    rewrite (model_t_constant _ _ _ _ _ _ (create_instance_Built _ _ E)) in Ht.
    unfold constant_data. cbn [data_demand].
    rewrite series_constant by exact Ht. reflexivity.
  - split; [exact Ho | exact Hv].
Defined.

(** ** Charging and discharging in the same hour *)

Section Unchurn.

Variable T : list Z.
Variable data : DataPortal.
Variable s : assignment.
Variable t0 : Z.
Variable delta : Q.
Hypothesis Hlp : lp_feasible T data s.
Hypothesis HT : NoDup T.
Hypothesis Ht0 : In t0 T.
Hypothesis Hdelta : 0 <= delta.
Hypothesis Hc : delta <= s (ESS_c t0).
Hypothesis Hd : 0.855 * delta <= s (ESS_d t0).

Lemma unchurned_lp : lp_feasible T data (unchurned t0 delta s).
Proof.
  constructor; intros t Ht; cbn [unchurned].
  - apply (lp_cap _ _ _ Hlp t Ht).
  - apply (lp_ESS_SOC _ _ _ Hlp t Ht).
  - pose proof (lp_ESS_c _ _ _ Hlp t Ht).
    destruct (Z.eqb_spec t t0) as [->|_]; lra.
  - pose proof (lp_ESS_d _ _ _ Hlp t Ht).
    destruct (Z.eqb_spec t t0) as [->|_]; lra.
  - pose proof (lp_curt _ _ _ Hlp t Ht).
    destruct (Z.eqb_spec t t0) as [->|_]; lra.
  - pose proof (lp_match _ _ _ Hlp t Ht).
    destruct (Z.eqb_spec t t0) as [->|_]; lra.
  - pose proof (lp_rate _ _ _ Hlp t Ht).
    destruct (Z.eqb_spec t t0) as [->|_]; lra.
  - apply (lp_max _ _ _ Hlp t Ht).
  - apply (lp_min _ _ _ Hlp t Ht).
  - pose proof (lp_soc _ _ _ Hlp t Ht) as H.
    rewrite Qdiv_eta_d in H. rewrite Qdiv_eta_d. unfold ESS_eta_c in *.
    destruct (Z.eqb_spec t t0) as [->|_]; lra.
Qed.

Lemma unchurned_operation :
  Qsum (map (fun t => unchurned t0 delta s (ESS_d t) * ESS_p_var_cost
                      + unchurned t0 delta s (curt t) * curtailment_cost) T)
  == Qsum (map (fun t => s (ESS_d t) * ESS_p_var_cost
                         + s (curt t) * curtailment_cost) T)
     + - (4130 * delta).
Proof.
  apply Qsum_update with (t0 := t0); [exact HT | exact Ht0 | |].
  - intros t Hne. cbn [unchurned].
    destruct (Z.eqb_spec t t0); [contradiction | reflexivity].
  - cbn [unchurned]. rewrite Z.eqb_refl.
    unfold ESS_p_var_cost, curtailment_cost. ring.
Qed.

End Unchurn.

Lemma churn_improvable (data : DataPortal) (m : Instance) (s : assignment) (t : Z) :
  create_instance data = Ok m ->
  feasible m s -> In t (model_t (inst_model m)) ->
  0 < s (ESS_c t) -> 0 < s (ESS_d t) ->
  exists s', feasible m s' /\ objective m s' < objective m s.
Proof.
  intros H Hs Ht Hc Hd.
  pose proof (proj1 (feasible_lp_built _ _ _ H) Hs) as Hlp.
  pose proof (NoDup_model_t _ _ _ (create_instance_Built _ _ H)) as Hnd.
  assert (Hex : exists delta, 0 < delta /\ delta <= s (ESS_c t)
                              /\ 0.855 * delta <= s (ESS_d t)).
  { destruct (Qlt_le_dec (s (ESS_d t)) (s (ESS_c t))) as [Hlt|Hle].
    - exists (s (ESS_d t)). repeat split; lra.
    - exists (s (ESS_c t)). repeat split; lra. }
  destruct Hex as [delta [Hpos [Hdc Hdd]]].
  exists (unchurned t delta s). split.
  - apply (feasible_lp_built _ _ _ H).
    apply unchurned_lp; try assumption. lra.
  - rewrite !(objective_built _ _ _ H).
    rewrite (unchurned_operation _ s t delta Hnd Ht).
    cbn [unchurned].
    set (K := Qsum (map (fun k => s (cap k) * cost_of costs_init k) tech_keys)).
    set (O := Qsum (map (fun t1 => s (ESS_d t1) * ESS_p_var_cost
                                   + s (curt t1) * curtailment_cost)
                        (model_t (inst_model m)))).
    lra.
Qed.

(** X8: an optimal solution never charges and discharges in the same hour:
    at every hour charge or discharge is zero, because undoing the overlap
    keeps every constraint and saves 4130 per unit of charge undone. *)
Theorem no_churn_at_optimum (data : DataPortal) (m : Instance) (s : assignment) :
  create_instance data = Ok m ->
  optimal m s ->
  forall t, In t (model_t (inst_model m)) ->
    s (ESS_c t) == 0 \/ s (ESS_d t) == 0.
Proof.
  intros H [Hs Hopt] t Ht.
  pose proof (proj1 (feasible_lp_built _ _ _ H) Hs) as Hlp.
  pose proof (lp_ESS_c _ _ _ Hlp t Ht) as Hc.
  pose proof (lp_ESS_d _ _ _ Hlp t Ht) as Hd.
  destruct (Qlt_le_dec 0 (s (ESS_c t))) as [Hcp|Hcz]; [|left; lra].
  destruct (Qlt_le_dec 0 (s (ESS_d t))) as [Hdp|Hdz]; [|right; lra].
  exfalso.
  destruct (churn_improvable _ _ _ _ H Hs Ht Hcp Hdp) as [s' [Hs' Hlt]].
  pose proof (Hopt s' Hs'). lra.
Qed.

(** ** Flat profiles *)

Section Flat.

Variable n : nat.
Variables w a D : Q.
Hypothesis Hn : range n <> [].
Hypothesis Ha : 0 < a.
Hypothesis Hw : 0 <= w.
Hypothesis HD : 0 <= D.

Lemma flat_size_nonneg : 0 <= D / a.
Proof.
  unfold Qdiv. apply Qmult_le_0_compat; [exact HD|].
  apply Qinv_le_0_compat, Qlt_le_weak, Ha.
Qed.

Lemma flat_solution_lp :
  lp_feasible (range n) (constant_data n w a D) (flat_solution a D).
Proof.
  pose proof flat_size_nonneg as Hs.
  constructor; intros t Ht; cbn [flat_solution].
  - unfold tech_keys in Ht. simpl in Ht.
    destruct Ht as [<-|[<-|[<-|[<-|[]]]]]; simpl; first [exact Hs | apply Qle_refl].
  - apply Qle_refl.
  - apply Qle_refl.
  - apply Qle_refl.
  - apply Qle_refl.
  - unfold constant_data. cbn [data_solar data_wind data_demand].
    rewrite !series_constant by exact Ht. simpl String.eqb. cbv iota.
    field. intros Hz. rewrite Hz in Ha. discriminate.
  - simpl String.eqb. cbv iota. lra.
  - simpl String.eqb. cbv iota. apply Qle_refl.
  - simpl String.eqb. cbv iota. unfold ESS_min_level. lra.
  - rewrite Qdiv_eta_d. ring.
Qed.

Lemma flat_generation_needed (s : assignment) :
  lp_feasible (range n) (constant_data n w a D) s ->
  D <= a * s (cap "s_cap") + w * s (cap "w_cap").
Proof.
  intros Hs.
  assert (Hcl : Qsum (map (soc_increment s) (range n)) == 0).
  { apply (clock_order_closed _ _ _ 0 n (eq_sym (hours_from_0 n)) Hs). }
  pose proof (generation_covers_demand _ _ _ Hs Hcl) as H.
  unfold total in H.
  rewrite (Qsum_ext (series (data_demand (constant_data n w a D))) (fun _ => D)),
    (Qsum_ext (generation (constant_data n w a D) s)
       (fun _ => a * s (cap "s_cap") + w * s (cap "w_cap"))) in H.
  - apply (Qsum_const_le _ _ _ Hn H).
  - intros t Ht. unfold generation, constant_data. cbn [data_solar data_wind].
    rewrite !series_constant by exact Ht. reflexivity.
  - intros t Ht. unfold constant_data. cbn [data_demand].
    rewrite series_constant by exact Ht. reflexivity.
Qed.

End Flat.

Lemma range_year_nonempty : range hours_per_year <> [].
Proof. rewrite hours_per_year_S. discriminate. Qed.

Lemma flat_solution_optimal_of (costs0 : dict string) (w a D : Q) (m : Instance) :
  create_instance_of costs0 (constant_data hours_per_year w a D) = Ok m ->
  (forall k, In k tech_keys -> 0 <= cost_of costs0 k) ->
  0 < a -> 0 <= w -> 0 <= D ->
  cost_of costs0 "s_cap" * w <= cost_of costs0 "w_cap" * a ->
  optimal m (flat_solution a D)
  /\ objective m (flat_solution a D) == cost_of costs0 "s_cap" * (D / a).
Proof.
  intros H Hcost Ha Hw HD Hcheap.
  pose proof (create_instance_of_Built _ _ _ H) as B.
  pose proof (model_t_constant _ _ _ _ _ _ B) as HT.
  assert (Hobj : objective m (flat_solution a D) == cost_of costs0 "s_cap" * (D / a)).
  { rewrite (objective_Built _ _ _ _ B), capital_sum.
    rewrite Qsum_zero.
    - cbn [flat_solution]. simpl String.eqb. cbv iota. ring.
    - intros t _. cbn [flat_solution]. ring. }
  split; [|exact Hobj]. split.
  - apply (feasible_constant _ _ _ _ _ _ _ B).
    apply flat_solution_lp; assumption.
  - intros s Hs. rewrite Hobj.
    apply (feasible_constant _ _ _ _ _ _ _ B) in Hs.
    pose proof (flat_generation_needed _ w a D range_year_nonempty s Hs) as Hgen.
    pose proof (operation_nonneg _ _ _ Hs) as Hop.
    rewrite (objective_Built _ _ _ s B), capital_sum, HT.
    assert (HcS : 0 <= s (cap "s_cap"))
      by (apply (lp_cap _ _ _ Hs); unfold tech_keys; simpl; tauto).
    assert (HcW : 0 <= s (cap "w_cap"))
      by (apply (lp_cap _ _ _ Hs); unfold tech_keys; simpl; tauto).
    assert (HcP : 0 <= s (cap "ESS_power_cap"))
      by (apply (lp_cap _ _ _ Hs); unfold tech_keys; simpl; tauto).
    assert (HcE : 0 <= s (cap "ESS_energy_cap"))
      by (apply (lp_cap _ _ _ Hs); unfold tech_keys; simpl; tauto).
    assert (KS : 0 <= cost_of costs0 "s_cap")
      by (apply Hcost; unfold tech_keys; simpl; tauto).
    assert (KW : 0 <= cost_of costs0 "w_cap")
      by (apply Hcost; unfold tech_keys; simpl; tauto).
    assert (KP : 0 <= cost_of costs0 "ESS_power_cap")
      by (apply Hcost; unfold tech_keys; simpl; tauto).
    assert (KE : 0 <= cost_of costs0 "ESS_energy_cap")
      by (apply Hcost; unfold tech_keys; simpl; tauto).
    set (cS := cost_of costs0 "s_cap") in *.
    set (cW := cost_of costs0 "w_cap") in *.
    set (cP := cost_of costs0 "ESS_power_cap") in *.
    set (cE := cost_of costs0 "ESS_energy_cap") in *.
    assert (HP : 0 <= s (cap "ESS_power_cap") * cP)
      by (apply Qmult_le_0_compat; assumption).
    assert (HE : 0 <= s (cap "ESS_energy_cap") * cE)
      by (apply Qmult_le_0_compat; assumption).
    apply Qle_trans with (y := s (cap "w_cap") * cW + s (cap "s_cap") * cS);
      [|lra].
    assert (Hdiv : cS * (D / a) == (cS * D) / a)
      by (field; intros Hz; rewrite Hz in Ha; discriminate).
    rewrite Hdiv. apply Qle_shift_div_r; [exact Ha|].
    assert (H1 : cS * D <= cS * (a * s (cap "s_cap") + w * s (cap "w_cap")))
      by (apply Qmult_le_l_nonneg; assumption).
    assert (H2 : (cS * w) * s (cap "w_cap") <= (cW * a) * s (cap "w_cap"))
      by (apply Qmult_le_compat_r; assumption).
    lra.
Qed.

Lemma flat_solution_optimal (w a D : Q) (m : Instance) :
  create_instance (constant_data hours_per_year w a D) = Ok m ->
  0 < a -> 0 <= w -> 0 <= D ->
  800000000 * w <= 1200000000 * a ->
  optimal m (flat_solution a D)
  /\ objective m (flat_solution a D) == 800000000 * (D / a).
Proof.
  intros H Ha Hw HD Hcheap. rewrite create_instance_costs_init in H.
  pose proof (flat_solution_optimal_of costs_init w a D m H costs_init_nonneg
                Ha Hw HD) as Hopt.
  change (cost_of costs_init "s_cap") with 800000000 in Hopt.
  change (cost_of costs_init "w_cap") with 1200000000 in Hopt.
  exact (Hopt Hcheap).
Qed.

(** X9: under constant wind and solar factors and a flat demand, when solar
    capacity is the cheaper source per unit delivered
    ([800000000 * wind <= 1200000000 * solar]), installing solar capacity
    [demand / solar] and nothing else is optimal, at cost
    [800000000 * demand / solar]: flat profiles need no storage. *)
Theorem flat_profile_optimum (w a D : Q) (m : Instance) :
  create_instance (constant_data hours_per_year w a D) = Ok m ->
  0 < a -> 0 <= w -> 0 <= D ->
  800000000 * w <= 1200000000 * a ->
  optimal m (flat_solution a D)
  /\ objective m (flat_solution a D) == 800000000 * (D / a).
Proof. apply flat_solution_optimal. Qed.

Lemma flat_profile_optimum_witness :
  exists m,
    create_instance (constant_data hours_per_year 0 1 10) = Ok m
    /\ optimal m (flat_solution 1 10)
    /\ objective m (flat_solution 1 10) == 800000000 * (10 / 1).
Proof.
  destruct (create_instance_constant hours_per_year 0 1 10) as [m E]. exists m.
  split; [exact E|].
  apply (flat_profile_optimum 0 1 10 m E); Qconst.
Defined.

Lemma sample_flat_optimum :
  exists m, create_instance (constant_data hours_per_year 0 1 10) = Ok m
            /\ optimal m (flat_solution 1 10).
Proof.
  destruct (create_instance_constant hours_per_year 0 1 10) as [m E]. exists m.
  split; [exact E|].
  apply (flat_solution_optimal 0 1 10 m E); Qconst.
Qed.

Lemma no_churn_at_optimum_witness :
  exists m,
    create_instance (constant_data hours_per_year 0 1 10) = Ok m
    /\ optimal m (flat_solution 1 10)
    /\ (flat_solution 1 10 (ESS_c 5) == 0 \/ flat_solution 1 10 (ESS_d 5) == 0).
Proof.
  destruct sample_flat_optimum as [m [E Ho]]. exists m.
  split; [exact E|]. split; [exact Ho|].
  apply (no_churn_at_optimum _ m _ E Ho 5%Z).
  apply (model_hours _ _ _ m 5%Z E). lia.
Defined.

(** ** Monotonicity of the optimal cost *)

Lemma feasible_any_costs (costs1 costs2 : dict string)
    (data : DataPortal) (m1 m2 : Instance) (s : assignment) :
  Built costs1 data m1 -> Built costs2 data m2 ->
  feasible m1 s <-> feasible m2 s.
Proof.
  intros B1 B2.
  rewrite (feasible_lp _ _ _ s B1), (feasible_lp _ _ _ s B2).
  rewrite (built_t _ _ _ B1), (built_t _ _ _ B2). reflexivity.
Qed.

Lemma cost_of_Built (costs0 : dict string) (data : DataPortal)
    (m : Instance) (k : string) :
  Built costs0 data m -> In k tech_keys ->
  model_costs (inst_model m) k = Some (cost_of costs0 k).
Proof.
  intros B Hk. rewrite (built_costs_param _ _ _ B). unfold cost_of.
  pose proof (built_costs _ _ _ B k Hk).
  destruct (dict_get String.eqb costs0 k); congruence.
Qed.

(** C10: for the same data, if the cost table of one instance is at least
    the cost table of another at every technology, then the optimal value of
    the objective under the larger table is at least the optimal value
    under the smaller one. *)
Theorem optimal_cost_monotone (data : DataPortal) (costs1 costs2 : dict string)
    (m1 m2 : Instance) (s1 s2 : assignment) :
  create_instance_of costs1 data = Ok m1 ->
  create_instance_of costs2 data = Ok m2 ->
  (forall k c1 c2,
     model_costs (inst_model m1) k = Some c1 ->
     model_costs (inst_model m2) k = Some c2 -> c1 <= c2) ->
  optimal m1 s1 -> optimal m2 s2 ->
  objective m1 s1 <= objective m2 s2.
Proof.
  intros H1 H2 Hle [_ Hopt1] [Hf2 _].
  pose proof (create_instance_of_Built _ _ _ H1) as B1.
  pose proof (create_instance_of_Built _ _ _ H2) as B2.
  apply Qle_trans with (y := objective m1 s2).
  - apply Hopt1. apply (feasible_any_costs _ _ _ _ _ s2 B1 B2). exact Hf2.
  - rewrite (objective_Built _ _ _ s2 B1), (objective_Built _ _ _ s2 B2).
    rewrite (built_t _ _ _ B1), (built_t _ _ _ B2).
    apply Qplus_le_compat; [|apply Qle_refl].
    apply (feasible_lp _ _ _ s2 B2) in Hf2.
    apply Qsum_le. intros k Hk.
    pose proof (lp_cap _ _ _ Hf2 k Hk) as Hcap.
    pose proof (Hle k _ _ (cost_of_Built _ _ _ k B1 Hk)
                  (cost_of_Built _ _ _ k B2 Hk)) as Hc.
    nra.
Qed.

Lemma costs_dear_solar_within : keys_within tech_keys costs_dear_solar.
Proof. intros k Hk. simpl in Hk. unfold tech_keys. simpl. tauto. Qed.

Lemma costs_dear_solar_cover : costs_cover costs_dear_solar.
Proof.
  intros k Hk. apply In_tech_keys in Hk.
  destruct Hk as [->|[->|[->| ->]]]; discriminate.
Qed.

Lemma costs_dear_solar_nonneg (k : string) :
  In k tech_keys -> 0 <= cost_of costs_dear_solar k.
Proof.
  intros Hk. apply In_tech_keys in Hk.
  destruct Hk as [->|[->|[->| ->]]]; discriminate.
Qed.

Lemma costs_dear_solar_dearer (k : string) (c1 c2 : Q) :
  dict_get String.eqb costs_init k = Some c1 ->
  dict_get String.eqb costs_dear_solar k = Some c2 -> c1 <= c2.
Proof.
  unfold costs_init, costs_dear_solar. cbn [dict_get]. intros Hc1 Hc2.
  destruct (String.eqb "s_cap" k);
    [inversion Hc1; inversion Hc2; subst; discriminate|].
  destruct (String.eqb "w_cap" k);
    [inversion Hc1; inversion Hc2; subst; apply Qle_refl|].
  destruct (String.eqb "ESS_power_cap" k);
    [inversion Hc1; inversion Hc2; subst; apply Qle_refl|].
  destruct (String.eqb "ESS_energy_cap" k);
    [inversion Hc1; inversion Hc2; subst; apply Qle_refl|].
  discriminate.
Qed.

Lemma optimal_cost_monotone_witness :
  exists m1 m2,
    create_instance_of costs_init (constant_data hours_per_year 0 1 10) = Ok m1
    /\ create_instance_of costs_dear_solar (constant_data hours_per_year 0 1 10)
       = Ok m2
    /\ model_costs (inst_model m1) "s_cap" = Some 800000000
    /\ model_costs (inst_model m2) "s_cap" = Some 900000000
    /\ optimal m1 (flat_solution 1 10) /\ optimal m2 (flat_solution 1 10)
    /\ flat_solution 1 10 (cap "s_cap") == 10
    /\ objective m1 (flat_solution 1 10) == 8000000000
    /\ objective m2 (flat_solution 1 10) == 9000000000
    /\ objective m1 (flat_solution 1 10) <= objective m2 (flat_solution 1 10).
Proof.
  destruct (create_instance_of_constant costs_init hours_per_year 0 1 10
              costs_init_within costs_init_cover) as [m1 E1].
  destruct (create_instance_of_constant costs_dear_solar hours_per_year 0 1 10
              costs_dear_solar_within costs_dear_solar_cover) as [m2 E2].
  exists m1, m2. split; [exact E1|]. split; [exact E2|].
  pose proof (create_instance_of_Built _ _ _ E1) as B1.
  pose proof (create_instance_of_Built _ _ _ E2) as B2.
  split; [rewrite (built_costs_param _ _ _ B1); reflexivity|].
  split; [rewrite (built_costs_param _ _ _ B2); reflexivity|].
  destruct (flat_solution_optimal_of costs_init 0 1 10 m1 E1 costs_init_nonneg)
    as [O1 V1]; try Qconst.
  destruct (flat_solution_optimal_of costs_dear_solar 0 1 10 m2 E2
              costs_dear_solar_nonneg) as [O2 V2]; try Qconst.
  split; [exact O1|]. split; [exact O2|].
  split; [reflexivity|].
  split; [rewrite V1; reflexivity|].
  split; [rewrite V2; reflexivity|].
  apply (optimal_cost_monotone _ _ _ m1 m2 _ _ E1 E2); [|exact O1|exact O2].
  intros k c1 c2 Hc1 Hc2.
  rewrite (built_costs_param _ _ _ B1) in Hc1.
  rewrite (built_costs_param _ _ _ B2) in Hc2.
  exact (costs_dear_solar_dearer k c1 c2 Hc1 Hc2).
Defined.

(** ** Scaling the demand *)

Lemma scaled_lp (T : list Z) (k : Q) (data data' : DataPortal) (s : assignment) :
  0 <= k ->
  (forall t, In t T ->
     series (data_solar data') t == series (data_solar data) t
     /\ series (data_wind data') t == series (data_wind data) t
     /\ series (data_demand data') t == k * series (data_demand data) t) ->
  lp_feasible T data s -> lp_feasible T data' (scaled k s).
Proof.
  intros Hk Hd Hs. constructor; intros t Ht; unfold scaled.
  - apply Qmult_le_0_compat; [exact Hk | apply (lp_cap _ _ _ Hs t Ht)].
  - apply Qmult_le_0_compat; [exact Hk | apply (lp_ESS_SOC _ _ _ Hs t Ht)].
  - apply Qmult_le_0_compat; [exact Hk | apply (lp_ESS_c _ _ _ Hs t Ht)].
  - apply Qmult_le_0_compat; [exact Hk | apply (lp_ESS_d _ _ _ Hs t Ht)].
  - apply Qmult_le_0_compat; [exact Hk | apply (lp_curt _ _ _ Hs t Ht)].
  - destruct (Hd t Ht) as [H1 [H2 H3]]. rewrite H1, H2, H3.
    pose proof (lp_match _ _ _ Hs t Ht) as H.
    transitivity (k * (series (data_solar data) t * s (cap "s_cap")
                       + series (data_wind data) t * s (cap "w_cap")
                       + s (ESS_d t) - s (ESS_c t) - s (curt t)
                       - series (data_demand data) t)); [ring|].
    rewrite H. ring.
  - pose proof (lp_rate _ _ _ Hs t Ht) as H.
    rewrite <- Qmult_plus_distr_r. apply Qmult_le_l_nonneg; assumption.
  - pose proof (lp_max _ _ _ Hs t Ht) as H.
    apply Qmult_le_l_nonneg; assumption.
  - pose proof (lp_min _ _ _ Hs t Ht) as H.
    apply Qle_trans with (y := k * (ESS_min_level * s (cap "ESS_energy_cap")));
      [apply Qle_lteq; right; ring | apply Qmult_le_l_nonneg; assumption].
  - pose proof (lp_soc _ _ _ Hs t Ht) as H.
    rewrite H, !Qdiv_eta_d. ring.
Qed.

Lemma scaled_objective (k : Q) (data data' : DataPortal)
    (m m' : Instance) (s : assignment) :
  Built costs_init data m -> Built costs_init data' m' ->
  data_t data' = data_t data ->
  objective m' (scaled k s) == k * objective m s.
Proof.
  intros B B' Ht.
  rewrite (objective_Built _ _ _ _ B), (objective_Built _ _ _ _ B').
  rewrite (built_t _ _ _ B), (built_t _ _ _ B'), Ht.
  rewrite (Qsum_ext (fun x => scaled k s (cap x) * cost_of costs_init x)
             (fun x => k * (s (cap x) * cost_of costs_init x)))
    by (intros x _; unfold scaled; ring).
  rewrite (Qsum_ext (fun t => scaled k s (ESS_d t) * ESS_p_var_cost
                              + scaled k s (curt t) * curtailment_cost)
             (fun t => k * (s (ESS_d t) * ESS_p_var_cost
                            + s (curt t) * curtailment_cost)))
    by (intros x _; unfold scaled; ring).
  rewrite !Qsum_scale. ring.
Qed.

Lemma demand_scaled_inv (k : Q) (data data' : DataPortal) :
  0 < k -> demand_scaled k data data' -> demand_scaled (/ k) data' data.
Proof.
  intros Hk [Ht Hd]. split; [symmetry; exact Ht|].
  intros t Hin. rewrite Ht in Hin. destruct (Hd t Hin) as [H1 [H2 H3]].
  rewrite H1, H2, H3. repeat split; try reflexivity.
  field. intros Hz. rewrite Hz in Hk. discriminate.
Qed.

Lemma scaled_feasible (k : Q) (data data' : DataPortal)
    (m m' : Instance) (s : assignment) :
  Built costs_init data m -> Built costs_init data' m' ->
  0 <= k -> demand_scaled k data data' ->
  feasible m s -> feasible m' (scaled k s).
Proof.
  intros B B' Hk [Ht Hd] Hs.
  apply (feasible_lp _ _ _ _ B'). apply (feasible_lp _ _ _ _ B) in Hs.
  rewrite (built_t _ _ _ B) in Hs. rewrite (built_t _ _ _ B'), Ht.
  apply (scaled_lp _ k data data'); [exact Hk | | exact Hs].
  intros t Hin. apply Hd. now apply In_Set_construct.
Qed.

Lemma scaled_optimal (k : Q) (data data' : DataPortal)
    (m m' : Instance) (s : assignment) :
  Built costs_init data m -> Built costs_init data' m' ->
  0 < k -> demand_scaled k data data' ->
  optimal m s -> optimal m' (scaled k s).
Proof.
  intros B B' Hk Hd [Hs Hopt]. split.
  - apply (scaled_feasible k data data' m m' s B B'); [lra | exact Hd | exact Hs].
  - intros s' Hs'.
    assert (Hback : feasible m (scaled (/ k) s')).
    { apply (scaled_feasible (/ k) data' data m' m s' B' B).
      - apply Qlt_le_weak, Qinv_lt_0_compat, Hk.
      - now apply demand_scaled_inv.
      - exact Hs'. }
    pose proof (Hopt _ Hback) as Hle.
    rewrite (scaled_objective (/ k) data' data m' m s' B' B)
      in Hle by (symmetry; apply (proj1 Hd)).
    rewrite (scaled_objective k data data' m m' s B B' (proj1 Hd)).
    apply Qle_trans with (y := k * (/ k * objective m' s')).
    + now apply Qmult_le_l_nonneg; [|lra].
    + apply Qle_lteq. right. field. intros Hz. rewrite Hz in Hk. discriminate.
Qed.

(** X10: the model has no scale of its own: when a second file has the
    same hours in the same order, the same wind and solar factors and [k > 0]
    times the demand at every hour, every feasible solution multiplied by
    [k] is feasible for the new data at [k] times the cost, and optimal
    solutions go to optimal solutions. *)
Theorem demand_scaling (k : Q) (data data' : DataPortal) (m m' : Instance) :
  create_instance data = Ok m ->
  create_instance data' = Ok m' ->
  0 < k ->
  data_t data' = data_t data ->
  (forall t, In t (data_t data) ->
     series (data_solar data') t == series (data_solar data) t
     /\ series (data_wind data') t == series (data_wind data) t
     /\ series (data_demand data') t == k * series (data_demand data) t) ->
  model_t (inst_model m') = model_t (inst_model m)
  /\ forall s,
       (feasible m s -> feasible m' (scaled k s))
       /\ objective m' (scaled k s) == k * objective m s
       /\ (optimal m s -> optimal m' (scaled k s)).
Proof.
  intros H H' Hk Ht Hd.
  pose proof (create_instance_Built _ _ H) as B.
  pose proof (create_instance_Built _ _ H') as B'.
  assert (Hsc : demand_scaled k data data') by (split; assumption).
  split; [rewrite (built_t _ _ _ B), (built_t _ _ _ B'), Ht; reflexivity|].
  intros s. split; [|split].
  - apply (scaled_feasible k data data' m m' s B B'); [lra | exact Hsc].
  - apply (scaled_objective k data data' m m' s B B' Ht).
  - apply (scaled_optimal k data data' m m' s B B' Hk Hsc).
Qed.

Lemma demand_scaling_witness :
  exists m m',
    create_instance (constant_data hours_per_year 0 1 10) = Ok m
    /\ create_instance (constant_data hours_per_year 0 1 20) = Ok m'
    /\ feasible m cycling_solution
    /\ feasible m' (scaled 2 cycling_solution)
    /\ objective m' (scaled 2 cycling_solution) == 2 * objective m cycling_solution.
Proof.
  destruct sample_cycling as [m [E Hf]].
  destruct (create_instance_constant hours_per_year 0 1 20) as [m' E'].
  exists m, m'. split; [exact E|]. split; [exact E'|]. split; [exact Hf|].
  assert (Hk : 0 < 2) by reflexivity.
  destruct (demand_scaling 2 _ _ m m' E E' Hk eq_refl) as [_ Hall].
  - intros t Ht. cbn [constant_data data_t] in Ht.
    unfold constant_data. cbn [data_solar data_wind data_demand].
    rewrite !series_constant by exact Ht. repeat split; reflexivity.
  - destruct (Hall cycling_solution) as [H1 [H2 _]].
    split; [exact (H1 Hf) | exact H2].
Defined.

(** ** Feasibility under a sun that always shines *)

Lemma solar_only_lp (T : list Z) (data : DataPortal) :
  (forall t, In t T ->
     0 < series (data_solar data) t /\ 0 <= series (data_demand data) t) ->
  lp_feasible T data (solar_only T data).
Proof.
  intros Hd.
  set (need := fun t => series (data_demand data) t / series (data_solar data) t).
  assert (Hneed : forall t, In t T -> 0 <= need t).
  { intros t Ht. destruct (Hd t Ht) as [H1 H2]. unfold need, Qdiv.
    apply Qmult_le_0_compat; [exact H2|].
    apply Qinv_le_0_compat, Qlt_le_weak, H1. }
  assert (Hsize : 0 <= total T need) by (apply Qsum_nonneg, Hneed).
  constructor; intros t Ht; unfold solar_only; cbv zeta; fold need.
  - unfold tech_keys in Ht. simpl in Ht.
    destruct Ht as [<-|[<-|[<-|[<-|[]]]]]; simpl String.eqb; cbv iota;
      first [exact Hsize | apply Qle_refl].
  - apply Qle_refl.
  - apply Qle_refl.
  - apply Qle_refl.
  - destruct (Hd t Ht) as [H1 H2].
    assert (Hge : need t <= total T need)
      by (apply Qsum_ge_term; [exact Hneed | exact Ht]).
    assert (Hmul : series (data_solar data) t * need t
                   == series (data_demand data) t).
    { unfold need. field. intros Hz. rewrite Hz in H1. discriminate. }
    assert (Hle : series (data_solar data) t * need t
                  <= series (data_solar data) t * total T need)
      by (apply Qmult_le_l_nonneg; [exact Hge | lra]).
    lra.
  - simpl String.eqb. cbv iota. ring.
  - simpl String.eqb. cbv iota. lra.
  - simpl String.eqb. cbv iota. apply Qle_refl.
  - simpl String.eqb. cbv iota. unfold ESS_min_level. lra.
  - rewrite Qdiv_eta_d. ring.
Qed.

(** X11: whenever the solar factor is positive and demand is not negative
    at every hour, the instance has a feasible solution, and one that
    installs solar capacity only: no wind, no storage, the surplus
    curtailed. *)
Theorem sunny_data_feasible (data : DataPortal) (m : Instance) :
  create_instance data = Ok m ->
  (forall t, In t (model_t (inst_model m)) ->
     0 < series (data_solar data) t /\ 0 <= series (data_demand data) t) ->
  exists s,
    feasible m s
    /\ s (cap "w_cap") == 0
    /\ s (cap "ESS_power_cap") == 0
    /\ s (cap "ESS_energy_cap") == 0
    /\ forall t, In t (model_t (inst_model m)) ->
         s (ESS_c t) == 0 /\ s (ESS_d t) == 0 /\ s (ESS_SOC t) == 0.
Proof.
  intros H Hd.
  exists (solar_only (model_t (inst_model m)) data). split.
  - apply (feasible_lp_built _ _ _ H). now apply solar_only_lp.
  - repeat split; reflexivity.
Qed.

Lemma sunny_data_feasible_witness :
  exists m s,
    create_instance (constant_data hours_per_year 0 0.25 10) = Ok m
    /\ feasible m s
    /\ s (cap "ESS_power_cap") == 0.
Proof.
  destruct (create_instance_constant hours_per_year 0 0.25 10) as [m E].
  destruct (sunny_data_feasible _ m E) as [s [Hf [_ [HP _]]]].
  - intros t Ht.
    rewrite (model_t_constant _ _ _ _ _ _ (create_instance_Built _ _ E)) in Ht.
    unfold constant_data. cbn [data_solar data_demand].
    rewrite !series_constant by exact Ht. split; Qconst.
  - exists m, s. split; [exact E|]. split; [exact Hf | exact HP].
Defined.

(** ** Shape of the constructed instance *)

Lemma In_rows (index : list Z) (row : Z -> constraint) (i : Z) (c : constraint) :
  In (i, c) (rows index row) -> In i index /\ c = row i.
Proof.
  unfold rows. rewrite in_map_iff. intros [j [Hj Hin]].
  inversion Hj; subst. auto.
Qed.

Lemma map_fst_rows (index : list Z) (row : Z -> constraint) :
  map fst (rows index row) = index.
Proof. unfold rows. rewrite map_map. simpl. apply map_id. Qed.

Lemma length_rows (index : list Z) (row : Z -> constraint) :
  List.length (rows index row) = List.length index.
Proof. unfold rows. apply length_map. Qed.

Lemma rows_declared (costs0 : dict string) (data : DataPortal) (m : Instance) :
  Built costs0 data m ->
  forall b, In b (blocks m) ->
  forall i c, In (i, c) b ->
  forall v, In v (constraint_vars c) -> declared (inst_model m) v.
Proof.
  intros B b Hb i c Hic v Hv. unfold blocks in Hb.
  rewrite (built_match _ _ _ B), (built_rate _ _ _ B), (built_max _ _ _ B),
    (built_min _ _ _ B), (built_soc _ _ _ B) in Hb.
  assert (Hdecl : forall j, In j (model_t (inst_model m)) ->
            declared (inst_model m) (ESS_SOC j)
            /\ declared (inst_model m) (ESS_c j)
            /\ declared (inst_model m) (ESS_d j)
            /\ declared (inst_model m) (curt j)).
  { intros j Hj. simpl. tauto. }
  assert (Hcap : forall k, In k tech_keys -> declared (inst_model m) (cap k)).
  { intros k Hk. simpl. rewrite (built_tech _ _ _ B). exact Hk. }
  destruct Hb as [<-|[<-|[<-|[<-|[<-|[]]]]]];
    apply In_rows in Hic; destruct Hic as [Hi ->];
    pose proof (Hdecl i Hi) as [H1 [H2 [H3 H4]]];
    pose proof (Hdecl _ (built_prev _ _ _ B i Hi)) as [H5 _];
    cbn in Hv.
  - destruct Hv as [<-|[<-|[<-|[<-|[<-|[]]]]]]; try assumption; apply Hcap; in_tech.
  - destruct Hv as [<-|[<-|[<-|[]]]]; try assumption; apply Hcap; in_tech.
  - destruct Hv as [<-|[<-|[]]]; try assumption; apply Hcap; in_tech.
  - destruct Hv as [<-|[<-|[]]]; try assumption; apply Hcap; in_tech.
  - destruct Hv as [<-|[<-|[<-|[<-|[]]]]]; assumption.
Qed.

Lemma OBJ_declared (costs0 : dict string) (data : DataPortal) (m : Instance) :
  Built costs0 data m ->
  forall v, In v (expr_vars (OBJ m)) -> declared (inst_model m) v.
Proof.
  intros B v Hv. rewrite (expr_vars_OBJ _ _ _ B) in Hv.
  apply in_app_or in Hv. destruct Hv as [Hv|Hv].
  - apply in_map_iff in Hv. destruct Hv as [k [<- Hk]].
    simpl. rewrite (built_tech _ _ _ B). exact Hk.
  - apply in_flat_map in Hv. destruct Hv as [t [Ht Hv]].
    simpl in Hv. destruct Hv as [<-|[<-|[]]]; simpl; exact Ht.
Qed.

(** X12: every variable that the objective or a constraint of an instance
    returned by construction mentions belongs to a declared [Var] component
    at an index of its index set: the rules read every variable through its
    component, and a read outside the index set raises [KeyError] and
    returns no instance, as [ESS_SOC[-1]] does for a file whose rows come in
    the order 2, 0, 1, 3. *)
Theorem rules_use_declared_variables (data : DataPortal) (m : Instance) :
  create_instance data = Ok m ->
  (forall v, In v (expr_vars (OBJ m)) -> declared (inst_model m) v)
  /\ (forall b, In b (blocks m) ->
      forall i c, In (i, c) b ->
      forall v, In v (constraint_vars c) -> declared (inst_model m) v)
  /\ (forall t, In t (model_t (inst_model m)) ->
        t <> Set_first (model_t (inst_model m)) ->
        In (t - 1)%Z (model_t (inst_model m)))
  /\ create_instance (load toy_rows_shuffled)
     = Raise (LookupInvalid "ESS_SOC" (KInt (-1))).
Proof.
  intros H. pose proof (create_instance_Built _ _ H) as B.
  split; [apply (OBJ_declared _ _ _ B)|].
  split; [apply (rows_declared _ _ _ B)|]. split.
  - intros t Ht Hne. pose proof (built_prev _ _ _ B t Ht) as Hp.
    apply (proj1 (prev_In _ _ Ht)) in Hp. tauto.
  - vm_compute. reflexivity.
Qed.

Lemma rules_use_declared_variables_witness :
  exists m,
    create_instance (constant_data hours_per_year 0 1 10) = Ok m
    /\ (forall v, In v (expr_vars (OBJ m)) -> declared (inst_model m) v)
    /\ In (8759 - 1)%Z (model_t (inst_model m)).
Proof.
  destruct (create_instance_constant hours_per_year 0 1 10) as [m E]. exists m.
  split; [exact E|].
  destruct (rules_use_declared_variables _ m E) as [Hobj [_ [Hprev _]]].
  split; [exact Hobj|].
  pose proof (model_t_constant _ _ _ _ _ _ (create_instance_Built _ _ E)) as HT.
  apply Hprev.
  - apply (model_hours _ _ _ m 8759%Z E). lia.
  - rewrite HT, hours_per_year_S, Set_first_range. lia.
Defined.

(** X13: each of the five constraint blocks of a built instance holds
    exactly one constraint per hour, in the order of the time index, whose
    hours are pairwise distinct; the instance has five constraints per hour
    of the file, 5 * 8760 = 43800 when the file lists the hours
    [0 .. 8759]. *)
Theorem one_constraint_per_hour (data : DataPortal) (m : Instance) :
  create_instance data = Ok m ->
  NoDup (model_t (inst_model m))
  /\ (forall b, In b (blocks m) -> map fst b = model_t (inst_model m))
  /\ List.length (List.concat (blocks m))
     = (5 * List.length (model_t (inst_model m)))%nat
  /\ (data_t data = range hours_per_year ->
      Z.of_nat (List.length (List.concat (blocks m))) = 43800%Z).
Proof.
  intros H. pose proof (create_instance_Built _ _ H) as B.
  assert (Hlen : List.length (List.concat (blocks m))
                 = (5 * List.length (model_t (inst_model m)))%nat).
  { unfold blocks.
    rewrite (built_match _ _ _ B), (built_rate _ _ _ B), (built_max _ _ _ B),
      (built_min _ _ _ B), (built_soc _ _ _ B).
    cbn [List.concat]. rewrite !length_app, !length_rows.
    cbn [List.length]. lia. }
  split; [apply (NoDup_model_t _ _ _ B)|]. split; [|split; [exact Hlen|]].
  - unfold blocks.
    rewrite (built_match _ _ _ B), (built_rate _ _ _ B), (built_max _ _ _ B),
      (built_min _ _ _ B), (built_soc _ _ _ B).
    intros b [<-|[<-|[<-|[<-|[<-|[]]]]]]; apply map_fst_rows.
  - intros Hd. rewrite Hlen, (model_t_year _ _ _ B Hd), length_range.
    rewrite Nat2Z.inj_mul, hours_per_year_Z. reflexivity.
Qed.

Lemma one_constraint_per_hour_witness :
  exists m,
    create_instance (constant_data hours_per_year 0 1 10) = Ok m
    /\ map fst (SOC_const_ m) = model_t (inst_model m)
    /\ Z.of_nat (List.length (List.concat (blocks m))) = 43800%Z.
Proof.
  destruct (create_instance_constant hours_per_year 0 1 10) as [m E]. exists m.
  split; [exact E|].
  destruct (one_constraint_per_hour _ m E) as [_ [Hb [_ Hn]]].
  split; [|exact (Hn eq_refl)]. apply Hb. unfold blocks. simpl. tauto.
Defined.

(** ** Exactly when construction succeeds *)



(** ** What the loads read *)

Lemma dict_get_map_NoDup {A : Type} (key : A -> Z) (val : A -> Q) (l : list A)
    (r : A) :
  NoDup (map key l) -> In r l ->
  dict_get Z.eqb (map (fun x => (key x, val x)) l) (key r) = Some (val r).
Proof.
  induction l as [|x l IH]; intros Hnd Hin; [destruct Hin|].
  inversion Hnd as [|k ks Hout Hnd']; subst. cbn [map dict_get].
  destruct Hin as [->|Hin].
  - now rewrite Z.eqb_refl.
  - destruct (Z.eqb_spec (key x) (key r)) as [E|_]; [|now apply IH].
    exfalso. apply Hout. rewrite E. now apply in_map.
Qed.

Lemma load_NoDup (file : list csv_row) :
  NoDup (map row_t file) ->
  load file
  = {| data_t := map row_t file;
       data_wind := map (fun r => (row_t r, row_wind r)) file;
       data_solar := map (fun r => (row_t r, row_solar r)) file;
       data_demand := map (fun r => (row_t r, row_demand r)) file |}.
Proof.
  intros Hnd. unfold load.
  rewrite !dict_of_NoDup;
    try (intros a b; apply Z.eqb_eq);
    try (rewrite map_map; cbn [fst]; exact Hnd).
  reflexivity.
Qed.

(** X15: the instance built from a file whose rows carry distinct hours
    reads the file back: its time index is the [t] column in row order, its
    first and last hours are those of the first and of the last row, and
    the wind, solar and demand parameters at the hour of a row hold the
    values of that row. *)
Theorem loaded_file_read_back (file : list csv_row) (m : Instance) :
  create_instance (load file) = Ok m ->
  NoDup (map row_t file) ->
  model_t (inst_model m) = map row_t file
  /\ (forall r rest, file = r :: rest ->
        Set_first (model_t (inst_model m)) = row_t r)
  /\ (forall front r, file = front ++ [r] ->
        Set_last (model_t (inst_model m)) = row_t r)
  /\ forall r, In r file ->
       model_wind (inst_model m) (row_t r) = Some (row_wind r)
       /\ model_solar (inst_model m) (row_t r) = Some (row_solar r)
       /\ model_demand (inst_model m) (row_t r) = Some (row_demand r).
Proof.
  intros E Hnd. pose proof (create_instance_Built _ _ E) as B.
  assert (HT : model_t (inst_model m) = map row_t file).
  { rewrite (built_t _ _ _ B). cbn [load data_t].
    apply (Set_construct_NoDup _ Hnd). }
  split; [exact HT|]. split; [|split].
  - intros r rest ->. rewrite HT. reflexivity.
  - intros front r ->. rewrite HT, map_app. apply last_last.
  - intros r Hr.
    rewrite (built_wind_param _ _ _ B), (built_solar_param _ _ _ B),
      (built_demand_param _ _ _ B), (load_NoDup _ Hnd).
    cbn [data_wind data_solar data_demand].
    repeat split; now apply dict_get_map_NoDup.
Qed.

Lemma loaded_file_read_back_witness :
  exists m,
    create_instance (load toy_rows_from_1) = Ok m
    /\ model_t (inst_model m) = [1; 2; 3; 4]%Z
    /\ Set_first (model_t (inst_model m)) = 1%Z
    /\ Set_last (model_t (inst_model m)) = 4%Z
    /\ model_wind (inst_model m) 3%Z = Some 1
    /\ model_demand (inst_model m) 3%Z = Some 10.
Proof.
  assert (Hex : exists m, create_instance (load toy_rows_from_1) = Ok m).
  { eexists. vm_compute. reflexivity. }
  destruct Hex as [m E]. exists m. split; [exact E|].
  assert (Hnd : NoDup (map row_t toy_rows_from_1)).
  { cbn. repeat (constructor; [simpl; intuition discriminate|]). constructor. }
  destruct (loaded_file_read_back toy_rows_from_1 m E Hnd)
    as [HT [Hfirst [Hlast Hrow]]].
  split; [exact HT|].
  split; [exact (Hfirst _ _ eq_refl)|].
  split.
  { exact (Hlast
             [ {| row_t := 1; row_wind := 0; row_solar := 1; row_demand := 10 |};
               {| row_t := 2; row_wind := 0; row_solar := 1; row_demand := 10 |};
               {| row_t := 3; row_wind := 1; row_solar := 0; row_demand := 10 |} ]
             {| row_t := 4; row_wind := 1; row_solar := 0; row_demand := 10 |}
             eq_refl). }
  destruct (Hrow {| row_t := 3; row_wind := 1; row_solar := 0; row_demand := 10 |})
    as [Hw [_ Hd]].
  { cbn. tauto. }
  split; [exact Hw | exact Hd].
Defined.
